(** * Offline synchronization hub (package [offline], file hub.go)

    A shallow embedding of the [Hub] methods: the cached current snapshot,
    the list-data update operations and the synchronization pass
    [SyncListData], together with the properties of the specification that
    concern them.

    The hub talks to four collaborators whose code lives elsewhere: the
    offline database, the entry codec ([GetAnimeEntry], [GetMangaEntry],
    [Marshal]), the AniList client and the websocket event manager.  The
    database and the codec are interfaces here (type classes); the client is
    a function giving the answer of each call; events, lock operations and
    every collaborator call are recorded, in order, in a trace.

    The first part of the file holds the definitions: the data model, the
    monad of a method body, the methods, a list database to run them on and
    sample hubs.  The second part holds the properties. *)

From Stdlib Require Import ZArith List String Ascii Bool Lia.
Import ListNotations.
Open Scope string_scope.
Open Scope list_scope.
Open Scope Z_scope.

Set Implicit Arguments.

(** ** Go integers *)

(** Go's [int] on a 64-bit platform: two's complement, wrapping. *)
Definition wrap_int (z : Z) : Z := (z + 2 ^ 63) mod 2 ^ 64 - 2 ^ 63.

Definition int_mul (a b : Z) : Z := wrap_int (a * b).

(** ** Errors and results *)

(** [ErrNew] is [errors.New msg], raised by the hub itself; [ErrDb] is an
    error reported by the offline database; [ErrClient] one reported by the
    AniList client. *)
Inductive error : Type :=
| ErrNew (msg : string)
| ErrDb (msg : string)
| ErrClient (msg : string).

(** A Go [error] value: [None] is [nil]. *)
Definition goerror : Type := option error.

(** A Go pair [(value, err)]. *)
Inductive result (A : Type) : Type :=
| OkR (a : A)
| ErrR (e : error).
Arguments OkR {A} a.
Arguments ErrR {A} e.

(** ** Data model *)

(** [anilist.MediaListStatus] is a string type. *)
Definition MediaListStatus : Type := string.

Record ListData : Type := mkListData {
  Progress : Z;
  Status : MediaListStatus;
  Score : Z;
  StartedAt : string;
  CompletedAt : string
}.

Definition set_Progress (p : Z) (l : ListData) : ListData :=
  mkListData p (Status l) (Score l) (StartedAt l) (CompletedAt l).
Definition set_Status (s : MediaListStatus) (l : ListData) : ListData :=
  mkListData (Progress l) s (Score l) (StartedAt l) (CompletedAt l).
Definition set_Score (s : Z) (l : ListData) : ListData :=
  mkListData (Progress l) (Status l) s (StartedAt l) (CompletedAt l).
Definition set_StartedAt (s : string) (l : ListData) : ListData :=
  mkListData (Progress l) (Status l) (Score l) s (CompletedAt l).
Definition set_CompletedAt (s : string) (l : ListData) : ListData :=
  mkListData (Progress l) (Status l) (Score l) (StartedAt l) s.

(** A typed entry.  Only the [ListData] pointer is used by the hub; the
    other fields of the entry (media, episodes, assets) travel unchanged in
    [Rest].  [AnimeEntry] and [MangaEntry] have this shape, with their own
    type of remaining fields. *)
Record Entry (Rest : Type) : Type := mkEntry {
  EntryListData : option ListData;
  EntryRest : Rest
}.

Definition set_EntryListData {Rest} (l : ListData) (e : Entry Rest) : Entry Rest :=
  mkEntry (Some l) (EntryRest e).

(** The entry codec: the stored [Value] of a row and its typed readings.
    [GetAnimeEntry] and [GetMangaEntry] give [None] (a nil pointer) when the
    payload does not decode. *)
Class EntryCodec : Type := {
  Bytes : Type;
  AnimeRest : Type;
  MangaRest : Type;
  decodeAnime : Bytes -> option (Entry AnimeRest);
  decodeManga : Bytes -> option (Entry MangaRest);
  MarshalAnime : Entry AnimeRest -> Bytes;
  MarshalManga : Entry MangaRest -> Bytes
}.

(** What the update operations need of a codec: an entry that was
    marshalled decodes to itself. *)
Class EntryCodecLaws (C : EntryCodec) : Prop := {
  decodeAnime_Marshal : forall e, decodeAnime (MarshalAnime e) = Some e;
  decodeManga_Marshal : forall e, decodeManga (MarshalManga e) = Some e
}.

(** The snapshot row of the offline database. *)
Record SnapshotItem : Type := mkSnapshotItem {
  ItemID : Z;
  Used : bool;
  Synced : bool
}.

Section Rows.
Context {codec : EntryCodec}.

(** The media-entry row of the offline database.  [CreatedAt] and
    [UpdatedAt] are instants (nanoseconds); the hub only compares them. *)
Record SnapshotMediaEntry : Type := mkSnapshotMediaEntry {
  ID : Z;
  Type_ : string;
  MediaId : Z;
  SnapshotItemId : Z;
  Value : Bytes;
  CreatedAt : Z;
  UpdatedAt : Z
}.

Definition set_Value (v : Bytes) (se : SnapshotMediaEntry) : SnapshotMediaEntry :=
  mkSnapshotMediaEntry (ID se) (Type_ se) (MediaId se) (SnapshotItemId se) v
    (CreatedAt se) (UpdatedAt se).

Definition GetAnimeEntry (se : SnapshotMediaEntry) : option (Entry AnimeRest) :=
  decodeAnime (Value se).
Definition GetMangaEntry (se : SnapshotMediaEntry) : option (Entry MangaRest) :=
  decodeManga (Value se).

(** The snapshot held in the hub's cache. *)
Record Snapshot : Type := mkSnapshot {
  DbId : Z;
  Entries : list SnapshotMediaEntry
}.

End Rows.

(** ** Timestamps: [time.Parse(time.RFC3339, s)]

    Go's [time.Parse] reads a value against the layout [RFC3339] in two
    steps.  It first tries [parseRFC3339], a strict reading: the fixed
    layout [YYYY-MM-DDTHH:MM:SS], an optional fraction after a period, then
    [Z] or a numeric offset [+HH:MM] / [-HH:MM] of at most 23:59.  When
    that fails it falls back to the general layout parser [parse], which on
    this layout is more lenient: the hour may have one digit, the fraction
    may follow a comma, and the offset may be as large as 24:60.  Both
    check every field against its range, the day against the length of its
    month. *)

Record Time : Type := mkTime {
  tYear : Z;
  tMonth : Z;
  tDay : Z;
  tHour : Z;
  tMinute : Z;
  tSecond : Z;
  tNanosecond : Z;
  tOffset : Z (* seconds east of UTC *)
}.

(** [Year()], [Month()] and [Day()] read the wall clock of the parsed
    instant in its own zone, that is the date fields that were written. *)
Definition Year (t : Time) : Z := tYear t.
Definition Month (t : Time) : Z := tMonth t.
Definition Day (t : Time) : Z := tDay t.

Definition isDigit (c : ascii) : bool :=
  let n := nat_of_ascii c in (48 <=? n)%nat && (n <=? 57)%nat.

Definition digitVal (c : ascii) : Z := Z.of_nat (nat_of_ascii c) - 48.

Fixpoint parseDigits (s : string) (acc : Z) : option Z :=
  match s with
  | EmptyString => Some acc
  | String c rest =>
      if isDigit c then parseDigits rest (acc * 10 + digitVal c) else None
  end.

Definition parseUint (s : string) (min max : Z) : option Z :=
  match parseDigits s 0 with
  | Some x => if (min <=? x) && (x <=? max) then Some x else None
  | None => None
  end.

Definition isLeap (year : Z) : bool :=
  (year mod 4 =? 0) && (negb (year mod 100 =? 0) || (year mod 400 =? 0)).

Definition daysIn (month year : Z) : Z :=
  if month =? 2 then (if isLeap year then 29 else 28)
  else if (month =? 4) || (month =? 6) || (month =? 9) || (month =? 11) then 30
  else 31.

Definition charAt (s : string) (i : nat) (c : ascii) : bool :=
  match String.get i s with
  | Some d => Ascii.eqb d c
  | None => false
  end.

(** The digits that open [s], and what follows them. *)
Fixpoint spanDigits (s : string) : string * string :=
  match s with
  | EmptyString => (EmptyString, EmptyString)
  | String c rest =>
      if isDigit c
      then let '(ds, tl) := spanDigits rest in (String c ds, tl)
      else (EmptyString, s)
  end.

(** Nanoseconds of a fraction: its first nine digits, scaled. *)
Definition parseNanoseconds (digits : string) : Z :=
  let d := substring 0 9 digits in
  match parseDigits d 0 with
  | Some n => n * 10 ^ (9 - Z.of_nat (String.length d))
  | None => 0
  end.

Definition parseFraction (s : string) : Z * string :=
  match s with
  | String "." (String c rest) =>
      if isDigit c
      then let '(ds, tl) := spanDigits (String c rest) in (parseNanoseconds ds, tl)
      else (0, s)
  | _ => (0, s)
  end.

Definition parseZone (s : string) : option Z :=
  if String.eqb s "Z" then Some 0
  else if negb (Nat.eqb (String.length s) 6) then None
  else
    match parseUint (substring 1 2 s) 0 23, parseUint (substring 4 2 s) 0 59 with
    | Some hr, Some mm =>
        if (charAt s 0 "-" || charAt s 0 "+") && charAt s 3 ":"
        then Some (if charAt s 0 "-" then - ((hr * 60 + mm) * 60) else (hr * 60 + mm) * 60)
        else None
    | _, _ => None
    end.

(** Go's [parseRFC3339], the strict first step of [time.Parse]. *)
Definition parseRFC3339 (s : string) : option Time :=
  if (String.length s <? 19)%nat then None
  else
    match parseUint (substring 0 4 s) 0 9999 with
    | None => None
    | Some year =>
    match parseUint (substring 5 2 s) 1 12 with
    | None => None
    | Some month =>
    match parseUint (substring 8 2 s) 1 (daysIn month year),
          parseUint (substring 11 2 s) 0 23,
          parseUint (substring 14 2 s) 0 59,
          parseUint (substring 17 2 s) 0 59 with
    | Some day, Some hour, Some min, Some sec =>
        if charAt s 4 "-" && charAt s 7 "-" && charAt s 10 "T"
           && charAt s 13 ":" && charAt s 16 ":"
        then
          let '(nsec, zone) := parseFraction (substring 19 (String.length s - 19) s) in
          match parseZone zone with
          | Some off => Some (mkTime year month day hour min sec nsec off)
          | None => None
          end
        else None
    | _, _, _, _ => None
    end end end.

(** *** The layout parser

    Go's [parse(layout, value, UTC, Local)] cuts the layout into chunks
    with [nextStdChunk] and reads the value chunk by chunk.  The layout
    [RFC3339] is the constant "2006-01-02T15:04:05Z07:00", whose chunks are:
    the four-digit year, [-], the two-digit month, [-], the two-digit day,
    [T], the hour, [:], the two-digit minute, [:], the two-digit second and
    the zone [Z07:00].  [parseLayout] is [parse] on these chunks, each
    with the code of its case in the switch of [parse]. *)

(** [s[:n]] and [s[n:]]. *)
Fixpoint takeS (n : nat) (s : string) : string :=
  match n, s with
  | S k, String c rest => String c (takeS k rest)
  | _, _ => EmptyString
  end.

Fixpoint dropS (n : nat) (s : string) : string :=
  match n, s with
  | S k, String _ rest => dropS k rest
  | _, _ => s
  end.

(** [isDigit(s, i)]: the byte at [i] exists and is a digit. *)
Definition isDigitAt (s : string) (i : nat) : bool :=
  match String.get i s with
  | Some c => isDigit c
  | None => false
  end.

Definition commaOrPeriod (c : ascii) : bool := Ascii.eqb c "." || Ascii.eqb c ",".

(** [atoi]: an optional sign, then digits to the end.  (It is called on
    four bytes, which cannot overflow.) *)
Definition atoi (s : string) : option Z :=
  match s with
  | String c rest =>
      if Ascii.eqb c "-" then option_map Z.opp (parseDigits rest 0)
      else if Ascii.eqb c "+" then parseDigits rest 0
      else parseDigits s 0
  | EmptyString => parseDigits s 0
  end.

(** [getnum(s, fixed)]: the number of the first two bytes when both are
    digits; of the first one when only it is a digit and [fixed] is
    false. *)
Definition getnum (s : string) (fixed : bool) : option (Z * string) :=
  match s with
  | String c0 rest =>
      if isDigit c0
      then
        if isDigitAt rest 0
        then
          match rest with
          | String c1 rest' => Some (digitVal c0 * 10 + digitVal c1, rest')
          | EmptyString => None
          end
        else if fixed then None else Some (digitVal c0, rest)
      else None
  | EmptyString => None
  end.

(** [skip(value, prefix)] for a prefix without spaces, as are those of
    this layout: the value must start with the prefix. *)
Fixpoint skip (value prefix : string) {struct prefix} : option string :=
  match prefix with
  | EmptyString => Some value
  | String p prefix' =>
      match value with
      | String v value' => if Ascii.eqb v p then skip value' prefix' else None
      | EmptyString => None
      end
  end.

(** The end of the case of the seconds: a fraction in the value, after a
    period or a comma, is read although the layout has none. *)
Definition secondFraction (value : string) : Z * string :=
  match value with
  | String c (String d rest) =>
      if commaOrPeriod c && isDigit d
      then let '(ds, tl) := spanDigits (String d rest) in (parseNanoseconds ds, tl)
      else (0, value)
  | _ => (0, value)
  end.

(** The case of the zone [Z07:00]: a [Z], or a sign, two digits, a colon
    and two digits.  The offset and what follows it.  "The range test use
    > rather than >=, as some people do write offsets of 24 hours or 60
    minutes". *)
Definition colonZone (value : string) : option (Z * string) :=
  if charAt value 0 "Z" then Some (0, dropS 1 value)
  else if (String.length value <? 6)%nat then None
  else if negb (charAt value 3 ":") then None
  else
    match getnum (substring 1 2 value) true with
    | None => None
    | Some (hr, _) =>
    match getnum (substring 4 2 value) true with
    | None => None
    | Some (mm, _) =>
        if (24 <? hr) || (60 <? mm) then None
        else if charAt value 0 "+" then Some ((hr * 60 + mm) * 60, dropS 6 value)
        else if charAt value 0 "-" then Some (- ((hr * 60 + mm) * 60), dropS 6 value)
        else None
    end end.

Definition parseLayout (value : string) : option Time :=
  (* "2006": four bytes, the first a digit *)
  if (String.length value <? 4)%nat || negb (isDigitAt value 0) then None
  else
    match atoi (takeS 4 value) with
    | None => None
    | Some year =>
    match skip (dropS 4 value) "-" with
    | None => None
    | Some value =>
    (* "01" *)
    match getnum value true with
    | None => None
    | Some (month, value) =>
    if (month <=? 0) || (12 <? month) then None
    else
    match skip value "-" with
    | None => None
    | Some value =>
    (* "02": any two digits here, the day is checked at the end *)
    match getnum value true with
    | None => None
    | Some (day, value) =>
    match skip value "T" with
    | None => None
    | Some value =>
    (* "15": one digit or two *)
    match getnum value false with
    | None => None
    | Some (hour, value) =>
    if (hour <? 0) || (24 <=? hour) then None
    else
    match skip value ":" with
    | None => None
    | Some value =>
    (* "04" *)
    match getnum value true with
    | None => None
    | Some (min, value) =>
    if (min <? 0) || (60 <=? min) then None
    else
    match skip value ":" with
    | None => None
    | Some value =>
    (* "05" and the fraction *)
    match getnum value true with
    | None => None
    | Some (sec, value) =>
    if (sec <? 0) || (60 <=? sec) then None
    else
    let '(nsec, value) := secondFraction value in
    (* "Z07:00" *)
    match colonZone value with
    | None => None
    | Some (zoneOffset, value) =>
    (* the end of the layout: no text may be left *)
    if negb (String.length value =? 0)%nat then None
    (* the day of the month *)
    else if (day <? 1) || (daysIn month year <? day) then None
    else Some (mkTime year month day hour min sec nsec zoneOffset)
    end end end end end end end end end end end end.

(** [time.Parse(time.RFC3339, value)]: the strict reading, then the layout
    parser.  Only whether it fails is kept of its error. *)
Definition time_Parse (value : string) : option Time :=
  match parseRFC3339 value with
  | Some t => Some t
  | None => parseLayout value
  end.

(** [anilist.FuzzyDateInput]: three optional integers. *)
Record FuzzyDateInput : Type := mkFuzzyDateInput {
  fdYear : option Z;
  fdMonth : option Z;
  fdDay : option Z
}.

(** The date block of the synchronization loop: a non-empty string that
    parses gives its calendar date, anything else the nil pointer. *)
Definition fuzzyDateOf (s : string) : option FuzzyDateInput :=
  if String.eqb s EmptyString then None
  else
    match time_Parse s with
    | Some parsedDate =>
        let year := Year parsedDate in
        let month := Month parsedDate in
        let day := Day parsedDate in
        Some (mkFuzzyDateInput (Some year) (Some month) (Some day))
    | None => None
    end.

(** *** The timestamps that parse

    The strings [time.Parse] accepts against [RFC3339], written out: a
    stamp is the fields of such a string, [stampText] the string itself and
    [stampOk] the ranges of the fields. *)

Definition digitChar (n : Z) : ascii := ascii_of_nat (Z.to_nat (48 + n)).

Definition twoDigits (n : Z) : string :=
  String (digitChar (n / 10)) (String (digitChar (n mod 10)) EmptyString).

Definition fourDigits (n : Z) : string := twoDigits (n / 100) ++ twoDigits (n mod 100).

Fixpoint allDigits (s : string) : bool :=
  match s with
  | EmptyString => true
  | String c rest => isDigit c && allDigits rest
  end.

(** [Z], or an offset east ([+]) or west ([-]) of UTC. *)
Inductive StampZone : Type :=
| ZoneUTC
| ZoneEast (hh mm : Z)
| ZoneWest (hh mm : Z).

Record Stamp : Type := mkStamp {
  stYear : Z;
  stMonth : Z;
  stDay : Z;
  stHour : Z;
  stMinute : Z;
  stSecond : Z;
  stShortHour : bool;  (* the hour is written with one digit *)
  stFraction : string; (* nothing, or a period or a comma and digits *)
  stZone : StampZone
}.

Definition fractionOk (f : string) : bool :=
  match f with
  | EmptyString => true
  | String c ds => commaOrPeriod c && negb (String.eqb ds EmptyString) && allDigits ds
  end.

Definition zoneOk (z : StampZone) : bool :=
  match z with
  | ZoneUTC => true
  | ZoneEast hh mm | ZoneWest hh mm =>
      (0 <=? hh) && (hh <=? 24) && (0 <=? mm) && (mm <=? 60)
  end.

Definition zoneText (z : StampZone) : string :=
  match z with
  | ZoneUTC => "Z"
  | ZoneEast hh mm => "+" ++ twoDigits hh ++ ":" ++ twoDigits mm
  | ZoneWest hh mm => "-" ++ twoDigits hh ++ ":" ++ twoDigits mm
  end.

Definition hourText (short : bool) (hour : Z) : string :=
  if short then String (digitChar hour) EmptyString else twoDigits hour.

Definition stampOk (st : Stamp) : bool :=
  (0 <=? stYear st) && (stYear st <=? 9999)
  && (1 <=? stMonth st) && (stMonth st <=? 12)
  && (1 <=? stDay st) && (stDay st <=? daysIn (stMonth st) (stYear st))
  && (0 <=? stHour st) && (stHour st <=? 23)
  && implb (stShortHour st) (stHour st <=? 9)
  && (0 <=? stMinute st) && (stMinute st <=? 59)
  && (0 <=? stSecond st) && (stSecond st <=? 59)
  && fractionOk (stFraction st)
  && zoneOk (stZone st).

Definition stampText (st : Stamp) : string :=
  fourDigits (stYear st) ++ "-" ++ twoDigits (stMonth st) ++ "-" ++ twoDigits (stDay st)
  ++ "T" ++ hourText (stShortHour st) (stHour st)
  ++ ":" ++ twoDigits (stMinute st) ++ ":" ++ twoDigits (stSecond st)
  ++ stFraction st ++ zoneText (stZone st).

(** The date of a stamp, as it is sent. *)
Definition stampDate (st : Stamp) : FuzzyDateInput :=
  mkFuzzyDateInput (Some (stYear st)) (Some (stMonth st)) (Some (stDay st)).

(** ** Collaborators *)

(** The arguments of [UpdateMediaListEntry], after the context. *)
Record UpdateArgs : Type := mkUpdateArgs {
  argMediaId : Z;
  argStatus : MediaListStatus;
  argScore : Z;
  argProgress : Z;
  argStartDate : option FuzzyDateInput;
  argEndDate : option FuzzyDateInput
}.

(** [anilist.ClientWrapperInterface], as far as the hub uses it: the error
    returned by the [n]-th call of a pass, given its arguments. *)
Definition ClientWrapper : Type := nat -> UpdateArgs -> goerror.

(** The two events the hub sends through the websocket event manager. *)
Inductive WSEvent : Type :=
| RefreshedAnilistCollection
| RefreshedAnilistMangaCollection.

(** The offline database ([h.offlineDb]).  Queries read the state;
    [UpdateSnapshotMediaEntryT] and [DeleteSnapshot] give a new one.
    [GetLatestSnapshot] may answer a nil row without an error. *)
Class Database {codec : EntryCodec} : Type := {
  db : Type;
  db_GetLatestSnapshot : db -> result (option SnapshotItem);
  db_GetSnapshotMediaEntry : Z -> Z -> db -> result SnapshotMediaEntry;
  db_GetSnapshotMediaEntries : Z -> db -> result (list SnapshotMediaEntry);
  db_UpdateSnapshotMediaEntryT : SnapshotMediaEntry -> db -> db * result SnapshotMediaEntry;
  db_DeleteSnapshot : Z -> db -> db * goerror
}.

(** What the update operations need of a database.  The row found for a
    media id in a snapshot is one of the rows of that snapshot; a write
    leaves the snapshot rows alone and, in every snapshot whose rows can be
    read afterwards, the rows could be read before and only the value (and
    the update time) of the rows with the written key has changed.  The
    written row is always one read from the same state, so its other
    columns are the stored ones. *)
Class DatabaseLaws {codec : EntryCodec} (D : Database) : Prop := {
  lookup_in_entries : forall d mediaId snapshotId se rows,
    db_GetSnapshotMediaEntry mediaId snapshotId d = OkR se ->
    db_GetSnapshotMediaEntries snapshotId d = OkR rows ->
    In se rows /\ MediaId se = mediaId;
  update_keeps_latest : forall d se d' r,
    db_UpdateSnapshotMediaEntryT se d = (d', OkR r) ->
    db_GetLatestSnapshot d' = db_GetLatestSnapshot d;
  update_writes_value : forall d se d' r snapshotId rows',
    db_UpdateSnapshotMediaEntryT se d = (d', OkR r) ->
    db_GetSnapshotMediaEntries snapshotId d' = OkR rows' ->
    exists rows,
      db_GetSnapshotMediaEntries snapshotId d = OkR rows
      /\ Forall2 (fun old new =>
                    if ID old =? ID se
                    then ID new = ID old /\ Type_ new = Type_ old
                         /\ MediaId new = MediaId old
                         /\ SnapshotItemId new = SnapshotItemId old
                         /\ CreatedAt new = CreatedAt old /\ Value new = Value se
                    else new = old)
                 rows rows'
}.

(** A statement of a method body runs on the hub and leaves a trace; it
    goes on with a value, or leaves the method by [return], or panics. *)
Inductive step (R A : Type) : Type :=
| Next (a : A)
| Return (r : R)
| Panic.
Arguments Next {R A} a.
Arguments Return {R A} r.
Arguments Panic {R A}.

Section Hub.
Context {codec : EntryCodec} {database : Database}.

(** Everything a hub operation does to the outside, in order. *)
Inductive event : Type :=
| EvLock
| EvUnlock
| EvDbGetLatestSnapshot
| EvDbGetSnapshotMediaEntry (mediaId snapshotId : Z)
| EvDbGetSnapshotMediaEntries (snapshotId : Z)
| EvDbUpdateSnapshotMediaEntryT (se : SnapshotMediaEntry)
| EvDbDeleteSnapshot (id : Z)
| EvGetAnimeEntry (se : SnapshotMediaEntry)
| EvGetMangaEntry (se : SnapshotMediaEntry)
| EvUpdateMediaListEntry (args : UpdateArgs) (res : goerror)
| EvRefreshAnilistCollections
| EvSendEvent (ev : WSEvent).

(** The fields of [Hub] that the operations read or write.  The mutex is
    seen through [EvLock] and [EvUnlock], the refresh callback and the
    event manager through their events. *)
Record Hub : Type := mkHub {
  anilistClientWrapper : ClientWrapper;
  offlineDb : db;
  isOffline : bool;
  currentSnapshot : option Snapshot
}.

Definition set_offlineDb (d : db) (h : Hub) : Hub :=
  mkHub (anilistClientWrapper h) d (isOffline h) (currentSnapshot h).
Definition set_anilistClientWrapper (c : ClientWrapper) (h : Hub) : Hub :=
  mkHub c (offlineDb h) (isOffline h) (currentSnapshot h).
Definition set_currentSnapshot (s : option Snapshot) (h : Hub) : Hub :=
  mkHub (anilistClientWrapper h) (offlineDb h) (isOffline h) s.

(** *** The monad of a method body *)

Definition M (R A : Type) : Type := Hub -> list event * Hub * step R A.

Definition ret {R A} (a : A) : M R A := fun h => ([], h, Next a).

Definition bind {R A B} (m : M R A) (f : A -> M R B) : M R B :=
  fun h =>
    let '(t1, h1, s) := m h in
    match s with
    | Next a => let '(t2, h2, s2) := f a h1 in (t1 ++ t2, h2, s2)
    | Return r => (t1, h1, Return r)
    | Panic => (t1, h1, Panic)
    end.

Definition return_ {R A} (r : R) : M R A := fun h => ([], h, Return r).
Definition panic {R A} : M R A := fun h => ([], h, Panic).
Definition emit {R} (e : event) : M R unit := fun h => ([e], h, Next tt).
Definition getHub {R} : M R Hub := fun h => ([], h, Next h).
Definition putHub {R} (h' : Hub) : M R unit := fun _ => ([], h', Next tt).

(** Dereference of a pointer: nil panics. *)
Definition deref {R A} (p : option A) : M R A :=
  match p with
  | Some a => ret a
  | None => panic
  end.

End Hub.

Declare Scope hub_scope.
Delimit Scope hub_scope with hub.
Notation "x <- m ;; k" := (bind m (fun x => k))
  (at level 61, m at next level, right associativity) : hub_scope.
Notation "m ;; k" := (bind m (fun _ => k))
  (at level 61, right associativity) : hub_scope.
Open Scope hub_scope.

(** How a method call ends. *)
Inductive outcome (R : Type) : Type :=
| Returned (r : R)
| Panicked.
Arguments Returned {R} r.
Arguments Panicked {R}.

Section HubOps.
Context {codec : EntryCodec} {database : Database}.

Definition finish {R} (s : step R R) : outcome R :=
  match s with
  | Next r => Returned r
  | Return r => Returned r
  | Panic => Panicked
  end.

(** A method without the lock. *)
Definition method {R} (body : M R R) (h : Hub) : list event * Hub * outcome R :=
  let '(t, h', s) := body h in (t, h', finish s).

(** [h.mu.Lock(); defer h.mu.Unlock()] around a body: the lock is released
    when the method returns and when it panics. *)
Definition locked {R} (body : M R R) (h : Hub) : list event * Hub * outcome R :=
  let '(t, h', s) := body h in (EvLock :: t ++ [EvUnlock], h', finish s).

(** *** Calls to the offline database *)

Definition callGetLatestSnapshot {R} : M R (result (option SnapshotItem)) :=
  emit EvDbGetLatestSnapshot ;;
  h <- getHub ;;
  ret (db_GetLatestSnapshot (offlineDb h)).

Definition callGetSnapshotMediaEntry {R} (mediaId snapshotId : Z)
  : M R (result SnapshotMediaEntry) :=
  emit (EvDbGetSnapshotMediaEntry mediaId snapshotId) ;;
  h <- getHub ;;
  ret (db_GetSnapshotMediaEntry mediaId snapshotId (offlineDb h)).

Definition callGetSnapshotMediaEntries {R} (snapshotId : Z)
  : M R (result (list SnapshotMediaEntry)) :=
  emit (EvDbGetSnapshotMediaEntries snapshotId) ;;
  h <- getHub ;;
  ret (db_GetSnapshotMediaEntries snapshotId (offlineDb h)).

Definition callUpdateSnapshotMediaEntryT {R} (se : SnapshotMediaEntry)
  : M R (result SnapshotMediaEntry) :=
  emit (EvDbUpdateSnapshotMediaEntryT se) ;;
  h <- getHub ;;
  let '(d, r) := db_UpdateSnapshotMediaEntryT se (offlineDb h) in
  putHub (set_offlineDb d h) ;;
  ret r.

Definition callDeleteSnapshot {R} (id : Z) : M R goerror :=
  emit (EvDbDeleteSnapshot id) ;;
  h <- getHub ;;
  let '(d, r) := db_DeleteSnapshot id (offlineDb h) in
  putHub (set_offlineDb d h) ;;
  ret r.

(** *** Calls to the codec *)

Definition callGetAnimeEntry {R} (se : SnapshotMediaEntry)
  : M R (option (Entry AnimeRest)) :=
  emit (EvGetAnimeEntry se) ;; ret (GetAnimeEntry se).

Definition callGetMangaEntry {R} (se : SnapshotMediaEntry)
  : M R (option (Entry MangaRest)) :=
  emit (EvGetMangaEntry se) ;; ret (GetMangaEntry se).

(** Modelled from the spec: [Hub.GetLatestSnapshot(bypassCache)], whose
    code is in another file of the package.  With [bypassCache] set it
    reads the database's latest snapshot row and the entries of that
    snapshot; a missing row is an error. *)
Definition GetLatestSnapshot {R} : M R (result Snapshot) :=
  r <- callGetLatestSnapshot ;;
  match r with
  | ErrR e => ret (ErrR e)
  | OkR None => ret (ErrR (ErrNew "snapshot not found"))
  | OkR (Some item) =>
      rs <- callGetSnapshotMediaEntries (ItemID item) ;;
      match rs with
      | ErrR e => ret (ErrR e)
      | OkR rows => ret (OkR (mkSnapshot (ItemID item) rows))
      end
  end.

(** The error of a Go pair. *)
Definition errOf {A} (r : result A) : goerror :=
  match r with
  | OkR _ => None
  | ErrR e => Some e
  end.

(** [if err != nil { return err }] after a call. *)
Definition orReturnErr {A} (r : result A) : M goerror A :=
  match r with
  | OkR a => ret a
  | ErrR e => return_ (Some e)
  end.

(** [h.currentSnapshot = ret]. *)
Definition storeCurrentSnapshot {R} (s : Snapshot) : M R unit :=
  h <- getHub ;; putHub (set_currentSnapshot (Some s) h).

(** *** Reading the cache *)

Definition RetrieveCurrentSnapshot : Hub -> list event * Hub * outcome (option Snapshot * bool) :=
  locked (
    h <- getHub ;;
    match currentSnapshot h with
    | None =>
        r <- GetLatestSnapshot ;;
        match r with
        | ErrR _ => return_ (None, false)
        | OkR s => storeCurrentSnapshot s
        end
    | Some _ => ret tt
    end ;;
    h <- getHub ;;
    return_ (currentSnapshot h, true)).

Definition GetCurrentSnapshot : Hub -> list event * Hub * outcome (option Snapshot * bool) :=
  locked (
    h <- getHub ;;
    match currentSnapshot h with
    | None => return_ (None, false)
    | Some s => return_ (Some s, true)
    end).

(** *** The update operations *)

(** The opening of the three update operations: load the snapshot when the
    cache is empty; the snapshot read afterwards is the cached one. *)
Definition loadCurrentSnapshot : M goerror Snapshot :=
  h <- getHub ;;
  match currentSnapshot h with
  | None =>
      r <- GetLatestSnapshot ;;
      match r with
      | ErrR _ => return_ (Some (ErrNew "snapshot not found"))
      | OkR s => storeCurrentSnapshot s
      end
  | Some _ => ret tt
  end ;;
  h <- getHub ;;
  deref (currentSnapshot h).

(** Their ending: reload the cache from the database. *)
Definition refreshCurrentSnapshot : M goerror goerror :=
  r <- GetLatestSnapshot ;;
  s <- orReturnErr r ;;
  storeCurrentSnapshot s ;;
  ret None.

Definition UpdateAnimeListStatus (mediaId progress : Z) (status : MediaListStatus)
  : Hub -> list event * Hub * outcome goerror :=
  locked (
    snap <- loadCurrentSnapshot ;;
    r <- callGetSnapshotMediaEntry mediaId (DbId snap) ;;
    snapshotEntry <- orReturnErr r ;;
    a <- callGetAnimeEntry snapshotEntry ;;
    match a with
    | None => return_ (Some (ErrNew "anime entry not found"))
    | Some animeEntry =>
        l <- deref (EntryListData animeEntry) ;;
        let l := set_Progress progress l in
        let l := set_Status status l in
        let animeEntry := set_EntryListData l animeEntry in
        let snapshotEntry := set_Value (MarshalAnime animeEntry) snapshotEntry in
        r <- callUpdateSnapshotMediaEntryT snapshotEntry ;;
        _ <- orReturnErr r ;;
        refreshCurrentSnapshot
    end).

Definition UpdateMangaListStatus (mediaId progress : Z) (status : MediaListStatus)
  : Hub -> list event * Hub * outcome goerror :=
  locked (
    snap <- loadCurrentSnapshot ;;
    r <- callGetSnapshotMediaEntry mediaId (DbId snap) ;;
    snapshotEntry <- orReturnErr r ;;
    m <- callGetMangaEntry snapshotEntry ;;
    match m with
    | None => return_ (Some (ErrNew "manga entry not found"))
    | Some mangaEntry =>
        l <- deref (EntryListData mangaEntry) ;;
        let l := set_Progress progress l in
        let l := set_Status status l in
        let mangaEntry := set_EntryListData l mangaEntry in
        let snapshotEntry := set_Value (MarshalManga mangaEntry) snapshotEntry in
        r <- callUpdateSnapshotMediaEntryT snapshotEntry ;;
        _ <- orReturnErr r ;;
        refreshCurrentSnapshot
    end).

(** [if p != nil { entry.ListData.F = *p }]: nothing happens for a nil
    argument; otherwise the entry's [ListData] pointer is followed. *)
Definition assignField {A Rest} (p : option A) (set : A -> ListData -> ListData)
    (entry : Entry Rest) : M goerror (Entry Rest) :=
  match p with
  | None => ret entry
  | Some v =>
      l <- deref (EntryListData entry) ;;
      ret (set_EntryListData (set v l) entry)
  end.

Definition assignFields {Rest} (status : option MediaListStatus) (score progress : option Z)
    (startDate endDate : option string) (entry : Entry Rest) : M goerror (Entry Rest) :=
  entry <- assignField progress set_Progress entry ;;
  entry <- assignField status set_Status entry ;;
  entry <- assignField score set_Score entry ;;
  entry <- assignField startDate set_StartedAt entry ;;
  assignField endDate set_CompletedAt entry.

Definition UpdateEntryListData (mediaId : option Z) (status : option MediaListStatus)
    (score progress : option Z) (startDate endDate : option string) (t : string)
  : Hub -> list event * Hub * outcome goerror :=
  locked (
    mediaId <- deref mediaId ;;
    snap <- loadCurrentSnapshot ;;
    r <- callGetSnapshotMediaEntry mediaId (DbId snap) ;;
    snapshotEntry <- orReturnErr r ;;
    (if String.eqb t "anime" then
       a <- callGetAnimeEntry snapshotEntry ;;
       match a with
       | None => return_ (Some (ErrNew "entry not found"))
       | Some entry =>
           entry <- assignFields status score progress startDate endDate entry ;;
           let snapshotEntry := set_Value (MarshalAnime entry) snapshotEntry in
           r <- callUpdateSnapshotMediaEntryT snapshotEntry ;;
           _ <- orReturnErr r ;;
           ret tt
       end
     else if String.eqb t "manga" then
       m <- callGetMangaEntry snapshotEntry ;;
       match m with
       | None => return_ (Some (ErrNew "entry not found"))
       | Some entry =>
           entry <- assignFields status score progress startDate endDate entry ;;
           let snapshotEntry := set_Value (MarshalManga entry) snapshotEntry in
           r <- callUpdateSnapshotMediaEntryT snapshotEntry ;;
           _ <- orReturnErr r ;;
           ret tt
       end
     else ret tt) ;;
    refreshCurrentSnapshot).

(** *** The synchronization pass *)

Definition callUpdateMediaListEntry {R} (n : nat) (args : UpdateArgs) : M R goerror :=
  h <- getHub ;;
  let res := anilistClientWrapper h n args in
  emit (EvUpdateMediaListEntry args res) ;;
  ret res.

(** The [switch se.Type] of the loop: the [ListData] pointer of the typed
    entry; the entry pointer itself is followed without a check.  Any other
    type leaves [listData] nil. *)
Definition listDataOf (se : SnapshotMediaEntry) : M goerror (option ListData) :=
  if String.eqb (Type_ se) "anime" then
    a <- callGetAnimeEntry se ;;
    entry <- deref a ;;
    ret (EntryListData entry)
  else if String.eqb (Type_ se) "manga" then
    m <- callGetMangaEntry se ;;
    entry <- deref m ;;
    ret (EntryListData entry)
  else ret None.

(** What is sent for an entry whose list data is [listData]. *)
Definition pushArgs (se : SnapshotMediaEntry) (listData : ListData) : UpdateArgs :=
  let listData := set_Score (int_mul (Score listData) 10) listData in
  let startDate := fuzzyDateOf (StartedAt listData) in
  let endDate := fuzzyDateOf (CompletedAt listData) in
  mkUpdateArgs (MediaId se) (Status listData) (Score listData) (Progress listData)
    startDate endDate.

(** The loop over [updatedSnapshotEntries]; [n] counts the calls made to
    the client, [errI] is the variable every call assigns. *)
Fixpoint syncEntries (ses : list SnapshotMediaEntry) (n : nat) (errI : goerror)
  : M goerror goerror :=
  match ses with
  | [] => ret errI
  | se :: rest =>
      l <- listDataOf se ;;
      match l with
      | None => syncEntries rest n errI
      | Some listData =>
          errI <- callUpdateMediaListEntry n (pushArgs se listData) ;;
          syncEntries rest (S n) errI
      end
  end.

Definition isUpdated (se : SnapshotMediaEntry) : bool :=
  negb (CreatedAt se =? UpdatedAt se).

(** [SyncListData] takes no lock.  Its first statement calls
    [util.HandlePanicInModuleThen] without [defer]: nothing is recovered
    there, so it adds nothing to the run and a panic of the loop leaves the
    method.  [err] is the variable of the two database reads; after the
    check that follows the second read it is nil. *)
Definition SyncListData : Hub -> list event * Hub * outcome goerror :=
  method (
    h <- getHub ;;
    if isOffline h then return_ None else
    r <- callGetLatestSnapshot ;;
    match r with
    | ErrR _ => return_ (Some (ErrNew "no snapshot found"))
    | OkR None => return_ (Some (ErrNew "no snapshot found"))
    | OkR (Some snapshotItem) =>
        if Synced snapshotItem then return_ (Some (ErrNew "data already synced")) else
        if negb (Used snapshotItem) then return_ (Some (ErrNew "snapshot not used")) else
        rs <- callGetSnapshotMediaEntries (ItemID snapshotItem) ;;
        let err := errOf rs in
        match rs with
        | ErrR _ => return_ err
        | OkR snapshotEntries =>
            let updatedSnapshotEntries := filter isUpdated snapshotEntries in
            if (List.length updatedSnapshotEntries =? 0)%nat then return_ None else
            errI <- syncEntries updatedSnapshotEntries 0 None ;;
            match errI with
            | Some _ => return_ err
            | None =>
                _ <- callDeleteSnapshot (ItemID snapshotItem) ;;
                emit EvRefreshAnilistCollections ;;
                emit (EvSendEvent RefreshedAnilistCollection) ;;
                emit (EvSendEvent RefreshedAnilistMangaCollection) ;;
                return_ None
            end
        end
    end).

End HubOps.

(** ** A database and a codec to run the hub on

    The code of the offline database and of the entry codec is not in this
    file of the package; what follows stands for them when a hub is run.
    Rows are kept in two lists, in insertion order; the latest snapshot is
    the last one.  The payload of a row is the typed entry itself. *)
Module ListDb.

(** Modelled from the spec: the serialized [Value] of an entry row, "an
    opaque serialized payload holding a typed entry (AnimeEntry or
    MangaEntry)"; [PGarbage] is a payload that decodes to neither. *)
Inductive payload : Type :=
| PAnime (e : Entry string)
| PManga (e : Entry string)
| PGarbage.

(** Modelled from the spec: the Entry Codec, which "serializes and
    deserializes a typed media-entry payload (anime or manga variant) to
    and from the opaque byte value stored in a SnapshotMediaEntry". *)
#[export] Instance codec : EntryCodec := {|
  Bytes := payload;
  AnimeRest := string;
  MangaRest := string;
  decodeAnime := fun v => match v with PAnime e => Some e | _ => None end;
  decodeManga := fun v => match v with PManga e => Some e | _ => None end;
  MarshalAnime := PAnime;
  MarshalManga := PManga
|}.

Record state : Type := mkState {
  snapshots : list SnapshotItem;
  entries : list SnapshotMediaEntry;
  now : Z (* the clock that stamps writes *)
}.

(** Modelled from the spec: the Snapshot Store query
    [GetLatestSnapshot() -> (Snapshot, error)]; it fails when the store has
    no snapshot. *)
Definition GetLatestSnapshot (d : state) : result (option SnapshotItem) :=
  match rev (snapshots d) with
  | [] => ErrR (ErrDb "record not found")
  | item :: _ => OkR (Some item)
  end.

(** Modelled from the spec: the Snapshot Store query
    [GetSnapshotMediaEntry(mediaId, snapshotDbId)]; the first row of that
    snapshot with that media id, an error when there is none. *)
Definition GetSnapshotMediaEntry (mediaId snapshotId : Z) (d : state)
  : result SnapshotMediaEntry :=
  match find (fun se => (MediaId se =? mediaId) && (SnapshotItemId se =? snapshotId))
          (entries d) with
  | Some se => OkR se
  | None => ErrR (ErrDb "record not found")
  end.

(** Modelled from the spec: the Snapshot Store query
    [GetSnapshotMediaEntries(snapshotId)]; all the rows of that snapshot. *)
Definition GetSnapshotMediaEntries (snapshotId : Z) (d : state)
  : result (list SnapshotMediaEntry) :=
  OkR (filter (fun se => SnapshotItemId se =? snapshotId) (entries d)).

(** Modelled from the spec: what [UpdateSnapshotMediaEntry(entry)] does to
    a stored row.  The row with the key of [se] takes its value and the
    time of the write ("any local mutation must update UpdatedAt"); its
    other columns are those [se] was read with. *)
Definition writeValue (se : SnapshotMediaEntry) (at_ : Z) (old : SnapshotMediaEntry)
  : SnapshotMediaEntry :=
  if ID old =? ID se
  then mkSnapshotMediaEntry (ID old) (Type_ old) (MediaId old) (SnapshotItemId old)
         (Value se) (CreatedAt old) at_
  else old.

(** Modelled from the spec: the Snapshot Store operation
    [UpdateSnapshotMediaEntry(entry)]. *)
Definition UpdateSnapshotMediaEntryT (se : SnapshotMediaEntry) (d : state)
  : state * result SnapshotMediaEntry :=
  (mkState (snapshots d) (map (writeValue se (now d)) (entries d)) (now d + 1),
   OkR se).

(** Modelled from the spec: the Snapshot Store operation
    [DeleteSnapshot(snapshotId)], which deletes "the snapshot (and
    transitively its entries)". *)
Definition DeleteSnapshot (id : Z) (d : state) : state * goerror :=
  (mkState (filter (fun item => negb (ItemID item =? id)) (snapshots d))
     (filter (fun se => negb (SnapshotItemId se =? id)) (entries d))
     (now d),
   None).

#[export] Instance database : Database := {|
  db := state;
  db_GetLatestSnapshot := GetLatestSnapshot;
  db_GetSnapshotMediaEntry := GetSnapshotMediaEntry;
  db_GetSnapshotMediaEntries := GetSnapshotMediaEntries;
  db_UpdateSnapshotMediaEntryT := UpdateSnapshotMediaEntryT;
  db_DeleteSnapshot := DeleteSnapshot
|}.

End ListDb.

Section TraceReading.
Context {codec : EntryCodec} {database : Database}.

(** ** Reading a trace *)

Definition remoteArgs (t : list event) : list UpdateArgs :=
  flat_map (fun e => match e with EvUpdateMediaListEntry a _ => [a] | _ => [] end) t.

Definition remoteResults (t : list event) : list goerror :=
  flat_map (fun e => match e with EvUpdateMediaListEntry _ r => [r] | _ => [] end) t.

Definition isLockEvent (e : event) : bool :=
  match e with
  | EvLock | EvUnlock => true
  | _ => false
  end.

Definition isDbWrite (e : event) : bool :=
  match e with
  | EvDbUpdateSnapshotMediaEntryT _ | EvDbDeleteSnapshot _ => true
  | _ => false
  end.

Definition isDecode (e : event) : bool :=
  match e with
  | EvGetAnimeEntry _ | EvGetMangaEntry _ => true
  | _ => false
  end.

Definition isRemoteCall (e : event) : bool :=
  match e with
  | EvUpdateMediaListEntry _ _ => true
  | _ => false
  end.

(** A write of an entry row. *)
Definition isEntryWrite (e : event) : bool :=
  match e with
  | EvDbUpdateSnapshotMediaEntryT _ => true
  | _ => false
  end.

Definition isDbRead (e : event) : bool :=
  match e with
  | EvDbGetLatestSnapshot | EvDbGetSnapshotMediaEntry _ _ | EvDbGetSnapshotMediaEntries _ => true
  | _ => false
  end.

(** The events of the push loop: decodings and calls to the client. *)
Definition isLoopEvent (e : event) : bool := isDecode e || isRemoteCall e.

(** ** The typed reading of a row, without its trace *)

(** [None]: the typed entry is nil, following it panics.  [Some None]: the
    [ListData] pointer is nil, or the type is neither anime nor manga. *)
Definition typedListData (se : SnapshotMediaEntry) : option (option ListData) :=
  if String.eqb (Type_ se) "anime" then option_map (@EntryListData _) (GetAnimeEntry se)
  else if String.eqb (Type_ se) "manga" then option_map (@EntryListData _) (GetMangaEntry se)
  else Some None.

Definition decodeTrace (se : SnapshotMediaEntry) : list event :=
  if String.eqb (Type_ se) "anime" then [EvGetAnimeEntry se]
  else if String.eqb (Type_ se) "manga" then [EvGetMangaEntry se]
  else [].

(** The list data the loop finds in a row, if any. *)
Definition rowListData (se : SnapshotMediaEntry) : option ListData :=
  match typedListData se with
  | Some (Some l) => Some l
  | _ => None
  end.

Definition hasTypedEntry (se : SnapshotMediaEntry) : Prop := typedListData se <> None.

(** One call per row that carries list data. *)
Definition pushesOf (ses : list SnapshotMediaEntry) : list UpdateArgs :=
  flat_map (fun se => match rowListData se with
                      | Some l => [pushArgs se l]
                      | None => []
                      end) ses.

(** A row is pushed in a trace when a call to the client carries its
    media id. *)
Definition pushedIn (t : list event) (se : SnapshotMediaEntry) : Prop :=
  exists args, In args (remoteArgs t) /\ argMediaId args = MediaId se.

Definition sentEvents (t : list event) : list WSEvent :=
  flat_map (fun e => match e with EvSendEvent w => [w] | _ => [] end) t.

Definition traceOf {R} (run : list event * Hub * outcome R) : list event := fst (fst run).
Definition hubOf {R} (run : list event * Hub * outcome R) : Hub := snd (fst run).
Definition outcomeOf {R} (run : list event * Hub * outcome R) : outcome R := snd run.

(** The date sent for a timestamp [tm]. *)
Definition dateOf (tm : Time) : FuzzyDateInput :=
  mkFuzzyDateInput (Some (Year tm)) (Some (Month tm)) (Some (Day tm)).

(** The latest snapshot row, when the query gives one. *)
Definition latestItem (d : db) : option SnapshotItem :=
  match db_GetLatestSnapshot d with
  | OkR (Some item) => Some item
  | _ => None
  end.

(** Modelled from the spec: what [Hub.GetLatestSnapshot(true)] returns,
    as a function of the database (see [GetLatestSnapshot]). *)
Definition latestSnapshotOf (d : db) : result Snapshot :=
  match db_GetLatestSnapshot d with
  | ErrR e => ErrR e
  | OkR None => ErrR (ErrNew "snapshot not found")
  | OkR (Some item) =>
      match db_GetSnapshotMediaEntries (ItemID item) d with
      | ErrR e => ErrR e
      | OkR rows => OkR (mkSnapshot (ItemID item) rows)
      end
  end.

(** The reads [GetLatestSnapshot] makes. *)
Definition latestTrace (d : db) : list event :=
  EvDbGetLatestSnapshot
  :: match db_GetLatestSnapshot d with
     | OkR (Some item) => [EvDbGetSnapshotMediaEntries (ItemID item)]
     | _ => []
     end.

(** The snapshot an update operation works on: the cached one, or else the
    latest of the database. *)
Definition workingSnapshot (h : Hub) : result Snapshot :=
  match currentSnapshot h with
  | Some s => OkR s
  | None => latestSnapshotOf (offlineDb h)
  end.

(** The cache, when there is one, is the latest snapshot of the database. *)
Definition cacheCoherent (h : Hub) : Prop :=
  match currentSnapshot h with
  | None => True
  | Some s => exists item, latestItem (offlineDb h) = Some item /\ DbId s = ItemID item
  end.

(** [new] is [old] with the value [v]; the update time may differ. *)
Definition valueWritten (v : Bytes) (old new : SnapshotMediaEntry) : Prop :=
  ID new = ID old /\ Type_ new = Type_ old /\ MediaId new = MediaId old
  /\ SnapshotItemId new = SnapshotItemId old /\ CreatedAt new = CreatedAt old
  /\ Value new = v.

(** List data [l'] is [l] with the given progress and status. *)
Definition statusUpdated (progress : Z) (status : MediaListStatus) (l l' : ListData) : Prop :=
  Progress l' = progress /\ Status l' = status
  /\ Score l' = Score l /\ StartedAt l' = StartedAt l /\ CompletedAt l' = CompletedAt l.

(** The row [new] decodes to [entry] with list data [l] changed to the
    given progress and status, and nothing else. *)
Definition holdsUpdate {Rest} (decode : SnapshotMediaEntry -> option (Entry Rest))
    (entry : Entry Rest) (l : ListData) (progress : Z) (status : MediaListStatus)
    (new : SnapshotMediaEntry) : Prop :=
  exists l',
    decode new = Some (mkEntry (Some l') (EntryRest entry))
    /\ statusUpdated progress status l l'.

(** What a successful status update of [mediaId] leaves in [h'], started
    from [h]; [decode] is the typed reading of the operation.  [se] is the
    row found for [mediaId] before the call, [rows] the rows of the
    snapshot before the call. *)
Definition statusFrame {Rest} (decode : SnapshotMediaEntry -> option (Entry Rest))
    (h : Hub) (mediaId progress : Z) (status : MediaListStatus) (h' : Hub) : Prop :=
  exists snap' se entry l rows,
    GetCurrentSnapshot h' = ([EvLock; EvUnlock], h', Returned (Some snap', true))
    /\ latestSnapshotOf (offlineDb h') = OkR snap'
    /\ db_GetSnapshotMediaEntry mediaId (DbId snap') (offlineDb h) = OkR se
    /\ MediaId se = mediaId
    /\ decode se = Some entry
    /\ EntryListData entry = Some l
    /\ db_GetSnapshotMediaEntries (DbId snap') (offlineDb h) = OkR rows
    /\ In se rows
    /\ Forall2
         (fun old new =>
            if ID old =? ID se
            then (exists v, valueWritten v old new)
                 /\ holdsUpdate decode entry l progress status new
            else new = old)
         rows (Entries snap')
    /\ exists new,
         In new (Entries snap') /\ ID new = ID se /\ MediaId new = mediaId
         /\ holdsUpdate decode entry l progress status new.

(** Every event of a statement satisfies [P], whatever the hub. *)
Definition traceAll {R A} (P : event -> Prop) (m : M R A) : Prop :=
  forall h, Forall P (fst (fst (m h))).

(** A statement that does not panic, whatever the hub. *)
Definition neverPanics {R A} (m : M R A) : Prop :=
  forall h, snd (m h) <> Panic.

(** A trace that opens with the lock, closes with its release, and has no
    other lock operation. *)
Definition holdsLock (t : list event) : Prop :=
  exists body,
    t = EvLock :: body ++ [EvUnlock]
    /\ Forall (fun e => isLockEvent e = false) body.

(** The pass gets past its precondition checks: the hub is online, the
    latest snapshot [item] is used and not synced, and its rows load. *)
Definition syncReady (h : Hub) (item : SnapshotItem) (rows : list SnapshotMediaEntry) : Prop :=
  isOffline h = false
  /\ db_GetLatestSnapshot (offlineDb h) = OkR (Some item)
  /\ Synced item = false
  /\ Used item = true
  /\ db_GetSnapshotMediaEntries (ItemID item) (offlineDb h) = OkR rows.

(** The two reads that open a pass. *)
Definition syncReads (item : SnapshotItem) : list event :=
  [EvDbGetLatestSnapshot; EvDbGetSnapshotMediaEntries (ItemID item)].

(** The four effects that close a successful pass. *)
Definition syncCommit (item : SnapshotItem) : list event :=
  [EvDbDeleteSnapshot (ItemID item);
   EvRefreshAnilistCollections;
   EvSendEvent RefreshedAnilistCollection;
   EvSendEvent RefreshedAnilistMangaCollection].

End TraceReading.

(** ** Sample hubs

    A snapshot with one edited anime entry (media 100) and one untouched
    manga entry (media 200), as in the scenarios of the specification. *)
Module Scenario.
Import ListDb.

Definition listData100 : ListData :=
  mkListData 3 "CURRENT" 7 "2022-05-01T00:00:00Z" EmptyString.

Definition listData200 : ListData :=
  mkListData 12 "PAUSED" 9 EmptyString EmptyString.

Definition row100 : SnapshotMediaEntry :=
  mkSnapshotMediaEntry 1 "anime" 100 1 (PAnime (mkEntry (Some listData100) "media-100")) 10 20.

Definition row200 : SnapshotMediaEntry :=
  mkSnapshotMediaEntry 2 "manga" 200 1 (PManga (mkEntry (Some listData200) "media-200")) 10 10.

(** A second edited entry. *)
Definition row300 : SnapshotMediaEntry :=
  mkSnapshotMediaEntry 3 "manga" 300 1 (PManga (mkEntry (Some listData200) "media-300")) 10 30.

(** An edited anime entry whose payload carries no list data. *)
Definition row400 : SnapshotMediaEntry :=
  mkSnapshotMediaEntry 4 "anime" 400 1 (PAnime (mkEntry None "media-400")) 10 25.

Definition item1 : SnapshotItem := mkSnapshotItem 1 true false.

Definition store : state := mkState [item1] [row100; row200] 40.

Definition storeTwoEdits : state := mkState [item1] [row100; row200; row300] 40.

Definition storeNoListData : state := mkState [item1] [row400] 40.

Definition clientOk : ClientWrapper := fun _ _ => None.

Definition clientDown : ClientWrapper := fun _ _ => Some (ErrClient "network unreachable").

(** Only the first call of a pass fails. *)
Definition clientFirstFails : ClientWrapper :=
  fun n _ => match n with
             | O => Some (ErrClient "rate limited")
             | S _ => None
             end.

Definition onlineHub (client : ClientWrapper) (d : state) : Hub := mkHub client d false None.

Definition hubOffline : Hub := mkHub clientOk store true None.

Definition hubNoSnapshot : Hub := onlineHub clientOk (mkState [] [] 40).

Definition hubSynced : Hub :=
  onlineHub clientOk (mkState [mkSnapshotItem 1 false true] [row100; row200] 40).

Definition hubUnused : Hub :=
  onlineHub clientOk (mkState [mkSnapshotItem 1 false false] [row100; row200] 40).

End Scenario.

(** ** The update operations, step by step

    The three update operations share one course: load the snapshot when
    the cache is empty, look the row up, decode it, assign the fields,
    write the row, reload the cache.  [updateRun] is that course written
    out, with every way it can end; the operations are shown equal to it. *)
Section UpdateRuns.
Context {codec : EntryCodec} {database : Database}.

(** [if p != nil { entry.ListData.F = *p }] without its trace: [None] is
    the panic of a nil [ListData]. *)
Definition assignFieldPure {A Rest} (p : option A) (set : A -> ListData -> ListData)
    (entry : Entry Rest) : option (Entry Rest) :=
  match p with
  | None => Some entry
  | Some v =>
      match EntryListData entry with
      | Some l => Some (set_EntryListData (set v l) entry)
      | None => None
      end
  end.

Definition assignFieldsPure {Rest} (status : option MediaListStatus) (score progress : option Z)
    (startDate endDate : option string) (entry : Entry Rest) : option (Entry Rest) :=
  match assignFieldPure progress set_Progress entry with
  | None => None
  | Some entry =>
  match assignFieldPure status set_Status entry with
  | None => None
  | Some entry =>
  match assignFieldPure score set_Score entry with
  | None => None
  | Some entry =>
  match assignFieldPure startDate set_StartedAt entry with
  | None => None
  | Some entry => assignFieldPure endDate set_CompletedAt entry
  end end end end.

(** The two assignments of the status operations. *)
Definition assignStatusPure {Rest} (progress : Z) (status : MediaListStatus)
    (entry : Entry Rest) : option (Entry Rest) :=
  match EntryListData entry with
  | Some l => Some (set_EntryListData (set_Status status (set_Progress progress l)) entry)
  | None => None
  end.

(** The fields given, applied to list data; a nil argument leaves its
    field as it is. *)
Definition applyField {A} (p : option A) (set : A -> ListData -> ListData) (l : ListData)
  : ListData :=
  match p with
  | None => l
  | Some v => set v l
  end.

Definition applyFields (status : option MediaListStatus) (score progress : option Z)
    (startDate endDate : option string) (l : ListData) : ListData :=
  applyField endDate set_CompletedAt
    (applyField startDate set_StartedAt
       (applyField score set_Score
          (applyField status set_Status
             (applyField progress set_Progress l)))).

(** The hub after the load of [loadCurrentSnapshot], and the reads made. *)
Definition loadedHub (h : Hub) (snap : Snapshot) : Hub :=
  match currentSnapshot h with
  | Some _ => h
  | None => set_currentSnapshot (Some snap) h
  end.

Definition loadTrace (h : Hub) : list event :=
  match currentSnapshot h with
  | Some _ => []
  | None => latestTrace (offlineDb h)
  end.

Definition updateRun {Rest} (decodeEvent : SnapshotMediaEntry -> event)
    (decode : SnapshotMediaEntry -> option (Entry Rest))
    (marshal : Entry Rest -> Bytes) (notFound : string)
    (assign : Entry Rest -> option (Entry Rest))
    (mediaId : Z) (h : Hub) : list event * Hub * outcome goerror :=
  match workingSnapshot h with
  | ErrR _ =>
      (EvLock :: latestTrace (offlineDb h) ++ [EvUnlock], h,
       Returned (Some (ErrNew "snapshot not found")))
  | OkR snap =>
      let h1 := loadedHub h snap in
      let lookup := loadTrace h ++ [EvDbGetSnapshotMediaEntry mediaId (DbId snap)] in
      match db_GetSnapshotMediaEntry mediaId (DbId snap) (offlineDb h) with
      | ErrR e => (EvLock :: lookup ++ [EvUnlock], h1, Returned (Some e))
      | OkR se =>
          match decode se with
          | None =>
              (EvLock :: (lookup ++ [decodeEvent se]) ++ [EvUnlock], h1,
               Returned (Some (ErrNew notFound)))
          | Some entry =>
              match assign entry with
              | None => (EvLock :: (lookup ++ [decodeEvent se]) ++ [EvUnlock], h1, Panicked)
              | Some entry' =>
                  let row := set_Value (marshal entry') se in
                  let write := lookup ++ [decodeEvent se; EvDbUpdateSnapshotMediaEntryT row] in
                  let '(d', r) := db_UpdateSnapshotMediaEntryT row (offlineDb h) in
                  let h2 := set_offlineDb d' h1 in
                  match r with
                  | ErrR e => (EvLock :: write ++ [EvUnlock], h2, Returned (Some e))
                  | OkR _ =>
                      match latestSnapshotOf d' with
                      | ErrR e =>
                          (EvLock :: (write ++ latestTrace d') ++ [EvUnlock], h2,
                           Returned (Some e))
                      | OkR s' =>
                          (EvLock :: (write ++ latestTrace d') ++ [EvUnlock],
                           set_currentSnapshot (Some s') h2, Returned None)
                      end
                  end
              end
          end
      end
  end.

(** What an update operation may do to the outside: take and release the
    lock, read the database, decode, write an entry row. *)
Definition isUpdateEvent (e : event) : bool :=
  isLockEvent e || isDbRead e || isDecode e || isEntryWrite e.

(** An update wrote nothing, or wrote once: the row found for [mediaId] in
    the working snapshot, with another value, and the database is the one
    that write left. *)
Definition localWrite (h : Hub) (mediaId : Z) (run : list event * Hub * outcome goerror)
  : Prop :=
  (filter isEntryWrite (traceOf run) = [] /\ offlineDb (hubOf run) = offlineDb h)
  \/ exists snap se v,
       workingSnapshot h = OkR snap
       /\ db_GetSnapshotMediaEntry mediaId (DbId snap) (offlineDb h) = OkR se
       /\ filter isEntryWrite (traceOf run) = [EvDbUpdateSnapshotMediaEntryT (set_Value v se)]
       /\ offlineDb (hubOf run)
          = fst (db_UpdateSnapshotMediaEntryT (set_Value v se) (offlineDb h)).

(** How an update ends when it cannot reach its write: no snapshot, no
    row, or a row that does not decode. *)
Definition failsBeforeWrite {Rest} (decode : SnapshotMediaEntry -> option (Entry Rest))
    (notFound : string) (h : Hub) (mediaId : Z)
    (run : list event * Hub * outcome goerror) : Prop :=
  (forall e, workingSnapshot h = ErrR e ->
     outcomeOf run = Returned (Some (ErrNew "snapshot not found"))
     /\ hubOf run = h
     /\ filter isEntryWrite (traceOf run) = [])
  /\ (forall snap e,
      workingSnapshot h = OkR snap ->
      db_GetSnapshotMediaEntry mediaId (DbId snap) (offlineDb h) = ErrR e ->
      outcomeOf run = Returned (Some e)
      /\ hubOf run = loadedHub h snap
      /\ filter isEntryWrite (traceOf run) = [])
  /\ (forall snap se,
      workingSnapshot h = OkR snap ->
      db_GetSnapshotMediaEntry mediaId (DbId snap) (offlineDb h) = OkR se ->
      decode se = None ->
      outcomeOf run = Returned (Some (ErrNew notFound))
      /\ hubOf run = loadedHub h snap
      /\ filter isEntryWrite (traceOf run) = []).

(** The entry with its list data, if any, changed by [f]. *)
Definition changeListData {Rest} (f : ListData -> ListData) (entry : Entry Rest) : Entry Rest :=
  mkEntry (option_map f (EntryListData entry)) (EntryRest entry).

(** What a successful write of the row of [mediaId] leaves in [h'], started
    from [h]: the cache is the latest snapshot; its rows are those of
    before, except the rows with the key of the row found, whose value now
    decodes to [change] of the entry that was stored. *)
Definition rowFrame {Rest} (decode : SnapshotMediaEntry -> option (Entry Rest))
    (h : Hub) (mediaId : Z) (change : Entry Rest -> Entry Rest) (h' : Hub) : Prop :=
  exists snap' se entry rows,
    GetCurrentSnapshot h' = ([EvLock; EvUnlock], h', Returned (Some snap', true))
    /\ latestSnapshotOf (offlineDb h') = OkR snap'
    /\ db_GetSnapshotMediaEntry mediaId (DbId snap') (offlineDb h) = OkR se
    /\ MediaId se = mediaId
    /\ decode se = Some entry
    /\ db_GetSnapshotMediaEntries (DbId snap') (offlineDb h) = OkR rows
    /\ In se rows
    /\ Forall2
         (fun old new =>
            if ID old =? ID se
            then (exists v, valueWritten v old new) /\ decode new = Some (change entry)
            else new = old)
         rows (Entries snap')
    /\ exists new,
         In new (Entries snap') /\ ID new = ID se /\ MediaId new = mediaId
         /\ decode new = Some (change entry).

(** How an update ends when its write, or the reload after it, fails: the
    error is returned, the database is the one the write left, and the
    cache is still the snapshot the operation worked on. *)
Definition failsAtWrite {Rest} (decode : SnapshotMediaEntry -> option (Entry Rest))
    (marshal : Entry Rest -> Bytes) (assign : Entry Rest -> option (Entry Rest))
    (h : Hub) (mediaId : Z) (run : list event * Hub * outcome goerror) : Prop :=
  forall snap se entry entry' d' r,
    workingSnapshot h = OkR snap ->
    db_GetSnapshotMediaEntry mediaId (DbId snap) (offlineDb h) = OkR se ->
    decode se = Some entry ->
    assign entry = Some entry' ->
    db_UpdateSnapshotMediaEntryT (set_Value (marshal entry') se) (offlineDb h) = (d', r) ->
    (forall e, r = ErrR e \/ latestSnapshotOf d' = ErrR e ->
       hubOf run = set_offlineDb d' (loadedHub h snap)
       /\ currentSnapshot (hubOf run) = Some snap)
    /\ (forall e, r = ErrR e -> outcomeOf run = Returned (Some e))
    /\ (forall row e, r = OkR row -> latestSnapshotOf d' = ErrR e ->
          outcomeOf run = Returned (Some e)).

(** The hub with another client and another mode, and what it means for a
    run on it to be the run on [h]. *)
Definition withMode (client : ClientWrapper) (offline : bool) (h : Hub) : Hub :=
  mkHub client (offlineDb h) offline (currentSnapshot h).

Definition sameLocalRun {R} (client : ClientWrapper) (offline : bool)
    (run run' : list event * Hub * outcome R) : Prop :=
  traceOf run' = traceOf run
  /\ outcomeOf run' = outcomeOf run
  /\ hubOf run' = withMode client offline (hubOf run).

(** No field is given. *)
Definition noField (status : option MediaListStatus) (score progress : option Z)
    (startDate endDate : option string) : Prop :=
  status = None /\ score = None /\ progress = None /\ startDate = None /\ endDate = None.

End UpdateRuns.

(** ** A database that fails

    The list database behind a connection that can refuse a write, or be
    lost by a write: once it is down every read fails.  It is used to run
    the operations through their error paths. *)
Module FaultyDb.

Record state : Type := mkFaulty {
  inner : ListDb.state;
  writeFails : bool;
  downAfterWrite : bool;
  down : bool
}.

Definition read {A} (d : state) (r : result A) : result A :=
  if down d then ErrR (ErrDb "connection lost") else r.

Definition UpdateSnapshotMediaEntryT (se : SnapshotMediaEntry) (d : state)
  : state * result SnapshotMediaEntry :=
  if writeFails d then (d, ErrR (ErrDb "disk full"))
  else
    let '(i, r) := ListDb.UpdateSnapshotMediaEntryT se (inner d) in
    (mkFaulty i (writeFails d) (downAfterWrite d) (downAfterWrite d), r).

Definition DeleteSnapshot (id : Z) (d : state) : state * goerror :=
  let '(i, r) := ListDb.DeleteSnapshot id (inner d) in
  (mkFaulty i (writeFails d) (downAfterWrite d) (down d), r).

Definition database : @Database ListDb.codec := {|
  db := state;
  db_GetLatestSnapshot := fun d => read d (ListDb.GetLatestSnapshot (inner d));
  db_GetSnapshotMediaEntry := fun mediaId snapshotId d =>
    read d (ListDb.GetSnapshotMediaEntry mediaId snapshotId (inner d));
  db_GetSnapshotMediaEntries := fun snapshotId d =>
    read d (ListDb.GetSnapshotMediaEntries snapshotId (inner d));
  db_UpdateSnapshotMediaEntryT := UpdateSnapshotMediaEntryT;
  db_DeleteSnapshot := DeleteSnapshot
|}.

(** The sample store behind a connection that a write brings down, behind
    one that refuses writes, and behind one that is down. *)
Definition hubLosingConnection : @Hub ListDb.codec database :=
  @mkHub ListDb.codec database Scenario.clientOk
    (mkFaulty Scenario.store false true false) false None.

Definition hubRefusingWrites : @Hub ListDb.codec database :=
  @mkHub ListDb.codec database Scenario.clientOk
    (mkFaulty Scenario.store true false false) false None.

Definition hubRowsUnreadable : @Hub ListDb.codec database :=
  @mkHub ListDb.codec database Scenario.clientOk
    (mkFaulty Scenario.store false false true) false None.

End FaultyDb.

(** ** The results of a pass *)

(** The results the client gives to the calls of a pass, the first of
    which is call number [n]. *)
Fixpoint clientResults (client : ClientWrapper) (n : nat) (args : list UpdateArgs)
  : list goerror :=
  match args with
  | [] => []
  | a :: rest => client n a :: clientResults client (S n) rest
  end.

(** More sample hubs: an edited anime row whose payload does not decode,
    between two edited rows that do; a client whose second call fails. *)
Module Damaged.
Import ListDb.

Definition row500 : SnapshotMediaEntry :=
  mkSnapshotMediaEntry 5 "anime" 500 1 PGarbage 10 35.

Definition store : state :=
  mkState [Scenario.item1] [Scenario.row100; row500; Scenario.row300] 40.

Definition clientSecondFails : ClientWrapper :=
  fun n _ => match n with
             | 1%nat => Some (ErrClient "rate limited")
             | _ => None
             end.

End Damaged.

(** * Torrent search (package [animetosho], file search.go)

    The queries sent to the JSON feed and the reading of its answer.  The
    functions of Go's library that the file calls -- [strings.TrimSuffix],
    [strings.ReplaceAll], [url.QueryEscape], [fmt.Sprintf] with its verbs
    written out -- are given on byte strings, as Go's strings are; the
    network and the JSON decoder are an interface. *)

From Stdlib Require Import DecimalString DecimalZ.

Module animetosho.

Definition SearchUrl : string := "https://animetosho.org/search".
Definition FeedUrl : string := "https://feed.animetosho.org/rss2".
Definition JsonFeedUrl : string := "https://feed.animetosho.org/json".

(** ** Go's library *)

(** [strings.HasSuffix]:
    [len(s) >= len(suffix) && s[len(s)-len(suffix):] == suffix]. *)
Definition HasSuffix (s suffix : string) : bool :=
  (String.length suffix <=? String.length s)%nat
  && String.eqb (substring (String.length s - String.length suffix)
                   (String.length suffix) s) suffix.

(** [strings.TrimSuffix]: [s] without the suffix when it ends with it,
    else [s]. *)
Definition TrimSuffix (s suffix : string) : string :=
  if HasSuffix s suffix
  then substring 0 (String.length s - String.length suffix) s
  else s.

(** [strings.ReplaceAll s old new] for a non-empty [old]: the
    non-overlapping occurrences of [old], found from the left, are replaced
    by [new].  [skip] counts the bytes of a matched occurrence still to be
    passed over. *)
Fixpoint replaceFrom (old new : string) (skip : nat) (s : string) : string :=
  match s with
  | EmptyString => EmptyString
  | String c rest =>
      match skip with
      | S k => replaceFrom old new k rest
      | O =>
          if String.prefix old s
          then new ++ replaceFrom old new (String.length old - 1) rest
          else String c (replaceFrom old new 0 rest)
      end
  end.

(** With an empty [old], Go puts [new] at the start of [s] and after each
    of its UTF-8 sequences; on ASCII text that is after each byte, which is
    what is written here.  No call of this file has an empty [old]. *)
Fixpoint insertAfterEach (new : string) (s : string) : string :=
  match s with
  | EmptyString => EmptyString
  | String c rest => String c (new ++ insertAfterEach new rest)
  end.

Definition ReplaceAll (s old new : string) : string :=
  match old with
  | EmptyString => new ++ insertAfterEach new s
  | _ => replaceFrom old new 0 s
  end.

(** The bytes [url.QueryEscape] leaves as they are: letters, digits and
    the marks [-], [_], [.], [~]. *)
Definition isUnreserved (c : ascii) : bool :=
  let n := nat_of_ascii c in
  ((97 <=? n) && (n <=? 122) || (65 <=? n) && (n <=? 90) || (48 <=? n) && (n <=? 57)
   || (n =? 45) || (n =? 95) || (n =? 46) || (n =? 126))%nat.

Definition shouldEscape (c : ascii) : bool := negb (isUnreserved c).

Definition upperhex : string := "0123456789ABCDEF".

Definition hexDigit (n : nat) : ascii :=
  match String.get n upperhex with
  | Some c => c
  | None => "0"%char
  end.

(** One byte of [url.QueryEscape]: a space becomes [+], a byte to escape
    becomes [%] and its two upper-case hexadecimal digits. *)
Definition escapeByte (c : ascii) : string :=
  if Ascii.eqb c " "%char then "+"
  else if shouldEscape c
       then String "%"%char
              (String (hexDigit (nat_of_ascii c / 16))
                 (String (hexDigit (nat_of_ascii c mod 16)) EmptyString))
       else String c EmptyString.

Fixpoint QueryEscape (s : string) : string :=
  match s with
  | EmptyString => EmptyString
  | String c rest => escapeByte c ++ QueryEscape rest
  end.

(** The verb [%d] of [fmt.Sprintf] on an [int]. *)
Definition formatInt (n : Z) : string := NilZero.string_of_int (Z.to_int n).

(** The double quote, and a string between double quotes. *)
Definition dquote : string := String (ascii_of_nat 34) EmptyString.

Definition quoted (s : string) : string := dquote ++ s ++ dquote.

(** ** The torrents of a feed *)

(** [Torrent] is declared in another file of the package.  This file reads
    and writes two integer fields of it; [TorrentRest] stands for the
    others, which it never touches. *)
Record Torrent (Rest : Type) : Type := mkTorrent {
  Seeders : Z;
  Leechers : Z;
  TorrentRest : Rest
}.
Arguments mkTorrent {Rest} _ _ _.
Arguments Seeders {Rest} _.
Arguments Leechers {Rest} _.
Arguments TorrentRest {Rest} _.

Definition set_Seeders {Rest} (v : Z) (t : Torrent Rest) : Torrent Rest :=
  mkTorrent v (Leechers t) (TorrentRest t).

Definition set_Leechers {Rest} (v : Z) (t : Torrent Rest) : Torrent Rest :=
  mkTorrent (Seeders t) v (TorrentRest t).

(** [*http.Response], as far as the file reads it. *)
Record Response (Body : Type) : Type := mkResponse {
  StatusCode : Z;
  Status : string;
  RespBody : Body
}.
Arguments mkResponse {Body} _ _ _.
Arguments StatusCode {Body} _.
Arguments Status {Body} _.
Arguments RespBody {Body} _.

Definition StatusOK : Z := 200.

(** The collaborators of [fetchTorrents]: [http.Get], [io.ReadAll] on the
    body of the response and [json.Unmarshal] into a [[]*Torrent], whose
    elements are pointers and may be nil. *)
Class Web : Type := {
  Body : Type;
  Payload : Type;
  Rest : Type;
  http_Get : string -> result (Response Body);
  io_ReadAll : Body -> result Payload;
  json_Unmarshal : Payload -> result (list (option (Torrent Rest)))
}.

(** What a call does to the outside, in order. *)
Inductive netevent : Type :=
| EvPrintln (line : string)
| EvHttpGet (url : string)
| EvReadAll
| EvBodyClose.

Section Search.
Context {web : Web}.

(** The body of the loop of [fetchTorrents] on one torrent. *)
Definition clamp (t : Torrent Rest) : Torrent Rest :=
  let t := if Seeders t >? 30000 then set_Seeders 0 t else t in
  if Leechers t >? 30000 then set_Leechers 0 t else t.

(** The loop: [None] is the panic of [t.Seeders] on a nil element. *)
Fixpoint clampAll (ret : list (option (Torrent Rest)))
  : option (list (option (Torrent Rest))) :=
  match ret with
  | [] => Some []
  | None :: _ => None
  | Some t :: rest =>
      match clampAll rest with
      | Some rest' => Some (Some (clamp t) :: rest')
      | None => None
      end
  end.

(** [defer resp.Body.Close()] closes the body when the function returns
    and when it panics. *)
Definition fetchTorrents (query : string)
  : list netevent * outcome (result (list (option (Torrent Rest)))) :=
  let furl := (JsonFeedUrl ++ query)%string in
  match http_Get furl with
  | ErrR err => ([EvPrintln furl; EvHttpGet furl], Returned (ErrR err))
  | OkR resp =>
      if negb (StatusCode resp =? StatusOK)
      then ([EvPrintln furl; EvHttpGet furl; EvBodyClose],
            Returned (ErrR (ErrNew ("failed to fetch torrents, " ++ Status resp))))
      else
        match io_ReadAll (RespBody resp) with
        | ErrR err =>
            ([EvPrintln furl; EvHttpGet furl; EvReadAll; EvBodyClose], Returned (ErrR err))
        | OkR b =>
            match json_Unmarshal b with
            | ErrR err =>
                ([EvPrintln furl; EvHttpGet furl; EvReadAll; EvBodyClose],
                 Returned (ErrR err))
            | OkR ret =>
                match clampAll ret with
                | None =>
                    ([EvPrintln furl; EvHttpGet furl; EvReadAll; EvBodyClose], Panicked)
                | Some ret' =>
                    ([EvPrintln furl; EvHttpGet furl; EvReadAll; EvBodyClose],
                     Returned (OkR ret'))
                end
            end
        end
  end.

(** [sanitizeTitle] removes characters that impact the search query. *)
Definition sanitizeTitle (t : string) : string :=
  ReplaceAll (ReplaceAll (ReplaceAll (ReplaceAll t "!" EmptyString) ":" EmptyString)
                "[" EmptyString) "]" EmptyString.

Definition GetLatest : list netevent * outcome (result (list (option (Torrent Rest)))) :=
  let query := "?qx=1&q=&filter[0][t]=nyaa_class&order=" in
  fetchTorrents query.

Definition Search (show : string)
  : list netevent * outcome (result (list (option (Torrent Rest)))) :=
  let query := ("?qx=1&q=" ++ QueryEscape (sanitizeTitle show)
                ++ "&filter[0][t]=nyaa_class&order=")%string in
  fetchTorrents query.

(** [formatCommonQuery] adds special query filters. *)
Definition formatCommonQuery (quality : string) : string :=
  let quality := TrimSuffix quality "p" in
  if String.eqb quality "1080"
  then "((e*|a*|r*|i*|o*|" ++ quoted "1080" ++ ") !" ++ quoted "720" ++ " !"
       ++ quoted "540" ++ " !" ++ quoted "480" ++ ")"
  else if String.eqb quality "720"
  then "((e*|a*|r*|i*|o*|" ++ quoted "720" ++ ") !" ++ quoted "1080" ++ " !"
       ++ quoted "540" ++ " !" ++ quoted "480" ++ ")"
  else if String.eqb quality "540"
  then "((e*|a*|r*|i*|o*|" ++ quoted "540" ++ ") !" ++ quoted "1080" ++ " !"
       ++ quoted "720" ++ " !" ++ quoted "480" ++ ")"
  else if String.eqb quality "480"
  then "((e*|a*|r*|i*|o*|" ++ quoted "480" ++ ") !" ++ quoted "1080" ++ " !"
       ++ quoted "720" ++ " !" ++ quoted "540" ++ ")"
  else "(e*|a*|r*|i*|o*)".

Definition SearchByAID (aid : Z) (quality : string)
  : list netevent * outcome (result (list (option (Torrent Rest)))) :=
  let q := QueryEscape (formatCommonQuery quality) in
  let query := ("?qx=1&order=size-d&aid=" ++ formatInt aid ++ "&q=" ++ q)%string in
  fetchTorrents query.

Definition SearchByAIDLikelyBatch (aid : Z) (quality : string)
  : list netevent * outcome (result (list (option (Torrent Rest)))) :=
  let q := QueryEscape (formatCommonQuery quality) in
  let query := ("?qx=1&order=size-d&aid=" ++ formatInt aid ++ "&q=" ++ q)%string in
  fetchTorrents query.

Definition SearchByEID (eid : Z) (quality : string)
  : list netevent * outcome (result (list (option (Torrent Rest)))) :=
  let q := QueryEscape (formatCommonQuery quality) in
  let query := ("?qx=1&eid=" ++ formatInt eid ++ "&q=" ++ q)%string in
  fetchTorrents query.

(** ** Reading a run *)

(** The URLs requested. *)
Definition requests (t : list netevent) : list string :=
  flat_map (fun e => match e with EvHttpGet u => [u] | _ => [] end) t.

Definition requestsOf {A} (run : list netevent * A) : list string := requests (fst run).

(** The bytes of a string. *)
Fixpoint bytesOf (s : string) : list ascii :=
  match s with
  | EmptyString => []
  | String c rest => c :: bytesOf rest
  end.

Fixpoint filterString (keep : ascii -> bool) (s : string) : string :=
  match s with
  | EmptyString => EmptyString
  | String c rest =>
      if keep c then String c (filterString keep rest) else filterString keep rest
  end.

(** The four characters [sanitizeTitle] is written to remove. *)
Definition impactsQuery (c : ascii) : bool :=
  Ascii.eqb c "!" || Ascii.eqb c ":" || Ascii.eqb c "[" || Ascii.eqb c "]".

(** A byte that [url.QueryEscape] can produce. *)
Definition isEscaped (c : ascii) : bool :=
  isUnreserved c || Ascii.eqb c "+" || Ascii.eqb c "%".

(** Reads back one byte written by [escapeByte]. *)
Definition hexValue (c : ascii) : nat :=
  let n := nat_of_ascii c in
  (if n <? 58 then n - 48 else n - 55)%nat.

Definition unescapeByte (s : string) : option (ascii * string) :=
  match s with
  | EmptyString => None
  | String c rest =>
      if Ascii.eqb c "+" then Some (" "%char, rest)
      else if Ascii.eqb c "%" then
        match rest with
        | String h (String l rest') =>
            Some (ascii_of_nat (16 * hexValue h + hexValue l), rest')
        | _ => None
        end
      else Some (c, rest)
  end.

(** The qualities [formatCommonQuery] knows, and the filter that asks for
    one of them: the common terms or the quality, and none of the other
    qualities. *)
Definition qualities : list string := ["1080"; "720"; "540"; "480"].

Definition qualityFilter (q : string) : string :=
  "((e*|a*|r*|i*|o*|" ++ quoted q ++ ")"
  ++ String.concat EmptyString
       (map (fun o => " !" ++ quoted o)%string
          (filter (fun o => negb (String.eqb o q)) qualities))
  ++ ")".

(** The torrents are within the bounds of the feed. *)
Definition withinBounds (t : Torrent Rest) : Prop :=
  Seeders t <= 30000 /\ Leechers t <= 30000.

(** [t'] is [t] with each count above 30000 set to zero. *)
Definition clamped (t t' : Torrent Rest) : Prop :=
  Seeders t' = (if Seeders t >? 30000 then 0 else Seeders t)
  /\ Leechers t' = (if Leechers t >? 30000 then 0 else Leechers t)
  /\ TorrentRest t' = TorrentRest t.

End Search.

(** A feed to run the searches on: the answer to every request is the same
    response, whose body is the list of torrents itself. *)
Definition feed (status : Z) (text : string) (torrents : list (option (Torrent string)))
  : Web := {|
  Body := list (option (Torrent string));
  Payload := list (option (Torrent string));
  Rest := string;
  http_Get := fun _ => OkR (mkResponse status text torrents);
  io_ReadAll := fun b => OkR b;
  json_Unmarshal := fun b => OkR b
|}.

End animetosho.
(** * Properties *)

Lemma wrap_int_small z : - 2 ^ 63 <= z < 2 ^ 63 -> wrap_int z = z.
Proof.
  intros Hz. unfold wrap_int.
  rewrite Z.mod_small by lia. lia.
Qed.

Example parse_may_first :
  fuzzyDateOf "2022-05-01T00:00:00Z" = Some (mkFuzzyDateInput (Some 2022) (Some 5) (Some 1)).
Proof. reflexivity. Qed.

Example parse_offset :
  time_Parse "2024-02-29T23:59:59.25+09:00"
  = Some (mkTime 2024 2 29 23 59 59 250000000 32400).
Proof. reflexivity. Qed.

Example parse_rejects_bad_day : time_Parse "2023-02-29T00:00:00Z" = None.
Proof. reflexivity. Qed.

Example parse_rejects_date_only : time_Parse "2022-05-01" = None.
Proof. reflexivity. Qed.

(** Where the strict reading fails and the layout parser reads the value. *)
Example parse_short_hour :
  parseRFC3339 "2022-05-01T1:02:03Z" = None
  /\ time_Parse "2022-05-01T1:02:03Z" = Some (mkTime 2022 5 1 1 2 3 0 0).
Proof. split; reflexivity. Qed.

(** ** Timestamps *)

(** *** Digits *)

Lemma isDigit_inv c :
  isDigit c = true -> 0 <= digitVal c <= 9 /\ c = digitChar (digitVal c).
Proof.
  destruct c as [[] [] [] [] [] [] [] []]; intros H; vm_compute in H;
    try discriminate H; (split; [split; discriminate|reflexivity]).
Qed.

Lemma digitChar_ok n :
  0 <= n <= 9 -> isDigit (digitChar n) = true /\ digitVal (digitChar n) = n.
Proof.
  intros Hn. rewrite <- (Z2Nat.id n) by lia.
  assert (Hk : (Z.to_nat n < 10)%nat) by lia.
  set (k := Z.to_nat n) in *. clearbody k. clear Hn.
  do 10 (destruct k as [|k]; [split; reflexivity|]). lia.
Qed.

Lemma digit_not_mark c :
  isDigit c = true ->
  Ascii.eqb c "-" = false /\ Ascii.eqb c "+" = false /\ Ascii.eqb c "Z" = false
  /\ commaOrPeriod c = false.
Proof.
  destruct c as [[] [] [] [] [] [] [] []]; intros H; vm_compute in H;
    try discriminate H; repeat split.
Qed.

Lemma twoDigits_digits a b :
  0 <= a <= 9 -> 0 <= b <= 9 ->
  twoDigits (a * 10 + b) = String (digitChar a) (String (digitChar b) EmptyString).
Proof.
  intros Ha Hb. unfold twoDigits.
  replace ((a * 10 + b) / 10) with a by (Z.div_mod_to_equations; lia).
  replace ((a * 10 + b) mod 10) with b by (Z.div_mod_to_equations; lia).
  reflexivity.
Qed.

Lemma twoDigits_chars n :
  0 <= n <= 99 ->
  exists a b, twoDigits n = String a (String b EmptyString)
              /\ isDigit a = true /\ isDigit b = true
              /\ digitVal a * 10 + digitVal b = n.
Proof.
  intros Hn. exists (digitChar (n / 10)), (digitChar (n mod 10)).
  assert (H1 : 0 <= n / 10 <= 9) by (Z.div_mod_to_equations; lia).
  assert (H2 : 0 <= n mod 10 <= 9) by (Z.div_mod_to_equations; lia).
  destruct (digitChar_ok H1) as [Ha Hva], (digitChar_ok H2) as [Hb Hvb].
  split; [reflexivity|]. split; [exact Ha|]. split; [exact Hb|].
  rewrite Hva, Hvb. Z.div_mod_to_equations; lia.
Qed.

(** *** The steps of the layout parser *)

Lemma getnum_fixed_inv v n v' :
  getnum v true = Some (n, v') -> v = (twoDigits n ++ v')%string /\ 0 <= n <= 99.
Proof.
  unfold getnum, isDigitAt.
  destruct v as [|c0 [|c1 r]]; cbn [String.get]; try discriminate.
  - destruct (isDigit c0); discriminate.
  - destruct (isDigit c0) eqn:H0; [|discriminate].
    destruct (isDigit c1) eqn:H1; [|discriminate].
    intros [= <- <-].
    destruct (isDigit_inv _ H0) as [B0 E0], (isDigit_inv _ H1) as [B1 E1].
    rewrite (twoDigits_digits B0 B1), <- E0, <- E1.
    split; [reflexivity|lia].
Qed.

Lemma getnum_inv v n v' :
  getnum v false = Some (n, v') ->
  exists short,
    v = (hourText short n ++ v')%string /\ 0 <= n <= 99 /\ (short = true -> n <= 9).
Proof.
  unfold getnum, isDigitAt.
  destruct v as [|c0 r]; [discriminate|].
  destruct (isDigit c0) eqn:H0; [|discriminate].
  destruct (isDigit_inv _ H0) as [B0 E0].
  destruct r as [|c1 r]; cbn [String.get].
  - intros [= <- <-]. exists true. cbn. rewrite <- E0. repeat split; lia.
  - destruct (isDigit c1) eqn:H1.
    + intros [= <- <-]. exists false.
      destruct (isDigit_inv _ H1) as [B1 E1]. unfold hourText.
      rewrite (twoDigits_digits B0 B1), <- E0, <- E1.
      split; [reflexivity|]. split; [lia|discriminate].
    + intros [= <- <-]. exists true. cbn. rewrite <- E0. repeat split; lia.
Qed.

Lemma getnum_twoDigits n r fixed :
  0 <= n <= 99 -> getnum (twoDigits n ++ r) fixed = Some (n, r).
Proof.
  intros Hn. destruct (twoDigits_chars Hn) as (a & b & -> & Ha & Hb & Hv).
  cbn. unfold isDigitAt. cbn. rewrite Ha, Hb, Hv. reflexivity.
Qed.

Lemma getnum_short n r :
  0 <= n <= 9 -> isDigitAt r 0 = false ->
  getnum (String (digitChar n) r) false = Some (n, r).
Proof.
  intros Hn Hr. destruct (digitChar_ok Hn) as [Hd Hv].
  cbn. rewrite Hd, Hr, Hv. reflexivity.
Qed.

Lemma skip_one_inv v c v' : skip v (String c EmptyString) = Some v' -> v = String c v'.
Proof.
  destruct v as [|a r]; cbn; [discriminate|].
  destruct (Ascii.eqb_spec a c) as [->|]; [|discriminate].
  now intros [= ->].
Qed.

Lemma year_inv value year :
  (String.length value <? 4)%nat || negb (isDigitAt value 0) = false ->
  atoi (takeS 4 value) = Some year ->
  value = (fourDigits year ++ dropS 4 value)%string /\ 0 <= year <= 9999.
Proof.
  intros Hlen. apply orb_false_iff in Hlen as [Hlen Hd].
  destruct value as [|c0 [|c1 [|c2 [|c3 r]]]]; try discriminate Hlen.
  unfold isDigitAt in Hd. cbn in Hd. apply negb_false_iff in Hd.
  destruct (digit_not_mark _ Hd) as (Hm & Hp & _).
  cbn [takeS dropS atoi]. rewrite Hm, Hp. cbn [parseDigits]. rewrite Hd.
  destruct (isDigit c1) eqn:H1; [|discriminate].
  destruct (isDigit c2) eqn:H2; [|discriminate].
  destruct (isDigit c3) eqn:H3; [|discriminate].
  intros [= <-].
  destruct (isDigit_inv _ Hd) as [B0 E0], (isDigit_inv _ H1) as [B1 E1],
           (isDigit_inv _ H2) as [B2 E2], (isDigit_inv _ H3) as [B3 E3].
  split; [|lia].
  unfold fourDigits.
  match goal with
  | |- context [twoDigits (?y / 100)] =>
      replace (y / 100) with (digitVal c0 * 10 + digitVal c1)
        by (Z.div_mod_to_equations; lia);
      replace (y mod 100) with (digitVal c2 * 10 + digitVal c3)
        by (Z.div_mod_to_equations; lia)
  end.
  rewrite (twoDigits_digits B0 B1), (twoDigits_digits B2 B3), <- E0, <- E1, <- E2, <- E3.
  reflexivity.
Qed.

Lemma year_fwd y r :
  0 <= y <= 9999 ->
  (String.length (fourDigits y ++ r) <? 4)%nat || negb (isDigitAt (fourDigits y ++ r) 0)
  = false
  /\ atoi (takeS 4 (fourDigits y ++ r)) = Some y
  /\ dropS 4 (fourDigits y ++ r) = r.
Proof.
  intros Hy. unfold fourDigits.
  assert (H1 : 0 <= y / 100 <= 99) by (Z.div_mod_to_equations; lia).
  assert (H2 : 0 <= y mod 100 <= 99) by (Z.div_mod_to_equations; lia).
  destruct (twoDigits_chars H1) as (a & b & -> & Ha & Hb & Hab).
  destruct (twoDigits_chars H2) as (c & d & -> & Hc & Hd & Hcd).
  destruct (digit_not_mark _ Ha) as (Hm & Hp & _).
  cbn. unfold isDigitAt. cbn. rewrite Ha, Hm, Hp, Hb, Hc, Hd. cbn.
  split; [reflexivity|]. split; [|reflexivity].
  f_equal. Z.div_mod_to_equations; lia.
Qed.

(** *** The fraction and the zone *)

Lemma spanDigits_inv s : forall ds tl,
  spanDigits s = (ds, tl) ->
  s = (ds ++ tl)%string /\ allDigits ds = true /\ isDigitAt tl 0 = false.
Proof.
  induction s as [|c s IH]; intros ds tl; cbn.
  - intros [= <- <-]. repeat split.
  - destruct (isDigit c) eqn:Hc.
    + destruct (spanDigits s) as [ds' tl'] eqn:E. intros [= <- <-].
      destruct (IH _ _ eq_refl) as (-> & Hall & Htl).
      cbn. rewrite Hc. repeat split; assumption.
    + intros [= <- <-]. unfold isDigitAt. cbn. rewrite Hc. repeat split.
Qed.

Lemma spanDigits_fwd ds : forall tl,
  allDigits ds = true -> isDigitAt tl 0 = false -> spanDigits (ds ++ tl) = (ds, tl).
Proof.
  induction ds as [|c ds IH]; intros tl Hall Htl; cbn.
  - destruct tl as [|t tl]; [reflexivity|].
    unfold isDigitAt in Htl. cbn in *. now rewrite Htl.
  - cbn in Hall. apply andb_true_iff in Hall as [Hc Hall].
    rewrite Hc, (IH _ Hall Htl). reflexivity.
Qed.

Lemma secondFraction_inv v nsec v' :
  secondFraction v = (nsec, v') ->
  exists f, fractionOk f = true /\ v = (f ++ v')%string.
Proof.
  unfold secondFraction.
  destruct v as [|c [|d r]]; try (intros [= <- <-]; exists EmptyString; now split).
  destruct (commaOrPeriod c && isDigit d) eqn:H.
  - apply andb_true_iff in H as [Hc Hd].
    destruct (spanDigits (String d r)) as [ds tl] eqn:E. intros [= <- <-].
    destruct (spanDigits_inv _ E) as (Es & Hall & _).
    exists (String c ds). split; [|cbn; now rewrite Es].
    cbn. rewrite Hc, Hall.
    cbn in E. rewrite Hd in E. destruct (spanDigits r). injection E as <- _.
    reflexivity.
  - intros [= <- <-]. exists EmptyString. now split.
Qed.

Lemma secondFraction_fwd f tl :
  fractionOk f = true ->
  isDigitAt tl 0 = false ->
  match tl with
  | String c _ => commaOrPeriod c = false
  | EmptyString => True
  end ->
  exists nsec, secondFraction (f ++ tl) = (nsec, tl).
Proof.
  intros Hf Htl Hc. destruct f as [|c ds].
  - cbn. unfold secondFraction.
    destruct tl as [|a [|b r]]; try (now exists 0).
    rewrite Hc. now exists 0.
  - cbn in Hf. apply andb_true_iff in Hf as [Hf Hall].
    apply andb_true_iff in Hf as [Hsep Hne].
    destruct ds as [|d ds]; [discriminate Hne|].
    pose proof Hall as Hall'. cbn in Hall'. apply andb_true_iff in Hall' as [Hd _].
    cbn [append]. unfold secondFraction. rewrite Hsep, Hd. cbn [andb].
    change (String d (ds ++ tl)) with (String d ds ++ tl)%string.
    rewrite (@spanDigits_fwd (String d ds) tl Hall Htl). eauto.
Qed.

Lemma colonZone_inv v off v' :
  colonZone v = Some (off, v') ->
  exists z, zoneOk z = true /\ v = (zoneText z ++ v')%string.
Proof.
  unfold colonZone.
  destruct (charAt v 0 "Z") eqn:HZ.
  { intros [= <- <-]. exists ZoneUTC. split; [reflexivity|].
    destruct v as [|c r]; [discriminate HZ|].
    unfold charAt in HZ. cbn in HZ. apply Ascii.eqb_eq in HZ as ->. reflexivity. }
  destruct (String.length v <? 6)%nat eqn:Hlen; [discriminate|].
  destruct v as [|c0 [|c1 [|c2 [|c3 [|c4 [|c5 r]]]]]]; try discriminate Hlen.
  unfold charAt. cbn [String.get substring dropS negb].
  destruct (Ascii.eqb_spec c3 ":") as [->|]; [|discriminate]. cbn [negb].
  assert (E0 : substring 0 0 r = EmptyString) by now destruct r.
  rewrite E0. clear E0.
  destruct (getnum (String c1 (String c2 EmptyString)) true) as [[hr r1]|] eqn:Hh;
    [|discriminate].
  destruct (getnum (String c4 (String c5 EmptyString)) true) as [[mm r2]|] eqn:Hm;
    [|discriminate].
  destruct (getnum_fixed_inv _ Hh) as [Eh Bh], (getnum_fixed_inv _ Hm) as [Em Bm].
  destruct ((24 <? hr) || (60 <? mm)) eqn:Hr; [discriminate|].
  apply orb_false_iff in Hr as [Hr1 Hr2].
  apply Z.ltb_ge in Hr1, Hr2.
  assert (Hok : (0 <=? hr) && (hr <=? 24) && (0 <=? mm) && (mm <=? 60) = true).
  { repeat (apply andb_true_iff; split); apply Z.leb_le; lia. }
  assert (E1 : String c1 (String c2 EmptyString) = twoDigits hr).
  { unfold twoDigits in *. cbn in Eh. injection Eh as -> -> _. reflexivity. }
  assert (E2 : String c4 (String c5 EmptyString) = twoDigits mm).
  { unfold twoDigits in *. cbn in Em. injection Em as -> -> _. reflexivity. }
  injection E1 as -> ->. injection E2 as -> ->.
  destruct (Ascii.eqb_spec c0 "+") as [->|].
  { intros [= <- <-]. exists (ZoneEast hr mm). split; [exact Hok|reflexivity]. }
  destruct (Ascii.eqb_spec c0 "-") as [->|]; [|discriminate].
  intros [= <- <-]. exists (ZoneWest hr mm). split; [exact Hok|reflexivity].
Qed.

Lemma colonZone_fwd z :
  zoneOk z = true -> exists off, colonZone (zoneText z) = Some (off, EmptyString).
Proof.
  destruct z as [|hh mm|hh mm]; cbn [zoneOk]; intros H.
  - now exists 0.
  - apply andb_true_iff in H as [H H4]. apply andb_true_iff in H as [H H3].
    apply andb_true_iff in H as [H1 H2]. apply Z.leb_le in H1, H2, H3, H4.
    assert (Bh : 0 <= hh <= 99) by lia. assert (Bm : 0 <= mm <= 99) by lia.
    pose proof (getnum_twoDigits EmptyString true Bh) as Gh.
    pose proof (getnum_twoDigits EmptyString true Bm) as Gm.
    destruct (twoDigits_chars Bh) as (a & b & Eh & _).
    destruct (twoDigits_chars Bm) as (c & d & Em & _).
    rewrite Eh in Gh. rewrite Em in Gm. cbn in Gh, Gm.
    unfold colonZone, zoneText. rewrite Eh, Em. cbn.
    unfold charAt. cbn. rewrite Gh, Gm.
    assert ((24 <? hh) || (60 <? mm) = false) as ->
      by (apply orb_false_iff; split; apply Z.ltb_ge; lia).
    eauto.
  - apply andb_true_iff in H as [H H4]. apply andb_true_iff in H as [H H3].
    apply andb_true_iff in H as [H1 H2]. apply Z.leb_le in H1, H2, H3, H4.
    assert (Bh : 0 <= hh <= 99) by lia. assert (Bm : 0 <= mm <= 99) by lia.
    pose proof (getnum_twoDigits EmptyString true Bh) as Gh.
    pose proof (getnum_twoDigits EmptyString true Bm) as Gm.
    destruct (twoDigits_chars Bh) as (a & b & Eh & _).
    destruct (twoDigits_chars Bm) as (c & d & Em & _).
    rewrite Eh in Gh. rewrite Em in Gm. cbn in Gh, Gm.
    unfold colonZone, zoneText. rewrite Eh, Em. cbn.
    unfold charAt. cbn. rewrite Gh, Gm.
    assert ((24 <? hh) || (60 <? mm) = false) as ->
      by (apply orb_false_iff; split; apply Z.ltb_ge; lia).
    eauto.
Qed.

(** *** The layout parser and the stamps *)

Lemma append_empty_r (s : string) : (s ++ EmptyString)%string = s.
Proof. induction s as [|c s IH]; cbn; [reflexivity|now rewrite IH]. Qed.

Lemma zoneText_head z :
  isDigitAt (zoneText z) 0 = false
  /\ match zoneText z with
     | String c _ => commaOrPeriod c = false
     | EmptyString => True
     end.
Proof. destruct z; split; reflexivity. Qed.

Lemma parseLayout_sound s tm :
  parseLayout s = Some tm ->
  exists st,
    stampOk st = true /\ s = stampText st
    /\ tYear tm = stYear st /\ tMonth tm = stMonth st /\ tDay tm = stDay st.
Proof.
  unfold parseLayout.
  destruct ((String.length s <? 4)%nat || negb (isDigitAt s 0)) eqn:Hy0; [discriminate|].
  destruct (atoi (takeS 4 s)) as [year|] eqn:Hy; [|discriminate].
  destruct (year_inv _ Hy0 Hy) as [Es By].
  destruct (skip (dropS 4 s) "-") as [v1|] eqn:H1; [|discriminate].
  apply skip_one_inv in H1.
  destruct (getnum v1 true) as [[month v2]|] eqn:Hm; [|discriminate].
  destruct (getnum_fixed_inv _ Hm) as [E1 _].
  destruct ((month <=? 0) || (12 <? month)) eqn:Bm; [discriminate|].
  destruct (skip v2 "-") as [v3|] eqn:H2; [|discriminate].
  apply skip_one_inv in H2.
  destruct (getnum v3 true) as [[day v4]|] eqn:Hd; [|discriminate].
  destruct (getnum_fixed_inv _ Hd) as [E3 _].
  destruct (skip v4 "T") as [v5|] eqn:H3; [|discriminate].
  apply skip_one_inv in H3.
  destruct (getnum v5 false) as [[hour v6]|] eqn:Hh; [|discriminate].
  destruct (getnum_inv _ Hh) as (short & E5 & _ & Hshort).
  destruct ((hour <? 0) || (24 <=? hour)) eqn:Bh; [discriminate|].
  destruct (skip v6 ":") as [v7|] eqn:H4; [|discriminate].
  apply skip_one_inv in H4.
  destruct (getnum v7 true) as [[min v8]|] eqn:Hmi; [|discriminate].
  destruct (getnum_fixed_inv _ Hmi) as [E7 _].
  destruct ((min <? 0) || (60 <=? min)) eqn:Bmi; [discriminate|].
  destruct (skip v8 ":") as [v9|] eqn:H5; [|discriminate].
  apply skip_one_inv in H5.
  destruct (getnum v9 true) as [[sec v10]|] eqn:Hs; [|discriminate].
  destruct (getnum_fixed_inv _ Hs) as [E9 _].
  destruct ((sec <? 0) || (60 <=? sec)) eqn:Bs; [discriminate|].
  destruct (secondFraction v10) as [nsec v11] eqn:Hf.
  destruct (secondFraction_inv _ Hf) as (f & Hfok & E10).
  destruct (colonZone v11) as [[off v12]|] eqn:Hz; [|discriminate].
  destruct (colonZone_inv _ Hz) as (z & Hzok & E11).
  destruct (String.length v12 =? 0)%nat eqn:Hend; [|discriminate]. cbn [negb].
  destruct ((day <? 1) || (daysIn month year <? day)) eqn:Bd; [discriminate|].
  intros [= <-].
  exists (mkStamp year month day hour min sec short f z).
  assert (E12 : v12 = EmptyString) by (destruct v12; [reflexivity|discriminate Hend]).
  apply orb_false_iff in Bm as [Bm1 Bm2], Bh as [Bh1 Bh2], Bmi as [Bmi1 Bmi2],
    Bs as [Bs1 Bs2], Bd as [Bd1 Bd2].
  apply Z.leb_gt in Bm1. apply Z.ltb_ge in Bm2, Bh1, Bmi1, Bs1, Bd1, Bd2.
  apply Z.leb_gt in Bh2, Bmi2, Bs2.
  split; [|split; [|repeat split]].
  - unfold stampOk. cbn [stYear stMonth stDay stHour stMinute stSecond stShortHour
                          stFraction stZone].
    rewrite Hfok, Hzok.
    assert (Hsh : implb short (hour <=? 9) = true).
    { destruct short; [|reflexivity]. cbn. apply Z.leb_le. now apply Hshort. }
    rewrite Hsh.
    repeat (apply andb_true_iff; split); try reflexivity; apply Z.leb_le; lia.
  - unfold stampText. cbn [stYear stMonth stDay stHour stMinute stSecond stShortHour
                            stFraction stZone].
    rewrite Es at 1. rewrite H1, E1, H2, E3, H3, E5, H4, E7, H5, E9, E10, E11, E12.
    cbn [append]. now rewrite append_empty_r.
Qed.

Lemma daysIn_le month year : daysIn month year <= 31.
Proof.
  unfold daysIn.
  destruct (month =? 2); [destruct (isLeap year); lia|].
  destruct ((month =? 4) || (month =? 6) || (month =? 9) || (month =? 11)); lia.
Qed.

Lemma skip_one c r : skip (String c r) (String c EmptyString) = Some r.
Proof. cbn. now rewrite Ascii.eqb_refl. Qed.

Lemma range_false lo hi x :
  lo <= x <= hi ->
  (x <? lo) || (hi + 1 <=? x) = false.
Proof.
  intros H. apply orb_false_iff. split; [apply Z.ltb_ge|apply Z.leb_gt]; lia.
Qed.

Lemma parseLayout_complete st :
  stampOk st = true ->
  exists nsec off,
    parseLayout (stampText st)
    = Some (mkTime (stYear st) (stMonth st) (stDay st) (stHour st) (stMinute st)
              (stSecond st) nsec off).
Proof.
  destruct st as [y m d h mi s short f z].
  unfold stampOk, stampText.
  cbn [stYear stMonth stDay stHour stMinute stSecond stShortHour stFraction stZone].
  intros H.
  apply andb_true_iff in H as [H Hz]. apply andb_true_iff in H as [H Hf].
  apply andb_true_iff in H as [H Bs2]. apply andb_true_iff in H as [H Bs1].
  apply andb_true_iff in H as [H Bmi2]. apply andb_true_iff in H as [H Bmi1].
  apply andb_true_iff in H as [H Hshort].
  apply andb_true_iff in H as [H Bh2]. apply andb_true_iff in H as [H Bh1].
  apply andb_true_iff in H as [H Bd2]. apply andb_true_iff in H as [H Bd1].
  apply andb_true_iff in H as [H Bm2]. apply andb_true_iff in H as [H Bm1].
  apply andb_true_iff in H as [By1 By2].
  apply Z.leb_le in By1, By2, Bm1, Bm2, Bd1, Bd2, Bh1, Bh2, Bmi1, Bmi2, Bs1, Bs2.
  destruct (zoneText_head z) as [Hzd Hzc].
  destruct (@secondFraction_fwd f (zoneText z) Hf Hzd Hzc) as (nsec & Efrac).
  destruct (@colonZone_fwd z Hz) as (off & Ezone).
  exists nsec, off.
  cbn [append]. unfold parseLayout.
  match goal with
  | |- context [atoi (takeS 4 (fourDigits y ++ ?R))] =>
      destruct (@year_fwd y R) as (-> & -> & ->); [lia|]
  end.
  rewrite skip_one, getnum_twoDigits by lia.
  assert ((m <=? 0) || (12 <? m) = false) as ->
    by (apply orb_false_iff; split; [apply Z.leb_gt|apply Z.ltb_ge]; lia).
  rewrite skip_one, getnum_twoDigits by (pose proof (daysIn_le m y); lia).
  rewrite skip_one.
  assert (Ehour : forall R, getnum (hourText short h ++ String ":" R) false
                            = Some (h, String ":" R)).
  { intros R. destruct short; cbn [hourText].
    - cbn [append]. apply getnum_short; [|reflexivity].
      cbn in Hshort. apply Z.leb_le in Hshort. lia.
    - apply getnum_twoDigits. lia. }
  rewrite Ehour.
  assert ((h <? 0) || (24 <=? h) = false) as -> by (apply (@range_false 0 23); lia).
  rewrite skip_one, getnum_twoDigits by lia.
  assert ((mi <? 0) || (60 <=? mi) = false) as -> by (apply (@range_false 0 59); lia).
  rewrite skip_one, getnum_twoDigits by lia.
  assert ((s <? 0) || (60 <=? s) = false) as -> by (apply (@range_false 0 59); lia).
  rewrite Efrac, Ezone. cbn [String.length Nat.eqb negb].
  assert ((d <? 1) || (daysIn m y <? d) = false) as ->
    by (apply orb_false_iff; split; apply Z.ltb_ge; lia).
  reflexivity.
Qed.

(** *** The strict reading is within the layout parser *)

Lemma substring_whole (s : string) : substring 0 (String.length s) s = s.
Proof. induction s as [|c s IH]; cbn; [reflexivity|now rewrite IH]. Qed.

Lemma parseUint_two c0 c1 lo hi x :
  parseUint (String c0 (String c1 EmptyString)) lo hi = Some x ->
  isDigit c0 = true /\ isDigit c1 = true /\ x = digitVal c0 * 10 + digitVal c1
  /\ lo <= x <= hi.
Proof.
  unfold parseUint. cbn [parseDigits].
  destruct (isDigit c0); [|discriminate]. destruct (isDigit c1); [|discriminate].
  destruct ((lo <=? _) && (_ <=? hi)) eqn:E; [|discriminate].
  intros [= <-]. apply andb_true_iff in E as [E1 E2]. apply Z.leb_le in E1, E2.
  repeat split; lia.
Qed.

Lemma parseUint_four c0 c1 c2 c3 lo hi x :
  parseUint (String c0 (String c1 (String c2 (String c3 EmptyString)))) lo hi = Some x ->
  isDigit c0 = true /\ isDigit c1 = true /\ isDigit c2 = true /\ isDigit c3 = true
  /\ parseDigits (String c0 (String c1 (String c2 (String c3 EmptyString)))) 0 = Some x.
Proof.
  unfold parseUint. cbn [parseDigits].
  destruct (isDigit c0); [|discriminate]. destruct (isDigit c1); [|discriminate].
  destruct (isDigit c2); [|discriminate]. destruct (isDigit c3); [|discriminate].
  destruct ((lo <=? _) && (_ <=? hi)) eqn:E; [|discriminate].
  intros [= <-]. repeat split.
Qed.

Lemma getnum_two c0 c1 r fixed :
  isDigit c0 = true -> isDigit c1 = true ->
  getnum (String c0 (String c1 r)) fixed = Some (digitVal c0 * 10 + digitVal c1, r).
Proof.
  intros H0 H1. unfold getnum, isDigitAt. cbn [String.get]. now rewrite H0, H1.
Qed.

Lemma parseZone_colonZone zone off :
  parseZone zone = Some off ->
  colonZone zone = Some (off, EmptyString) /\ secondFraction zone = (0, zone).
Proof.
  unfold parseZone.
  destruct (String.eqb_spec zone "Z") as [->|Hz]; [intros [= <-]; split; reflexivity|].
  destruct (Nat.eqb (String.length zone) 6) eqn:Hlen; [|discriminate]. cbn [negb].
  destruct zone as [|z0 [|z1 [|z2 [|z3 [|z4 [|z5 [|z6 r]]]]]]]; try discriminate Hlen.
  cbn [substring].
  destruct (parseUint (String z1 (String z2 EmptyString)) 0 23) as [hr|] eqn:Hh;
    [|discriminate].
  destruct (parseUint (String z4 (String z5 EmptyString)) 0 59) as [mm|] eqn:Hm;
    [|discriminate].
  apply parseUint_two in Hh as (D1 & D2 & -> & Bh).
  apply parseUint_two in Hm as (D4 & D5 & -> & Bm).
  unfold charAt. cbn [String.get].
  destruct (Ascii.eqb_spec z3 ":") as [->|]; [|rewrite andb_false_r; discriminate].
  rewrite andb_true_r.
  unfold colonZone, secondFraction, charAt.
  cbn [String.get String.length Nat.ltb Nat.leb substring dropS negb].
  rewrite Ascii.eqb_refl. cbn [negb].
  rewrite !getnum_two by assumption.
  assert ((24 <? digitVal z1 * 10 + digitVal z2) || (60 <? digitVal z4 * 10 + digitVal z5)
          = false) as ->
    by (apply orb_false_iff; split; apply Z.ltb_ge; lia).
  destruct (Ascii.eqb_spec z0 "-") as [->|Hm].
  - cbn. intros [= <-]. split; reflexivity.
  - cbn [orb]. destruct (Ascii.eqb_spec z0 "+") as [->|]; [|discriminate].
    cbn. intros [= <-]. split; reflexivity.
Qed.

Lemma parseFraction_eq s :
  parseFraction s
  = match s with
    | String c (String d rest) =>
        if Ascii.eqb c "." && isDigit d
        then let '(ds, tl) := spanDigits (String d rest) in (parseNanoseconds ds, tl)
        else (0, s)
    | _ => (0, s)
    end.
Proof.
  destruct s as [|c [|d r]]; [reflexivity| |];
    destruct c as [[] [] [] [] [] [] [] []]; reflexivity.
Qed.

Lemma parseFraction_secondFraction rest nsec zone off :
  parseFraction rest = (nsec, zone) ->
  parseZone zone = Some off ->
  secondFraction rest = (nsec, zone).
Proof.
  rewrite parseFraction_eq. intros Hf Hz.
  destruct (parseZone_colonZone _ Hz) as [_ Hzone].
  destruct rest as [|c [|d r]]; try (injection Hf as <- <-; exact Hzone).
  destruct (Ascii.eqb_spec c ".") as [->|Hc].
  - destruct (isDigit d) eqn:Hd.
    + unfold secondFraction. cbn [commaOrPeriod Ascii.eqb]. rewrite Hd.
      exact Hf.
    + injection Hf as <- <-. exact Hzone.
  - cbn [andb] in Hf. injection Hf as <- <-. exact Hzone.
Qed.

Lemma parseRFC3339_parseLayout s t : parseRFC3339 s = Some t -> parseLayout s = Some t.
Proof.
  unfold parseRFC3339.
  destruct (String.length s <? 19)%nat eqn:Hlen; [discriminate|].
  do 19 (destruct s as [|?c s]; [discriminate Hlen|]). clear Hlen.
  cbn [substring String.length Nat.sub charAt String.get].
  assert (E0 : substring 0 0 s = EmptyString) by now destruct s.
  rewrite E0, Nat.sub_0_r, substring_whole. clear E0.
  destruct (parseUint (String c (String c0 (String c1 (String c2 EmptyString)))) 0 9999)
    as [year|] eqn:Hy; [|discriminate].
  destruct (parseUint (String c4 (String c5 EmptyString)) 1 12) as [month|] eqn:Hm;
    [|discriminate].
  destruct (parseUint (String c7 (String c8 EmptyString)) 1 (daysIn month year))
    as [day|] eqn:Hd; [|discriminate].
  destruct (parseUint (String c10 (String c11 EmptyString)) 0 23) as [hour|] eqn:Hh;
    [|discriminate].
  destruct (parseUint (String c13 (String c14 EmptyString)) 0 59) as [min|] eqn:Hmi;
    [|discriminate].
  destruct (parseUint (String c16 (String c17 EmptyString)) 0 59) as [sec|] eqn:Hs;
    [|discriminate].
  destruct (Ascii.eqb_spec c3 "-") as [->|]; [|discriminate].
  destruct (Ascii.eqb_spec c6 "-") as [->|]; [|discriminate].
  destruct (Ascii.eqb_spec c9 "T") as [->|]; [|discriminate].
  destruct (Ascii.eqb_spec c12 ":") as [->|]; [|discriminate].
  destruct (Ascii.eqb_spec c15 ":") as [->|]; [|discriminate].
  cbn [andb].
  destruct (parseFraction s) as [nsec zone] eqn:Hf.
  destruct (parseZone zone) as [off|] eqn:Hz; [|discriminate].
  intros [= <-].
  apply parseUint_four in Hy as (Y0 & Y1 & Y2 & Y3 & Hy).
  apply parseUint_two in Hm as (M0 & M1 & -> & Bm).
  apply parseUint_two in Hd as (D0 & D1 & -> & Bd).
  apply parseUint_two in Hh as (H0 & H1 & -> & Bh).
  apply parseUint_two in Hmi as (I0 & I1 & -> & Bmi).
  apply parseUint_two in Hs as (S0 & S1 & -> & Bs).
  destruct (digit_not_mark _ Y0) as (Ym & Yp & _).
  unfold parseLayout, isDigitAt.
  cbn [String.length Nat.ltb Nat.leb String.get takeS dropS atoi orb].
  rewrite Y0, Ym, Yp, Hy. cbn [negb].
  rewrite skip_one, getnum_two by assumption.
  assert ((digitVal c4 * 10 + digitVal c5 <=? 0) || (12 <? digitVal c4 * 10 + digitVal c5)
          = false) as ->
    by (apply orb_false_iff; split; [apply Z.leb_gt|apply Z.ltb_ge]; lia).
  rewrite skip_one, getnum_two by assumption.
  rewrite skip_one, getnum_two by assumption.
  assert ((digitVal c10 * 10 + digitVal c11 <? 0) || (24 <=? digitVal c10 * 10 + digitVal c11)
          = false) as -> by (apply (@range_false 0 23); lia).
  rewrite skip_one, getnum_two by assumption.
  assert ((digitVal c13 * 10 + digitVal c14 <? 0) || (60 <=? digitVal c13 * 10 + digitVal c14)
          = false) as -> by (apply (@range_false 0 59); lia).
  rewrite skip_one, getnum_two by assumption.
  assert ((digitVal c16 * 10 + digitVal c17 <? 0) || (60 <=? digitVal c16 * 10 + digitVal c17)
          = false) as -> by (apply (@range_false 0 59); lia).
  rewrite (parseFraction_secondFraction _ Hf Hz).
  rewrite (proj1 (parseZone_colonZone _ Hz)).
  cbn [String.length Nat.eqb negb].
  assert ((digitVal c7 * 10 + digitVal c8 <? 1)
          || (daysIn (digitVal c4 * 10 + digitVal c5) year <? digitVal c7 * 10 + digitVal c8)
          = false) as ->
    by (apply orb_false_iff; split; apply Z.ltb_ge; lia).
  reflexivity.
Qed.

(** [time.Parse] accepts exactly the stamps, and reads their date. *)
Lemma time_Parse_sound s tm :
  time_Parse s = Some tm ->
  exists st,
    stampOk st = true /\ s = stampText st
    /\ Year tm = stYear st /\ Month tm = stMonth st /\ Day tm = stDay st.
Proof.
  unfold time_Parse, Year, Month, Day.
  destruct (parseRFC3339 s) as [t|] eqn:E.
  - intros [= <-]. apply parseLayout_sound. now apply parseRFC3339_parseLayout.
  - apply parseLayout_sound.
Qed.

Lemma time_Parse_complete st :
  stampOk st = true ->
  exists tm,
    time_Parse (stampText st) = Some tm
    /\ Year tm = stYear st /\ Month tm = stMonth st /\ Day tm = stDay st.
Proof.
  intros Hok. destruct (parseLayout_complete st Hok) as (nsec & off & E).
  unfold time_Parse.
  destruct (parseRFC3339 (stampText st)) as [t|] eqn:Ef.
  - apply parseRFC3339_parseLayout in Ef. rewrite E in Ef. injection Ef as <-.
    eexists. split; [reflexivity|]. repeat split.
  - eexists. split; [exact E|]. repeat split.
Qed.

Section HubFacts.
Context {codec : EntryCodec} {database : Database}.

Lemma remoteArgs_app t1 t2 : remoteArgs (t1 ++ t2) = remoteArgs t1 ++ remoteArgs t2.
Proof. unfold remoteArgs. now rewrite flat_map_app. Qed.

Lemma remoteResults_app t1 t2 :
  remoteResults (t1 ++ t2) = remoteResults t1 ++ remoteResults t2.
Proof. unfold remoteResults. now rewrite flat_map_app. Qed.

Lemma remoteArgs_none t : Forall (fun e => isRemoteCall e = false) t -> remoteArgs t = [].
Proof.
  induction 1 as [|e t He _ IH]; [reflexivity|].
  destruct e; cbn in *; try discriminate; exact IH.
Qed.

Lemma listDataOf_run se h :
  listDataOf se h
  = (decodeTrace se, h,
     match typedListData se with
     | Some l => Next l
     | None => Panic
     end).
Proof.
  unfold listDataOf, decodeTrace, typedListData.
  destruct (String.eqb (Type_ se) "anime").
  - cbv [bind callGetAnimeEntry emit ret deref].
    destruct (GetAnimeEntry se); reflexivity.
  - destruct (String.eqb (Type_ se) "manga").
    + cbv [bind callGetMangaEntry emit ret deref].
      destruct (GetMangaEntry se); reflexivity.
    + reflexivity.
Qed.

Lemma decodeTrace_loop se : Forall (fun e => isLoopEvent e = true) (decodeTrace se).
Proof.
  unfold decodeTrace.
  destruct (String.eqb (Type_ se) "anime"); [repeat constructor|].
  destruct (String.eqb (Type_ se) "manga"); repeat constructor.
Qed.

Lemma decodeTrace_remote se : remoteArgs (decodeTrace se) = [] /\ remoteResults (decodeTrace se) = [].
Proof.
  unfold decodeTrace.
  destruct (String.eqb (Type_ se) "anime"); [split; reflexivity|].
  destruct (String.eqb (Type_ se) "manga"); split; reflexivity.
Qed.

(** One turn of the loop. *)
Lemma syncEntries_cons se rest n errI h :
  syncEntries (se :: rest) n errI h
  = match typedListData se with
    | None => (decodeTrace se, h, Panic)
    | Some None =>
        let '(t, h', s) := syncEntries rest n errI h in (decodeTrace se ++ t, h', s)
    | Some (Some l) =>
        let res := anilistClientWrapper h n (pushArgs se l) in
        let '(t, h', s) := syncEntries rest (S n) res h in
        (decodeTrace se ++ EvUpdateMediaListEntry (pushArgs se l) res :: t, h', s)
    end.
Proof.
  cbn [syncEntries]. unfold bind at 1. rewrite listDataOf_run.
  destruct (typedListData se) as [[l|]|]; [| |reflexivity].
  - cbv [bind callUpdateMediaListEntry getHub emit ret].
    destruct (syncEntries rest (S n) _ h) as [[t h'] s]. reflexivity.
  - destruct (syncEntries rest n errI h) as [[t h'] s]. reflexivity.
Qed.

Lemma last_cons_default {A} (x : A) l d : last (x :: l) d = last l x.
Proof.
  revert x d. induction l as [|y l IH]; intros x d; [reflexivity|].
  change (last (x :: y :: l) d) with (last (y :: l) d).
  rewrite (IH y d), (IH y x). reflexivity.
Qed.

(** Whatever the rows are, the loop leaves the hub as it was, only decodes
    and calls the client, sends what [pushArgs] says for rows that carry
    list data, and ends with the answer of its last call in [errI]. *)
Lemma syncEntries_any ses : forall n errI h t h' s,
  syncEntries ses n errI h = (t, h', s) ->
  h' = h
  /\ Forall (fun e => isLoopEvent e = true) t
  /\ (s = Panic \/ s = Next (last (remoteResults t) errI))
  /\ (forall args res, In (EvUpdateMediaListEntry args res) t ->
      exists se l, In se ses /\ rowListData se = Some l /\ args = pushArgs se l).
Proof.
  induction ses as [|se rest IH]; intros n errI h t h' s E.
  - cbn in E. inversion E; subst. repeat split; auto.
    intros args res [].
  - rewrite syncEntries_cons in E.
    pose proof (decodeTrace_loop se) as Hd.
    pose proof (decodeTrace_remote se) as [_ Hr].
    assert (Hnot : forall args res, ~ In (EvUpdateMediaListEntry args res) (decodeTrace se)).
    { intros args res Hin. rewrite Forall_forall in Hd. specialize (Hd _ Hin).
      unfold decodeTrace in Hin.
      destruct (String.eqb (Type_ se) "anime"); [destruct Hin as [Hin|[]]; discriminate|].
      destruct (String.eqb (Type_ se) "manga"); [destruct Hin as [Hin|[]]; discriminate|].
      destruct Hin. }
    unfold rowListData at 1.
    destruct (typedListData se) as [[l|]|] eqn:Et.
    + cbv zeta in E.
      destruct (syncEntries rest (S n) _ h) as [[t1 h1] s1] eqn:E1.
      inversion E; subst. apply IH in E1 as (-> & Hl & Hs & Hin).
      repeat split.
      * apply Forall_app. split; [exact Hd|]. constructor; [reflexivity|exact Hl].
      * rewrite remoteResults_app, Hr. cbn [app remoteResults flat_map].
        change (flat_map _ t1) with (remoteResults t1).
        rewrite last_cons_default. exact Hs.
      * intros args res Hi. apply in_app_or in Hi as [Hi|[Hi|Hi]].
        -- now apply Hnot in Hi.
        -- inversion Hi; subst. exists se, l. repeat split; [now left|].
           unfold rowListData. now rewrite Et.
        -- destruct (Hin _ _ Hi) as (se' & l' & ? & ? & ?).
           exists se', l'. repeat split; auto. now right.
    + destruct (syncEntries rest n errI h) as [[t1 h1] s1] eqn:E1.
      inversion E; subst. apply IH in E1 as (-> & Hl & Hs & Hin).
      repeat split.
      * apply Forall_app. split; assumption.
      * rewrite remoteResults_app, Hr. exact Hs.
      * intros args res Hi. apply in_app_or in Hi as [Hi|Hi].
        -- now apply Hnot in Hi.
        -- destruct (Hin _ _ Hi) as (se' & l' & ? & ? & ?).
           exists se', l'. repeat split; auto. now right.
    + inversion E; subst. repeat split; auto.
      intros args res Hi. now apply Hnot in Hi.
Qed.

(** When no row has a nil typed entry the loop runs to its end and makes
    exactly the calls of [pushesOf], in order. *)
Lemma syncEntries_total ses : forall n errI h,
  Forall hasTypedEntry ses ->
  exists t,
    syncEntries ses n errI h = (t, h, Next (last (remoteResults t) errI))
    /\ remoteArgs t = pushesOf ses.
Proof.
  induction ses as [|se rest IH]; intros n errI h Hall.
  - exists []. split; reflexivity.
  - inversion Hall as [|? ? Hse Hrest]; subst.
    rewrite syncEntries_cons.
    pose proof (decodeTrace_remote se) as [Ha Hr].
    unfold pushesOf. cbn [flat_map]. fold (pushesOf rest).
    unfold rowListData, hasTypedEntry in *.
    destruct (typedListData se) as [[l|]|]; [| |contradiction].
    + cbv zeta.
      destruct (IH (S n) (anilistClientWrapper h n (pushArgs se l)) h Hrest)
        as (t & Et & Hargs).
      rewrite Et.
      exists (decodeTrace se
              ++ EvUpdateMediaListEntry (pushArgs se l)
                   (anilistClientWrapper h n (pushArgs se l)) :: t).
      split.
      * rewrite remoteResults_app, Hr. cbn [app remoteResults flat_map].
        change (flat_map _ t) with (remoteResults t).
        rewrite last_cons_default. reflexivity.
      * rewrite remoteArgs_app, Ha. cbn [app remoteArgs flat_map].
        change (flat_map _ t) with (remoteArgs t).
        now rewrite Hargs.
    + destruct (IH n errI h Hrest) as (t & Et & Hargs).
      rewrite Et. exists (decodeTrace se ++ t). split.
      * rewrite remoteResults_app, Hr. reflexivity.
      * rewrite remoteArgs_app, Ha. exact Hargs.
Qed.

(** The pass, once its precondition checks are passed. *)
Lemma SyncListData_ready h item rows :
  syncReady h item rows ->
  SyncListData h
  = match filter isUpdated rows with
    | [] => (syncReads item, h, Returned None)
    | updated =>
        let '(t, h1, s) := syncEntries updated 0 None h in
        match s with
        | Next None =>
            (syncReads item ++ t ++ syncCommit item,
             set_offlineDb (fst (db_DeleteSnapshot (ItemID item) (offlineDb h1))) h1,
             Returned None)
        | Next (Some _) => (syncReads item ++ t, h1, Returned None)
        | Return r => (syncReads item ++ t, h1, Returned r)
        | Panic => (syncReads item ++ t, h1, Panicked)
        end
    end.
Proof.
  intros (Hoff & Hlatest & Hsynced & Hused & Hrows).
  unfold SyncListData, method.
  cbv [bind getHub callGetLatestSnapshot callGetSnapshotMediaEntries emit ret return_].
  rewrite Hoff, Hlatest, Hsynced, Hused. cbn [negb app]. rewrite Hrows. cbn [errOf].
  destruct (filter isUpdated rows) as [|se rest] eqn:Ef; [reflexivity|].
  cbn [List.length Nat.eqb].
  destruct (syncEntries (se :: rest) 0 None h) as [[t h1] s].
  destruct s as [[e|]|r|]; cbn [finish syncReads app];
    rewrite ?app_nil_r; try reflexivity.
  cbv [callDeleteSnapshot bind getHub emit ret putHub].
  destruct (db_DeleteSnapshot (ItemID item) (offlineDb h1)) as [d r].
  cbn. reflexivity.
Qed.

(** Every way a pass can go. *)
Lemma SyncListData_shape h t h' o :
  SyncListData h = (t, h', o) ->
  (h' = h /\ Forall (fun e => isDbRead e = true) t /\ o <> Panicked)
  \/ exists item rows tl s,
       syncReady h item rows
       /\ filter isUpdated rows <> []
       /\ syncEntries (filter isUpdated rows) 0 None h = (tl, h, s)
       /\ ((s = Panic /\ t = syncReads item ++ tl /\ h' = h /\ o = Panicked)
           \/ (exists e, s = Next (Some e) /\ t = syncReads item ++ tl
                          /\ h' = h /\ o = Returned None)
           \/ (s = Next None /\ t = syncReads item ++ tl ++ syncCommit item
               /\ h' = set_offlineDb (fst (db_DeleteSnapshot (ItemID item) (offlineDb h))) h
               /\ o = Returned None)).
Proof.
  intros E.
  destruct (isOffline h) eqn:Hoff.
  { left. unfold SyncListData, method in E.
    cbv [bind getHub return_] in E. rewrite Hoff in E.
    inversion E; subst. repeat split; [constructor|discriminate]. }
  destruct (db_GetLatestSnapshot (offlineDb h)) as [[item|]|e] eqn:Hlatest.
  2,3: left; unfold SyncListData, method in E;
       cbv [bind getHub callGetLatestSnapshot emit ret return_] in E;
       rewrite Hoff, Hlatest in E; inversion E; subst;
       repeat split; [repeat constructor|discriminate].
  destruct (Synced item) eqn:Hsynced.
  { left. unfold SyncListData, method in E.
    cbv [bind getHub callGetLatestSnapshot emit ret return_] in E.
    rewrite Hoff, Hlatest, Hsynced in E. inversion E; subst.
    repeat split; [repeat constructor|discriminate]. }
  destruct (Used item) eqn:Hused.
  2:{ left. unfold SyncListData, method in E.
      cbv [bind getHub callGetLatestSnapshot emit ret return_] in E.
      rewrite Hoff, Hlatest, Hsynced, Hused in E. inversion E; subst.
      repeat split; [repeat constructor|discriminate]. }
  destruct (db_GetSnapshotMediaEntries (ItemID item) (offlineDb h)) as [rows|e] eqn:Hrows.
  2:{ left. unfold SyncListData, method in E.
      cbv [bind getHub callGetLatestSnapshot callGetSnapshotMediaEntries emit ret return_] in E.
      rewrite Hoff, Hlatest, Hsynced, Hused in E. cbn [negb] in E. rewrite Hrows in E.
      inversion E; subst. repeat split; [repeat constructor|discriminate]. }
  assert (Hready : syncReady h item rows) by (repeat split; assumption).
  rewrite (SyncListData_ready Hready) in E.
  destruct (filter isUpdated rows) as [|se rest] eqn:Ef.
  { left. inversion E; subst. repeat split; [repeat constructor|discriminate]. }
  destruct (syncEntries (se :: rest) 0 None h) as [[tl h1] s] eqn:El.
  destruct (syncEntries_any _ _ _ _ El) as (-> & _ & Hs & _).
  right. exists item, rows, tl, s. rewrite Ef.
  split; [exact Hready|]. split; [discriminate|]. split; [exact El|].
  destruct Hs as [->| ->].
  - left. inversion E; subst. auto.
  - destruct (last (remoteResults tl) None) as [e|].
    + right. left. exists e. inversion E; subst. auto.
    + right. right. inversion E; subst. auto.
Qed.

End HubFacts.

(** ** The precondition checks of the pass *)

Section Preconditions.
Context {codec : EntryCodec} {database : Database}.

(** C4. The checks of [SyncListData] run in order and each one ends the
    pass: an offline hub returns nil at once, with an empty trace; otherwise
    a missing latest snapshot gives "no snapshot found", otherwise a synced
    snapshot gives "data already synced", otherwise an unused snapshot gives
    "snapshot not used".  In the three failures the trace is the single
    read of the latest snapshot -- no call to the client, no write -- and in
    all four cases the hub (database and cache) is unchanged. *)
Theorem SyncListData_precondition_checks (h : Hub) :
  (isOffline h = true -> SyncListData h = ([], h, Returned None))
  /\ (isOffline h = false ->
      latestItem (offlineDb h) = None ->
      SyncListData h
      = ([EvDbGetLatestSnapshot], h, Returned (Some (ErrNew "no snapshot found"))))
  /\ (forall item,
      isOffline h = false ->
      latestItem (offlineDb h) = Some item ->
      Synced item = true ->
      SyncListData h
      = ([EvDbGetLatestSnapshot], h, Returned (Some (ErrNew "data already synced"))))
  /\ (forall item,
      isOffline h = false ->
      latestItem (offlineDb h) = Some item ->
      Synced item = false ->
      Used item = false ->
      SyncListData h
      = ([EvDbGetLatestSnapshot], h, Returned (Some (ErrNew "snapshot not used")))).
Proof.
  unfold latestItem, SyncListData, method.
  cbv [bind getHub callGetLatestSnapshot emit ret return_].
  repeat split.
  - intros ->. reflexivity.
  - intros -> Hl.
    destruct (db_GetLatestSnapshot (offlineDb h)) as [[item|]|e];
      [discriminate|reflexivity|reflexivity].
  - intros item -> Hl Hs.
    destruct (db_GetLatestSnapshot (offlineDb h)) as [[item'|]|e]; try discriminate.
    injection Hl as ->. rewrite Hs. reflexivity.
  - intros item -> Hl Hs Hu.
    destruct (db_GetLatestSnapshot (offlineDb h)) as [[item'|]|e]; try discriminate.
    injection Hl as ->. rewrite Hs, Hu. reflexivity.
Qed.

End Preconditions.

Lemma SyncListData_precondition_checks_witness :
  SyncListData Scenario.hubOffline = ([], Scenario.hubOffline, Returned None)
  /\ SyncListData Scenario.hubNoSnapshot
     = ([EvDbGetLatestSnapshot], Scenario.hubNoSnapshot,
        Returned (Some (ErrNew "no snapshot found")))
  /\ SyncListData Scenario.hubSynced
     = ([EvDbGetLatestSnapshot], Scenario.hubSynced,
        Returned (Some (ErrNew "data already synced")))
  /\ SyncListData Scenario.hubUnused
     = ([EvDbGetLatestSnapshot], Scenario.hubUnused,
        Returned (Some (ErrNew "snapshot not used"))).
Proof.
  split; [|split; [|split]].
  - apply (proj1 (SyncListData_precondition_checks Scenario.hubOffline)).
    reflexivity.
  - apply (proj1 (proj2 (SyncListData_precondition_checks Scenario.hubNoSnapshot)));
      reflexivity.
  - apply (proj1 (proj2 (proj2 (SyncListData_precondition_checks Scenario.hubSynced)))
             (mkSnapshotItem 1 false true)); reflexivity.
  - apply (proj2 (proj2 (proj2 (SyncListData_precondition_checks Scenario.hubUnused)))
             (mkSnapshotItem 1 false false)); reflexivity.
Defined.

(** ** A failed push *)

(** A pass that has called the client returns nil, or panics. *)
Lemma SyncListData_after_push {codec : EntryCodec} {database : Database} (h : Hub) :
  remoteArgs (traceOf (SyncListData h)) = []
  \/ outcomeOf (SyncListData h) = Returned None
  \/ outcomeOf (SyncListData h) = Panicked.
Proof.
  destruct (SyncListData h) as [[t h'] o] eqn:E. unfold outcomeOf, traceOf. cbn.
  destruct (SyncListData_shape _ E) as [(_ & Hr & _)|(item & rows & tl & s & _ & _ & _ & Hs)].
  - left. apply remoteArgs_none. revert Hr. apply Forall_impl.
    intros ev Hev. now destruct ev.
  - destruct Hs as [(_ & _ & _ & ->)|[(e' & _ & _ & _ & ->)|(_ & _ & _ & ->)]]; auto.
Qed.

(** C1. What [SyncListData] does when a push fails.  With the edited entry
    of media 100 and a client that is down, the pass makes its call, gets
    the error, keeps the snapshot and sends no event, but returns nil: the
    error of the push is not the value returned.  With two edited entries
    and a client whose first call fails and second succeeds, the pass
    returns nil, deletes the snapshot and sends both refresh events: the
    first error is forgotten.  In general no pass returns an error once it
    has called the client: it returns nil, or panics. *)
Theorem SyncListData_failed_push :
  (let run := SyncListData (Scenario.onlineHub Scenario.clientDown Scenario.store) in
   remoteResults (traceOf run) = [Some (ErrClient "network unreachable")]
   /\ outcomeOf run = Returned None
   /\ hubOf run = Scenario.onlineHub Scenario.clientDown Scenario.store
   /\ sentEvents (traceOf run) = [])
  /\ (let run := SyncListData
                   (Scenario.onlineHub Scenario.clientFirstFails Scenario.storeTwoEdits) in
      remoteResults (traceOf run) = [Some (ErrClient "rate limited"); None]
      /\ outcomeOf run = Returned None
      /\ offlineDb (hubOf run) = ListDb.mkState [] [] 40
      /\ sentEvents (traceOf run)
         = [RefreshedAnilistCollection; RefreshedAnilistMangaCollection])
  /\ (forall (codec : EntryCodec) (database : Database) (h : Hub),
      remoteArgs (traceOf (SyncListData h)) = []
      \/ outcomeOf (SyncListData h) = Returned None
      \/ outcomeOf (SyncListData h) = Panicked).
Proof.
  split; [|split].
  - repeat split; vm_compute; reflexivity.
  - repeat split; vm_compute; reflexivity.
  - intros codec database h. apply SyncListData_after_push.
Qed.

(** ** Which rows are pushed *)

Section Pass.
Context {codec : EntryCodec} {database : Database}.

Lemma isUpdated_iff se : isUpdated se = true <-> CreatedAt se <> UpdatedAt se.
Proof.
  unfold isUpdated. rewrite negb_true_iff, Z.eqb_neq. reflexivity.
Qed.

Lemma in_remoteArgs t args :
  In args (remoteArgs t) <-> exists res, In (EvUpdateMediaListEntry args res) t.
Proof.
  unfold remoteArgs. rewrite in_flat_map. split.
  - intros (e & He & Hin). destruct e; try contradiction.
    destruct Hin as [<-|[]]. eauto.
  - intros (res & Hin). exists (EvUpdateMediaListEntry args res).
    split; [exact Hin|now left].
Qed.

Lemma in_pushesOf ses se l :
  In se ses -> rowListData se = Some l -> In (pushArgs se l) (pushesOf ses).
Proof.
  intros Hin Hl. unfold pushesOf. rewrite in_flat_map.
  exists se. split; [exact Hin|]. rewrite Hl. now left.
Qed.

Lemma not_remote_reads item a r : ~ In (EvUpdateMediaListEntry a r) (syncReads item).
Proof. intros [H|[H|[]]]; discriminate. Qed.

Lemma not_remote_commit item a r : ~ In (EvUpdateMediaListEntry a r) (syncCommit item).
Proof. intros [H|[H|[H|[H|[]]]]]; discriminate. Qed.

(** Every call of a pass is the push of an edited row of the latest
    snapshot that carries list data. *)
Lemma SyncListData_calls h t h' o args res :
  SyncListData h = (t, h', o) ->
  In (EvUpdateMediaListEntry args res) t ->
  exists item rows se l,
    syncReady h item rows /\ In se rows /\ isUpdated se = true
    /\ rowListData se = Some l /\ args = pushArgs se l.
Proof.
  intros E Hin.
  destruct (SyncListData_shape _ E) as [(_ & Hreads & _)|(item & rows & tl & s & Hready & _ & El & Hs)].
  - rewrite Forall_forall in Hreads. specialize (Hreads _ Hin). discriminate.
  - destruct (syncEntries_any _ _ _ _ El) as (_ & _ & _ & Hcalls).
    assert (Htl : In (EvUpdateMediaListEntry args res) tl).
    { destruct Hs as [(_ & -> & _)|[(e & _ & -> & _)|(_ & -> & _)]];
        apply in_app_or in Hin as [Hin|Hin];
        try (now apply not_remote_reads in Hin); try exact Hin.
      apply in_app_or in Hin as [Hin|Hin]; [exact Hin|].
      now apply not_remote_commit in Hin. }
    destruct (Hcalls _ _ Htl) as (se & l & Hse & Hl & ->).
    apply filter_In in Hse as [Hse Hup].
    exists item, rows, se, l. auto.
Qed.

(** In a pass that does not meet a nil typed entry, the calls are exactly
    the pushes of the edited rows, in order. *)
Lemma SyncListData_exact_calls h item rows t h' o :
  syncReady h item rows ->
  Forall hasTypedEntry (filter isUpdated rows) ->
  SyncListData h = (t, h', o) ->
  remoteArgs t = pushesOf (filter isUpdated rows) /\ o = Returned None.
Proof.
  intros Hready Hall E.
  rewrite (SyncListData_ready Hready) in E.
  destruct (filter isUpdated rows) as [|se rest] eqn:Ef.
  { inversion E; subst. split; reflexivity. }
  destruct (syncEntries_total 0 None h Hall) as (tl & El & Hargs).
  rewrite El in E.
  assert (Hcommit : remoteArgs (syncCommit item) = []) by reflexivity.
  destruct (last (remoteResults tl) None); injection E as <- _ <-;
    (split; [|reflexivity]);
    match goal with
    | |- remoteArgs (_ :: _ :: ?x) = _ => change (remoteArgs x = pushesOf (se :: rest))
    end;
    rewrite ?remoteArgs_app, ?Hcommit, ?app_nil_r; exact Hargs.
Qed.

(** C2, as stated, fails: the edited row of media 400 has an anime entry
    without list data; the loop skips it, so it is edited and not pushed. *)
Lemma edited_row_without_list_data_not_pushed :
  let h := Scenario.onlineHub Scenario.clientOk Scenario.storeNoListData in
  In Scenario.row400 (ListDb.entries (offlineDb h))
  /\ ~ (pushedIn (traceOf (SyncListData h)) Scenario.row400
        <-> CreatedAt Scenario.row400 <> UpdatedAt Scenario.row400).
Proof.
  split; [now left|].
  intros [_ Hpush].
  destruct Hpush as (args & Hin & _); [discriminate|].
  vm_compute in Hin. exact Hin.
Qed.

(** C2, amended.  In a pass that gets past its precondition checks:
    every call to the client is the push of a row whose [CreatedAt] differs
    from its [UpdatedAt] and whose typed entry carries list data, so a row
    with [CreatedAt = UpdatedAt] is never pushed; when no edited row has a
    nil typed entry, the calls are exactly one per edited row with list
    data, in order, and each such row is pushed; and when no row is edited
    the pass returns nil after its two reads, without any call. *)
Theorem SyncListData_pushes_edited_rows h item rows t h' o :
  syncReady h item rows ->
  SyncListData h = (t, h', o) ->
  (forall args, In args (remoteArgs t) ->
     exists se l, In se rows /\ CreatedAt se <> UpdatedAt se
                  /\ rowListData se = Some l /\ args = pushArgs se l)
  /\ (Forall hasTypedEntry (filter isUpdated rows) ->
      remoteArgs t = pushesOf (filter isUpdated rows)
      /\ forall se, In se rows ->
           CreatedAt se <> UpdatedAt se -> rowListData se <> None -> pushedIn t se)
  /\ (filter isUpdated rows = [] ->
      t = syncReads item /\ remoteArgs t = [] /\ h' = h /\ o = Returned None).
Proof.
  intros Hready E. split; [|split].
  - intros args Hin. apply in_remoteArgs in Hin as (res & Hin).
    destruct (SyncListData_calls _ _ _ E Hin) as (item' & rows' & se & l & Hr' & Hse & Hup & Hl & ->).
    assert (rows' = rows) as ->.
    { destruct Hready as (_ & Hl1 & _ & _ & Hr1), Hr' as (_ & Hl2 & _ & _ & Hr2).
      rewrite Hl1 in Hl2. injection Hl2 as <-. rewrite Hr1 in Hr2. now injection Hr2. }
    exists se, l. rewrite <- isUpdated_iff. auto.
  - intros Hall.
    destruct (SyncListData_exact_calls Hready Hall E) as [Hargs _].
    split; [exact Hargs|].
    intros se Hse Hup Hl. destruct (rowListData se) as [l|] eqn:El; [|contradiction].
    exists (pushArgs se l). split; [|reflexivity].
    rewrite Hargs. apply in_pushesOf; [|exact El].
    apply filter_In. split; [exact Hse|now apply isUpdated_iff].
  - intros Hnone. rewrite (SyncListData_ready Hready), Hnone in E.
    inversion E; subst. repeat split.
Qed.

(** ** The score sent *)

Lemma pushArgs_score se l :
  0 <= Score l <= 10 -> argScore (pushArgs se l) = 10 * Score l.
Proof.
  intros Hs. unfold pushArgs. cbn [argScore Score set_Score]. unfold int_mul.
  assert (Hp : 2 ^ 63 = 9223372036854775808) by reflexivity.
  rewrite wrap_int_small; lia.
Qed.

(** A pass keeps the client, the mode and the cache of the hub; the
    database is the one it found, or that one after [DeleteSnapshot]. *)
Lemma SyncListData_hub h t h' o :
  SyncListData h = (t, h', o) ->
  h' = h
  \/ exists item, latestItem (offlineDb h) = Some item
       /\ h' = set_offlineDb (fst (db_DeleteSnapshot (ItemID item) (offlineDb h))) h.
Proof.
  intros E.
  destruct (SyncListData_shape _ E) as [(-> & _)|(item & rows & tl & s & Hready & _ & _ & Hs)].
  - now left.
  - destruct Hs as [(_ & _ & -> & _)|[(e & _ & _ & -> & _)|(_ & _ & -> & _)]];
      [now left|now left|].
    right. exists item. split; [|reflexivity].
    destruct Hready as (_ & Hl & _). unfold latestItem. now rewrite Hl.
Qed.

Lemma SyncListData_no_entry_write h t h' o :
  SyncListData h = (t, h', o) -> Forall (fun e => isEntryWrite e = false) t.
Proof.
  intros E.
  assert (Hloop : forall tl, Forall (fun e => isLoopEvent e = true) tl ->
                             Forall (fun e => isEntryWrite e = false) tl).
  { intros tl. apply Forall_impl. intros e He. now destruct e. }
  assert (Hread : forall tl, Forall (fun e => isDbRead e = true) tl ->
                             Forall (fun e => isEntryWrite e = false) tl).
  { intros tl. apply Forall_impl. intros e He. now destruct e. }
  destruct (SyncListData_shape _ E) as [(_ & Hr & _)|(item & rows & tl & s & _ & _ & El & Hs)].
  - now apply Hread.
  - destruct (syncEntries_any _ _ _ _ El) as (_ & Hl & _).
    apply Hloop in Hl.
    destruct Hs as [(_ & -> & _)|[(e & _ & -> & _)|(_ & -> & _)]];
      repeat (apply Forall_app; split); auto; repeat constructor.
Qed.

Lemma syncReady_same_db h1 h2 item rows :
  offlineDb h2 = offlineDb h1 -> isOffline h2 = isOffline h1 ->
  syncReady h2 item rows -> syncReady h1 item rows.
Proof. unfold syncReady. intros -> ->. auto. Qed.

(** C3. For every call of a pass there is an edited row of the latest
    snapshot, with stored list data [l], whose push it is; if the stored
    score is between 0 and 10 the score sent is exactly ten times it.  The
    pass writes no entry row: the database after it is the one before, or
    that one after [DeleteSnapshot].  Hence, when the snapshot was kept
    (a failed pass), a second pass with any client again sends ten times
    the score stored before the first one.  In a pass that meets no nil
    typed entry the calls are exactly one per edited row with list data. *)
Theorem SyncListData_score_times_ten h t h' o :
  SyncListData h = (t, h', o) ->
  (forall args res, In (EvUpdateMediaListEntry args res) t ->
     exists item rows se l,
       syncReady h item rows /\ In se rows /\ isUpdated se = true
       /\ rowListData se = Some l /\ args = pushArgs se l
       /\ (0 <= Score l <= 10 -> argScore args = 10 * Score l))
  /\ Forall (fun e => isEntryWrite e = false) t
  /\ (offlineDb h' = offlineDb h
      \/ exists item, latestItem (offlineDb h) = Some item
           /\ offlineDb h' = fst (db_DeleteSnapshot (ItemID item) (offlineDb h)))
  /\ (offlineDb h' = offlineDb h ->
      forall client2 t2 h2 o2,
        SyncListData (set_anilistClientWrapper client2 h') = (t2, h2, o2) ->
        forall args res, In (EvUpdateMediaListEntry args res) t2 ->
          exists item rows se l,
            syncReady h item rows /\ In se rows /\ isUpdated se = true
            /\ rowListData se = Some l /\ args = pushArgs se l
            /\ (0 <= Score l <= 10 -> argScore args = 10 * Score l))
  /\ (forall item rows,
      syncReady h item rows ->
      Forall hasTypedEntry (filter isUpdated rows) ->
      remoteArgs t = pushesOf (filter isUpdated rows)).
Proof.
  intros E.
  assert (Hoff : isOffline h' = isOffline h).
  { destruct (SyncListData_hub _ E) as [->|(item & _ & ->)]; reflexivity. }
  split; [|split; [|split; [|split]]].
  5:{ intros item rows Hready Hall.
      exact (proj1 (SyncListData_exact_calls Hready Hall E)). }
  - intros args res Hin.
    destruct (SyncListData_calls _ _ _ E Hin) as (item & rows & se & l & Hr & Hse & Hup & Hl & ->).
    exists item, rows, se, l.
    refine (conj Hr (conj Hse (conj Hup (conj Hl (conj eq_refl _))))).
    apply pushArgs_score.
  - exact (SyncListData_no_entry_write _ E).
  - destruct (SyncListData_hub _ E) as [->|(item & Hi & ->)]; [now left|].
    right. exists item. split; [exact Hi|reflexivity].
  - intros Hdb client2 t2 h2 o2 E2 args res Hin.
    destruct (SyncListData_calls _ _ _ E2 Hin) as (item & rows & se & l & Hr & Hse & Hup & Hl & ->).
    exists item, rows, se, l.
    refine (conj _ (conj Hse (conj Hup (conj Hl (conj eq_refl _))))).
    + apply syncReady_same_db with (h2 := set_anilistClientWrapper client2 h'); auto.
    + apply pushArgs_score.
Qed.

(** ** The successful pass *)

Lemma last_Forall {A} (P : A -> Prop) l d : Forall P l -> P d -> P (last l d).
Proof.
  intros Hl. revert d. induction Hl as [|x l Hx _ IH]; intros d Hd; [exact Hd|].
  rewrite last_cons_default. now apply IH.
Qed.

Lemma filter_loop_events tl :
  Forall (fun e => isLoopEvent e = true) tl ->
  filter (fun e => negb (isLoopEvent e)) tl = [].
Proof.
  induction 1 as [|e tl He _ IH]; [reflexivity|].
  cbn. rewrite He. exact IH.
Qed.

(** C5. In a pass that reaches the push loop (the precondition checks are
    passed and some row is edited), does not panic, and in which every call
    to the client returns nil: the pass returns nil; the hub it leaves
    differs only by the database, which is the result of [DeleteSnapshot] on
    the snapshot's id; and apart from the decodings and calls of the loop
    the trace is, in this order, the two reads, the deletion, the refresh
    callback and the two refresh events.  There is no other write: the
    snapshot row is never updated, so [Synced] is never set. *)
Theorem SyncListData_success h item rows t h' o :
  syncReady h item rows ->
  filter isUpdated rows <> [] ->
  SyncListData h = (t, h', o) ->
  o <> Panicked ->
  Forall (fun r => r = None) (remoteResults t) ->
  o = Returned None
  /\ h' = set_offlineDb (fst (db_DeleteSnapshot (ItemID item) (offlineDb h))) h
  /\ filter (fun e => negb (isLoopEvent e)) t
     = [EvDbGetLatestSnapshot;
        EvDbGetSnapshotMediaEntries (ItemID item);
        EvDbDeleteSnapshot (ItemID item);
        EvRefreshAnilistCollections;
        EvSendEvent RefreshedAnilistCollection;
        EvSendEvent RefreshedAnilistMangaCollection]
  /\ filter isDbWrite t = [EvDbDeleteSnapshot (ItemID item)]
  /\ sentEvents t = [RefreshedAnilistCollection; RefreshedAnilistMangaCollection].
Proof.
  intros Hready Hne E Hnp Hok.
  rewrite (SyncListData_ready Hready) in E.
  destruct (filter isUpdated rows) as [|se rest] eqn:Ef; [contradiction|].
  destruct (syncEntries (se :: rest) 0 None h) as [[tl h1] s] eqn:El.
  destruct (syncEntries_any _ _ _ _ El) as (-> & Hloop & Hs & _).
  destruct Hs as [->| ->].
  { injection E as _ _ <-. contradiction. }
  destruct (last (remoteResults tl) None) as [e|] eqn:Elast.
  { exfalso. injection E as <- _ _.
    change (Forall (fun r => r = None) (remoteResults tl)) in Hok.
    pose proof (@last_Forall _ (fun r : goerror => r = None) _ None Hok eq_refl) as Hl.
    cbv beta in Hl. congruence. }
  injection E as <- <- <-.
  assert (Hw : filter isDbWrite tl = []).
  { clear -Hloop. induction Hloop as [|e tl He _ IH]; [reflexivity|].
    cbn. destruct e; try discriminate; exact IH. }
  assert (Hsent : sentEvents tl = []).
  { clear -Hloop. induction Hloop as [|e tl He _ IH]; [reflexivity|].
    destruct e; try discriminate; exact IH. }
  change (EvDbGetLatestSnapshot :: EvDbGetSnapshotMediaEntries (ItemID item)
            :: tl ++ syncCommit item)
    with (syncReads item ++ tl ++ syncCommit item).
  repeat split.
  - rewrite !filter_app, (filter_loop_events Hloop). reflexivity.
  - rewrite !filter_app, Hw. reflexivity.
  - unfold sentEvents in *. rewrite !flat_map_app, Hsent. reflexivity.
Qed.

(** ** The dates sent *)

Lemma fuzzyDateOf_Some s d :
  fuzzyDateOf s = Some d
  <-> s <> EmptyString /\ exists tm, time_Parse s = Some tm /\ d = dateOf tm.
Proof.
  unfold fuzzyDateOf, dateOf.
  destruct (String.eqb_spec s EmptyString) as [->|Hs].
  - split; [discriminate|]. intros [Hne _]. now contradiction Hne.
  - destruct (time_Parse s) as [tm|].
    + split.
      * intros [= <-]. split; [exact Hs|]. now exists tm.
      * intros (_ & tm' & [= <-] & ->). reflexivity.
    + split; [discriminate|]. intros (_ & tm & Hp & _). discriminate.
Qed.

Lemma fuzzyDateOf_None s :
  fuzzyDateOf s = None <-> s = EmptyString \/ time_Parse s = None.
Proof.
  unfold fuzzyDateOf.
  destruct (String.eqb_spec s EmptyString) as [->|Hs].
  - split; auto.
  - destruct (time_Parse s) as [tm|].
    + split; [discriminate|]. intros [?|?]; [contradiction|discriminate].
    + split; auto.
Qed.

(** C6. The dates of a push.  The start date sent for list data [l] is
    present exactly when [StartedAt l] is non-empty and [time.Parse] reads
    it against [RFC3339], and is then the year, month and day of the parsed
    timestamp; it is nil exactly when the string is empty or does not
    parse; likewise for the end date and [CompletedAt l].  What parses is
    settled: a string parses exactly when it is the text of a stamp with
    its fields in range -- four digits of year, two of month, two of a day
    that the month has, [T], an hour of one or two digits up to 23, minute
    and second up to 59, an optional fraction after a period or a comma,
    then [Z] or an offset up to 24:60 -- and the date read is the date
    written.  So a date is sent exactly for the texts of such stamps, and
    it is their date.  "2022-05-01T00:00:00Z" gives (2022, 5, 1), and so do
    the same day with a one-digit hour, a comma fraction or an offset of
    24:00 or 00:60, which only the layout parser reads; a day the month
    does not have, a date without time, a lower-case [t], an hour 24, a
    second 60 and an offset of 25:00 give no date.  Every call of a pass is
    such a push of an edited row, and in a pass past its checks that meets
    no nil typed entry every edited row with list data is pushed, whatever
    its dates. *)
Theorem SyncListData_dates :
  (forall se l d,
     argStartDate (pushArgs se l) = Some d
     <-> StartedAt l <> EmptyString /\ exists tm, time_Parse (StartedAt l) = Some tm /\ d = dateOf tm)
  /\ (forall se l d,
      argEndDate (pushArgs se l) = Some d
      <-> CompletedAt l <> EmptyString
          /\ exists tm, time_Parse (CompletedAt l) = Some tm /\ d = dateOf tm)
  /\ (forall se l,
      (argStartDate (pushArgs se l) = None
       <-> StartedAt l = EmptyString \/ time_Parse (StartedAt l) = None)
      /\ (argEndDate (pushArgs se l) = None
          <-> CompletedAt l = EmptyString \/ time_Parse (CompletedAt l) = None))
  /\ (forall s tm,
      time_Parse s = Some tm ->
      exists st, stampOk st = true /\ s = stampText st /\ dateOf tm = stampDate st)
  /\ (forall st,
      stampOk st = true ->
      exists tm, time_Parse (stampText st) = Some tm /\ dateOf tm = stampDate st)
  /\ (forall se l d,
      (argStartDate (pushArgs se l) = Some d
       <-> exists st, stampOk st = true /\ StartedAt l = stampText st /\ d = stampDate st)
      /\ (argEndDate (pushArgs se l) = Some d
          <-> exists st, stampOk st = true /\ CompletedAt l = stampText st
                         /\ d = stampDate st))
  /\ (fuzzyDateOf "2022-05-01T00:00:00Z"
      = Some (mkFuzzyDateInput (Some 2022) (Some 5) (Some 1))
      /\ Forall (fun s => fuzzyDateOf s
                          = Some (mkFuzzyDateInput (Some 2022) (Some 5) (Some 1)))
           ["2022-05-01T1:02:03Z"; "2022-05-01T00:00:00,5Z";
            "2022-05-01T00:00:00+24:00"; "2022-05-01T00:00:00+00:60";
            "2022-05-01T23:59:59.999999999-07:00"]
      /\ Forall (fun s => fuzzyDateOf s = None)
           [EmptyString; "2022-05-01"; "2023-02-29T00:00:00Z"; "2022-05-01t00:00:00Z";
            "2022-05-01T24:00:00Z"; "2022-05-01T00:00:60Z"; "2022-05-01T00:00:00+25:00";
            "2022-05-01T00:00:00"; "2022-5-01T00:00:00Z"; "2022-05-01 00:00:00Z"])
  /\ (forall h t h' o args res,
      SyncListData h = (t, h', o) ->
      In (EvUpdateMediaListEntry args res) t ->
      exists item rows se l,
        syncReady h item rows /\ In se rows /\ isUpdated se = true
        /\ rowListData se = Some l /\ args = pushArgs se l)
  /\ (forall h item rows t h' o se l,
      syncReady h item rows ->
      Forall hasTypedEntry (filter isUpdated rows) ->
      SyncListData h = (t, h', o) ->
      In se rows -> isUpdated se = true -> rowListData se = Some l ->
      In (pushArgs se l) (remoteArgs t)).
Proof.
  assert (Hsound : forall s tm,
            time_Parse s = Some tm ->
            exists st, stampOk st = true /\ s = stampText st /\ dateOf tm = stampDate st).
  { intros s tm E. destruct (time_Parse_sound _ E) as (st & Hok & Es & Hy & Hm & Hd).
    exists st. split; [exact Hok|]. split; [exact Es|].
    unfold dateOf, stampDate. now rewrite Hy, Hm, Hd. }
  assert (Hcomplete : forall st,
            stampOk st = true ->
            exists tm, time_Parse (stampText st) = Some tm /\ dateOf tm = stampDate st).
  { intros st Hok. destruct (time_Parse_complete st Hok) as (tm & E & Hy & Hm & Hd).
    exists tm. split; [exact E|]. unfold dateOf, stampDate. now rewrite Hy, Hm, Hd. }
  assert (Hstamp : forall s d,
            fuzzyDateOf s = Some d
            <-> exists st, stampOk st = true /\ s = stampText st /\ d = stampDate st).
  { intros s d. rewrite fuzzyDateOf_Some. split.
    - intros (_ & tm & E & ->). destruct (Hsound _ _ E) as (st & Hok & Es & Hd).
      exists st. auto.
    - intros (st & Hok & -> & ->). destruct (Hcomplete st Hok) as (tm & E & Hd).
      split; [|exists tm; auto].
      intros Hempty. rewrite Hempty in E. discriminate E. }
  split; [|split; [|split; [|split; [|split; [|split; [|split; [|split]]]]]]].
  - intros se l d. apply fuzzyDateOf_Some.
  - intros se l d. apply fuzzyDateOf_Some.
  - intros se l. split; apply fuzzyDateOf_None.
  - exact Hsound.
  - exact Hcomplete.
  - intros se l d. split; apply Hstamp.
  - split; [reflexivity|]. split; repeat constructor.
  - intros h t h' o args res E Hin. exact (SyncListData_calls _ _ _ E Hin).
  - intros h item rows t h' o se l Hready Hall E Hse Hup Hl.
    destruct (SyncListData_exact_calls Hready Hall E) as [-> _].
    apply in_pushesOf; [|exact Hl]. apply filter_In. auto.
Qed.

End Pass.

Lemma SyncListData_pushes_edited_rows_witness :
  let h := Scenario.onlineHub Scenario.clientOk Scenario.store in
  remoteArgs (traceOf (SyncListData h))
  = pushesOf (filter isUpdated [Scenario.row100; Scenario.row200])
  /\ pushedIn (traceOf (SyncListData h)) Scenario.row100.
Proof.
  pose (h := Scenario.onlineHub Scenario.clientOk Scenario.store).
  assert (Hready : syncReady h Scenario.item1 [Scenario.row100; Scenario.row200]).
  { repeat split. }
  assert (Hall : Forall hasTypedEntry (filter isUpdated [Scenario.row100; Scenario.row200])).
  { repeat constructor. discriminate. }
  destruct (SyncListData_pushes_edited_rows (h := h) Hready
              (t := traceOf (SyncListData h)) (h' := hubOf (SyncListData h))
              (o := outcomeOf (SyncListData h)) eq_refl) as (_ & Hexact & _).
  destruct (Hexact Hall) as [Hargs Hpushed].
  split; [exact Hargs|].
  apply Hpushed; [now left|discriminate|discriminate].
Defined.

(** The rows a pass reads from the sample store. *)
Lemma syncReady_sample client item rows :
  syncReady (Scenario.onlineHub client Scenario.store) item rows ->
  item = Scenario.item1 /\ rows = [Scenario.row100; Scenario.row200].
Proof.
  intros (_ & Hl & _ & _ & Hr).
  injection Hl as <-. injection Hr as <-. split; reflexivity.
Qed.

Lemma SyncListData_score_times_ten_witness :
  let h := Scenario.onlineHub Scenario.clientDown Scenario.store in
  let args := pushArgs Scenario.row100 Scenario.listData100 in
  let res := Some (ErrClient "network unreachable") in
  In (EvUpdateMediaListEntry args res) (traceOf (SyncListData h))
  /\ argScore args = 10 * 7
  /\ In (EvUpdateMediaListEntry args None)
       (traceOf (SyncListData (set_anilistClientWrapper Scenario.clientOk
                                 (hubOf (SyncListData h))))).
Proof.
  intros h args res.
  assert (Hin : In (EvUpdateMediaListEntry args res) (traceOf (SyncListData h))).
  { right. right. right. left. reflexivity. }
  split; [exact Hin|]. split.
  - destruct (SyncListData_score_times_ten h (t := traceOf (SyncListData h))
                (h' := hubOf (SyncListData h)) (o := outcomeOf (SyncListData h)) eq_refl)
      as (Hcalls & _).
    destruct (Hcalls args res Hin) as (item & rows & se & l & Hr & Hse & Hup & Hl & Ha & Hscore).
    apply syncReady_sample in Hr as [-> ->].
    destruct Hse as [<-|[<-|[]]]; [|discriminate].
    injection Hl as <-. apply Hscore. cbn. lia.
  - right. right. right. left. reflexivity.
Defined.

Lemma SyncListData_success_witness :
  let h := Scenario.onlineHub Scenario.clientOk Scenario.store in
  outcomeOf (SyncListData h) = Returned None
  /\ offlineDb (hubOf (SyncListData h)) = ListDb.mkState [] [] 40
  /\ filter isDbWrite (traceOf (SyncListData h)) = [EvDbDeleteSnapshot 1]
  /\ sentEvents (traceOf (SyncListData h))
     = [RefreshedAnilistCollection; RefreshedAnilistMangaCollection].
Proof.
  intros h.
  assert (Hready : syncReady h Scenario.item1 [Scenario.row100; Scenario.row200])
    by (repeat split).
  assert (Hne : filter isUpdated [Scenario.row100; Scenario.row200] <> [])
    by discriminate.
  assert (Hnp : outcomeOf (SyncListData h) <> Panicked) by discriminate.
  assert (Hok : Forall (fun r : goerror => r = None)
                  (remoteResults (traceOf (SyncListData h))))
    by (repeat constructor).
  destruct (SyncListData_success (h := h) Hready Hne
              (t := traceOf (SyncListData h)) (h' := hubOf (SyncListData h))
              eq_refl Hnp Hok) as (Ho & Hh & _ & Hw & Hs).
  split; [exact Ho|]. split; [rewrite Hh; reflexivity|]. split; assumption.
Defined.

Lemma SyncListData_dates_witness :
  argStartDate (pushArgs Scenario.row100 Scenario.listData100)
  = Some (mkFuzzyDateInput (Some 2022) (Some 5) (Some 1))
  /\ argEndDate (pushArgs Scenario.row100 Scenario.listData100) = None
  /\ argStartDate (pushArgs Scenario.row100
                     (set_StartedAt "2022-05-01T1:02:03,5+24:00" Scenario.listData100))
     = Some (mkFuzzyDateInput (Some 2022) (Some 5) (Some 1))
  /\ In (pushArgs Scenario.row100 Scenario.listData100)
       (remoteArgs (traceOf (SyncListData
                               (Scenario.onlineHub Scenario.clientOk Scenario.store)))).
Proof.
  destruct (@SyncListData_dates ListDb.codec ListDb.database)
    as (Hstart & _ & Hnone & _ & _ & Hstamp & _ & _ & Hpush).
  split; [|split; [|split]].
  - apply Hstart. split; [discriminate|].
    exists (mkTime 2022 5 1 0 0 0 0 0). split; reflexivity.
  - apply (proj2 (Hnone Scenario.row100 Scenario.listData100)). left. reflexivity.
  - apply (proj1 (Hstamp Scenario.row100 _ _)).
    exists (mkStamp 2022 5 1 1 2 3 true ",5" (ZoneEast 24 0)).
    split; [reflexivity|]. split; reflexivity.
  - pose (h := Scenario.onlineHub Scenario.clientOk Scenario.store).
    apply (Hpush h Scenario.item1 [Scenario.row100; Scenario.row200]
             (traceOf (SyncListData h)) (hubOf (SyncListData h))
             (outcomeOf (SyncListData h))).
    + repeat split.
    + repeat constructor. discriminate.
    + reflexivity.
    + now left.
    + reflexivity.
    + reflexivity.
Defined.

(** ** Statements and their traces *)

Section Bodies.
Context {codec : EntryCodec} {database : Database}.

Lemma GetLatestSnapshot_run {R} (h : Hub) :
  @GetLatestSnapshot _ _ R h
  = (latestTrace (offlineDb h), h, Next (latestSnapshotOf (offlineDb h))).
Proof.
  unfold GetLatestSnapshot, latestTrace, latestSnapshotOf.
  cbv [bind callGetLatestSnapshot callGetSnapshotMediaEntries emit getHub ret].
  destruct (db_GetLatestSnapshot (offlineDb h)) as [[item|]|e]; try reflexivity.
  destruct (db_GetSnapshotMediaEntries (ItemID item) (offlineDb h)); reflexivity.
Qed.

Lemma loadCurrentSnapshot_run (h : Hub) :
  loadCurrentSnapshot h
  = match currentSnapshot h with
    | Some s => ([], h, Next s)
    | None =>
        match latestSnapshotOf (offlineDb h) with
        | OkR s => (latestTrace (offlineDb h), set_currentSnapshot (Some s) h, Next s)
        | ErrR _ => (latestTrace (offlineDb h), h,
                     Return (Some (ErrNew "snapshot not found")))
        end
    end.
Proof.
  unfold loadCurrentSnapshot. unfold bind at 1. unfold getHub at 1. cbv iota.
  destruct (currentSnapshot h) as [s|] eqn:Ec.
  - cbv [bind ret getHub deref]. rewrite Ec. reflexivity.
  - unfold bind at 1. unfold bind at 1. rewrite GetLatestSnapshot_run.
    destruct (latestSnapshotOf (offlineDb h)) as [s|e].
    + cbv [storeCurrentSnapshot bind getHub putHub deref ret set_currentSnapshot currentSnapshot].
      rewrite !app_nil_r. reflexivity.
    + cbv [return_]. rewrite app_nil_r. reflexivity.
Qed.

Lemma refreshCurrentSnapshot_run (h : Hub) :
  refreshCurrentSnapshot h
  = match latestSnapshotOf (offlineDb h) with
    | OkR s => (latestTrace (offlineDb h), set_currentSnapshot (Some s) h, Next None)
    | ErrR e => (latestTrace (offlineDb h), h, Return (Some e))
    end.
Proof.
  unfold refreshCurrentSnapshot. unfold bind at 1. rewrite GetLatestSnapshot_run.
  destruct (latestSnapshotOf (offlineDb h)) as [s|e].
  - cbv [orReturnErr storeCurrentSnapshot bind getHub putHub ret].
    rewrite !app_nil_r. reflexivity.
  - cbv [orReturnErr bind return_]. rewrite app_nil_r. reflexivity.
Qed.

Lemma latestTrace_reads d : Forall (fun e => isDbRead e = true) (latestTrace d).
Proof.
  unfold latestTrace.
  destruct (db_GetLatestSnapshot d) as [[item|]|e]; repeat constructor.
Qed.

(** *** Rules for [traceAll] *)

Lemma traceAll_ret {R A} P (a : A) : traceAll P (@ret _ _ R A a).
Proof. intros h. constructor. Qed.

Lemma traceAll_return {R A} P (r : R) : traceAll P (@return_ _ _ R A r).
Proof. intros h. constructor. Qed.

Lemma traceAll_panic {R A} P : traceAll P (@panic _ _ R A).
Proof. intros h. constructor. Qed.

Lemma traceAll_getHub {R} P : traceAll P (@getHub _ _ R).
Proof. intros h. constructor. Qed.

Lemma traceAll_putHub {R} P h' : traceAll P (@putHub _ _ R h').
Proof. intros h. constructor. Qed.

Lemma traceAll_emit {R} (P : event -> Prop) e : P e -> traceAll P (@emit _ _ R e).
Proof. intros He h. repeat constructor. exact He. Qed.

Lemma traceAll_bind {R A B} P (m : M R A) (f : A -> M R B) :
  traceAll P m -> (forall a, traceAll P (f a)) -> traceAll P (bind m f).
Proof.
  intros Hm Hf h. unfold bind. specialize (Hm h).
  destruct (m h) as [[t1 h1] s]. cbn in Hm.
  destruct s as [a| |]; cbn; auto.
  specialize (Hf a h1). destruct (f a h1) as [[t2 h2] s2]. cbn in *.
  apply Forall_app. auto.
Qed.

Lemma traceAll_deref {R A} P (p : option A) : traceAll P (@deref _ _ R A p).
Proof. destruct p; [apply traceAll_ret|apply traceAll_panic]. Qed.

End Bodies.

(** Decomposes a statement along its binds and case analyses; what is
    left are the events, to be checked against the predicate. *)
Ltac trace_all :=
  repeat first
    [ apply traceAll_ret
    | apply traceAll_return
    | apply traceAll_panic
    | apply traceAll_getHub
    | apply traceAll_putHub
    | apply traceAll_deref
    | apply traceAll_emit
    | apply traceAll_bind; [|intros ?]
    | match goal with
      | |- traceAll _ (match ?x with _ => _ end) => destruct x
      end
    | progress unfold GetLatestSnapshot, loadCurrentSnapshot, refreshCurrentSnapshot,
        storeCurrentSnapshot, orReturnErr, assignFields, assignField,
        callGetLatestSnapshot, callGetSnapshotMediaEntry, callGetSnapshotMediaEntries,
        callUpdateSnapshotMediaEntryT, callDeleteSnapshot,
        callGetAnimeEntry, callGetMangaEntry ].

(** ** The lock *)

Section Lock.
Context {codec : EntryCodec} {database : Database}.

Lemma locked_holdsLock {R} (body : M R R) h :
  traceAll (fun e => isLockEvent e = false) body ->
  holdsLock (traceOf (locked body h)).
Proof.
  intros Hb. specialize (Hb h). unfold locked, traceOf.
  destruct (body h) as [[t h'] s]. cbn in *.
  exists t. split; [reflexivity|exact Hb].
Qed.

Lemma SyncListData_lock_free h :
  Forall (fun e => isLockEvent e = false) (traceOf (SyncListData h)).
Proof.
  destruct (SyncListData h) as [[t h'] o] eqn:E. unfold traceOf. cbn.
  assert (Hloop : forall tl, Forall (fun e => isLoopEvent e = true) tl ->
                             Forall (fun e => isLockEvent e = false) tl).
  { intros tl. apply Forall_impl. intros e He. now destruct e. }
  assert (Hread : forall tl, Forall (fun e => isDbRead e = true) tl ->
                             Forall (fun e => isLockEvent e = false) tl).
  { intros tl. apply Forall_impl. intros e He. now destruct e. }
  destruct (SyncListData_shape _ E) as [(_ & Hr & _)|(item & rows & tl & s & _ & _ & El & Hs)].
  - now apply Hread.
  - destruct (syncEntries_any _ _ _ _ El) as (_ & Hl & _).
    apply Hloop in Hl.
    destruct Hs as [(_ & -> & _)|[(e & _ & -> & _)|(_ & -> & _)]];
      repeat (apply Forall_app; split); auto; repeat constructor.
Qed.

(** C8, as stated, fails for [SyncListData]: its trace on the sample hub
    contains a call to the client and does not hold the lock. *)
Lemma SyncListData_does_not_lock :
  let t := traceOf (SyncListData (Scenario.onlineHub Scenario.clientOk Scenario.store)) in
  remoteArgs t = [pushArgs Scenario.row100 Scenario.listData100]
  /\ ~ holdsLock t.
Proof.
  split; [reflexivity|].
  intros (body & Ht & _). vm_compute in Ht. discriminate.
Qed.

(** C8, amended.  [GetCurrentSnapshot], [RetrieveCurrentSnapshot] and the
    three update operations take the hub's lock first and release it last,
    when they return and when they panic, with every database call in
    between.  [SyncListData] never takes the lock: no event of its trace,
    reads, calls to the client and deletion included, is a lock
    operation. *)
Theorem lock_discipline :
  (forall h, holdsLock (traceOf (GetCurrentSnapshot h)))
  /\ (forall h, holdsLock (traceOf (RetrieveCurrentSnapshot h)))
  /\ (forall mediaId progress status h,
      holdsLock (traceOf (UpdateAnimeListStatus mediaId progress status h)))
  /\ (forall mediaId status score progress startDate endDate t h,
      holdsLock (traceOf (UpdateEntryListData mediaId status score progress
                            startDate endDate t h)))
  /\ (forall mediaId progress status h,
      holdsLock (traceOf (UpdateMangaListStatus mediaId progress status h)))
  /\ (forall h, Forall (fun e => isLockEvent e = false) (traceOf (SyncListData h))).
Proof.
  repeat split; intros.
  - apply locked_holdsLock. trace_all; reflexivity.
  - apply locked_holdsLock. trace_all; reflexivity.
  - apply locked_holdsLock. trace_all; reflexivity.
  - apply locked_holdsLock. trace_all; reflexivity.
  - apply locked_holdsLock. trace_all; reflexivity.
  - apply SyncListData_lock_free.
Qed.

End Lock.

(** ** [UpdateEntryListData] *)

Section EntryListData.
Context {codec : EntryCodec} {database : Database}.

Lemma eqb_other t s : t <> s -> String.eqb t s = false.
Proof. intros H. now apply String.eqb_neq. Qed.

(** The run of [UpdateEntryListData] for a type that is neither "anime"
    nor "manga". *)
Lemma UpdateEntryListData_other_run t mediaId status score progress startDate endDate h :
  t <> "anime" -> t <> "manga" ->
  UpdateEntryListData (Some mediaId) status score progress startDate endDate t h
  = match workingSnapshot h with
    | ErrR _ =>
        (EvLock :: latestTrace (offlineDb h) ++ [EvUnlock], h,
         Returned (Some (ErrNew "snapshot not found")))
    | OkR snap =>
        let pre := match currentSnapshot h with
                   | Some _ => []
                   | None => latestTrace (offlineDb h)
                   end in
        let h1 := match currentSnapshot h with
                  | Some _ => h
                  | None => set_currentSnapshot (Some snap) h
                  end in
        let lookup := EvDbGetSnapshotMediaEntry mediaId (DbId snap) in
        match db_GetSnapshotMediaEntry mediaId (DbId snap) (offlineDb h) with
        | ErrR e => (EvLock :: (pre ++ [lookup]) ++ [EvUnlock], h1, Returned (Some e))
        | OkR _ =>
            match latestSnapshotOf (offlineDb h) with
            | OkR s' =>
                (EvLock :: (pre ++ lookup :: latestTrace (offlineDb h)) ++ [EvUnlock],
                 set_currentSnapshot (Some s') h, Returned None)
            | ErrR e =>
                (EvLock :: (pre ++ lookup :: latestTrace (offlineDb h)) ++ [EvUnlock],
                 h1, Returned (Some e))
            end
        end
    end.
Proof.
  intros Ha Hm.
  unfold UpdateEntryListData, locked, workingSnapshot.
  rewrite (eqb_other Ha), (eqb_other Hm).
  cbv [bind deref ret callGetSnapshotMediaEntry emit getHub orReturnErr return_].
  rewrite loadCurrentSnapshot_run.
  destruct (currentSnapshot h) as [s|] eqn:Ec.
  - cbn [app].
    destruct (db_GetSnapshotMediaEntry mediaId (DbId s) (offlineDb h)) as [se|e];
      [|reflexivity].
    rewrite refreshCurrentSnapshot_run.
    destruct (latestSnapshotOf (offlineDb h)) as [s'|e]; reflexivity.
  - destruct (latestSnapshotOf (offlineDb h)) as [s|e] eqn:El.
    + cbn [offlineDb set_currentSnapshot app].
      destruct (db_GetSnapshotMediaEntry mediaId (DbId s) (offlineDb h)) as [se|e].
      * rewrite refreshCurrentSnapshot_run. cbn [offlineDb set_currentSnapshot].
        rewrite El. cbn. rewrite ?app_nil_r. reflexivity.
      * cbn. rewrite ?app_nil_r. reflexivity.
    + reflexivity.
Qed.

(** C10. For a type that is neither "anime" nor "manga" and a non-nil
    media id, [UpdateEntryListData] leaves the database as it was; its trace
    has no write and no decoding; the field arguments play no part; it
    returns nil, unless the snapshot cannot be loaded ("snapshot not
    found") or the database reports an error on the lookup of the row or
    on the reload, which is returned; and when the working snapshot, the
    row and the reload are there, it returns nil and the hub differs only
    by its cache, now the latest snapshot of the database. *)
Theorem UpdateEntryListData_unknown_type
    t mediaId status score progress startDate endDate h :
  t <> "anime" -> t <> "manga" ->
  let run := UpdateEntryListData (Some mediaId) status score progress
               startDate endDate t h in
  offlineDb (hubOf run) = offlineDb h
  /\ Forall (fun e => isDbWrite e = false /\ isDecode e = false) (traceOf run)
  /\ run = UpdateEntryListData (Some mediaId) None None None None None t h
  /\ (outcomeOf run = Returned None
      \/ ((exists e, workingSnapshot h = ErrR e)
          /\ outcomeOf run = Returned (Some (ErrNew "snapshot not found")))
      \/ (exists snap e,
            workingSnapshot h = OkR snap
            /\ db_GetSnapshotMediaEntry mediaId (DbId snap) (offlineDb h) = ErrR e
            /\ outcomeOf run = Returned (Some e))
      \/ (exists e, latestSnapshotOf (offlineDb h) = ErrR e
                    /\ outcomeOf run = Returned (Some e)))
  /\ (forall snap se s',
      workingSnapshot h = OkR snap ->
      db_GetSnapshotMediaEntry mediaId (DbId snap) (offlineDb h) = OkR se ->
      latestSnapshotOf (offlineDb h) = OkR s' ->
      outcomeOf run = Returned None /\ hubOf run = set_currentSnapshot (Some s') h).
Proof.
  intros Ha Hm run.
  assert (Hreads : forall tl, Forall (fun e => isDbRead e = true) tl ->
            Forall (fun e => isDbWrite e = false /\ isDecode e = false) tl).
  { intros tl. apply Forall_impl. intros e He. now destruct e. }
  pose proof (Hreads _ (latestTrace_reads (offlineDb h))) as Hlt.
  assert (Hlock : forall tl,
            Forall (fun e => isDbWrite e = false /\ isDecode e = false) tl ->
            Forall (fun e => isDbWrite e = false /\ isDecode e = false)
              (EvLock :: tl ++ [EvUnlock])).
  { intros tl Htl. constructor; [now split|].
    apply Forall_app. split; [exact Htl|]. repeat constructor. }
  split; [|split; [|split; [|split]]].
  3:{ subst run. now rewrite !UpdateEntryListData_other_run. }
  all: subst run; rewrite UpdateEntryListData_other_run by assumption;
       unfold workingSnapshot.
  - destruct (currentSnapshot h) as [s|];
      [|destruct (latestSnapshotOf (offlineDb h)) as [s|e] eqn:El; [|reflexivity]];
      cbv zeta;
      (destruct (db_GetSnapshotMediaEntry mediaId (DbId s) (offlineDb h));
       [rewrite ?El; destruct (latestSnapshotOf (offlineDb h))|]); reflexivity.
  - destruct (currentSnapshot h) as [s|];
      [|destruct (latestSnapshotOf (offlineDb h)) as [s|e] eqn:El;
        [|apply Hlock; exact Hlt]];
      cbv zeta;
      (destruct (db_GetSnapshotMediaEntry mediaId (DbId s) (offlineDb h));
       [rewrite ?El; destruct (latestSnapshotOf (offlineDb h))|]);
      apply Hlock; repeat (apply Forall_app; split); auto; repeat constructor; auto.
  - destruct (currentSnapshot h) as [s|] eqn:Ec.
    + cbv zeta.
      destruct (db_GetSnapshotMediaEntry mediaId (DbId s) (offlineDb h)) as [se|e] eqn:Eg.
      * destruct (latestSnapshotOf (offlineDb h)) as [s'|e] eqn:El; [now left|].
        right. right. right. exists e. split; reflexivity.
      * right. right. left. exists s, e. repeat split; auto.
    + destruct (latestSnapshotOf (offlineDb h)) as [s|e] eqn:El.
      * cbv zeta.
        destruct (db_GetSnapshotMediaEntry mediaId (DbId s) (offlineDb h)) as [se|e] eqn:Eg.
        -- now left.
        -- right. right. left. exists s, e. repeat split; auto.
      * right. left. split; [now exists e|reflexivity].
  - intros snap se s' Hw Hg Hl.
    destruct (currentSnapshot h) as [s|] eqn:Ec.
    + injection Hw as ->. cbv zeta. rewrite Hg, Hl. split; reflexivity.
    + assert (s' = snap) as -> by congruence.
      rewrite Hw. cbv zeta. rewrite Hg. split; reflexivity.
Qed.

(** *** Panics *)

Lemma neverPanics_ret {R A} (a : A) : neverPanics (@ret _ _ R A a).
Proof. intros h. discriminate. Qed.

Lemma neverPanics_return {R A} (r : R) : neverPanics (@return_ _ _ R A r).
Proof. intros h. discriminate. Qed.

Lemma neverPanics_emit {R} e : neverPanics (@emit _ _ R e).
Proof. intros h. discriminate. Qed.

Lemma neverPanics_getHub {R} : neverPanics (@getHub _ _ R).
Proof. intros h. discriminate. Qed.

Lemma neverPanics_putHub {R} h' : neverPanics (@putHub _ _ R h').
Proof. intros h. discriminate. Qed.

Lemma neverPanics_bind {R A B} (m : M R A) (f : A -> M R B) :
  neverPanics m -> (forall a, neverPanics (f a)) -> neverPanics (bind m f).
Proof.
  intros Hm Hf h. unfold bind. specialize (Hm h).
  destruct (m h) as [[t1 h1] s]. cbn in Hm.
  destruct s as [a| |]; cbn; [|discriminate|contradiction].
  specialize (Hf a h1). destruct (f a h1) as [[t2 h2] s2]. exact Hf.
Qed.

Lemma neverPanics_loadCurrentSnapshot : neverPanics loadCurrentSnapshot.
Proof.
  intros h. rewrite loadCurrentSnapshot_run.
  destruct (currentSnapshot h); [discriminate|].
  destruct (latestSnapshotOf (offlineDb h)); discriminate.
Qed.

Lemma neverPanics_refreshCurrentSnapshot : neverPanics refreshCurrentSnapshot.
Proof.
  intros h. rewrite refreshCurrentSnapshot_run.
  destruct (latestSnapshotOf (offlineDb h)); discriminate.
Qed.

End EntryListData.

Ltac never_panics :=
  repeat first
    [ apply neverPanics_ret
    | apply neverPanics_return
    | apply neverPanics_emit
    | apply neverPanics_getHub
    | apply neverPanics_putHub
    | apply neverPanics_loadCurrentSnapshot
    | apply neverPanics_refreshCurrentSnapshot
    | apply neverPanics_bind; [|intros ?]
    | match goal with
      | |- neverPanics (match ?x with _ => _ end) => destruct x
      end
    | progress unfold orReturnErr, assignFields, assignField,
        callGetSnapshotMediaEntry, callUpdateSnapshotMediaEntryT,
        callGetAnimeEntry, callGetMangaEntry ].

Section MediaIdPointer.
Context {codec : EntryCodec} {database : Database}.

(** C9. [UpdateEntryListData] follows its [mediaId] pointer before any
    check: with a nil [mediaId] it panics, whatever the other arguments and
    the hub, having only taken and released the lock; with a non-nil
    [mediaId] and every other pointer nil it never panics. *)
Theorem UpdateEntryListData_mediaId_pointer :
  (forall status score progress startDate endDate t h,
     UpdateEntryListData None status score progress startDate endDate t h
     = ([EvLock; EvUnlock], h, Panicked))
  /\ (forall mediaId t h,
      outcomeOf (UpdateEntryListData (Some mediaId) None None None None None t h)
      <> Panicked).
Proof.
  split.
  - reflexivity.
  - intros mediaId t h.
    assert (Hbody : forall {R} (body : M R R),
              neverPanics body -> outcomeOf (locked body h) <> Panicked).
    { intros R body Hb. specialize (Hb h). unfold locked, outcomeOf.
      destruct (body h) as [[tr h'] s]. cbn in *.
      destruct s; [discriminate|discriminate|contradiction]. }
    apply Hbody. cbn [deref]. never_panics.
Qed.

End MediaIdPointer.

Lemma UpdateEntryListData_unknown_type_witness :
  let h := Scenario.onlineHub Scenario.clientOk Scenario.store in
  let run := UpdateEntryListData (Some 100) (Some "COMPLETED") (Some 10) (Some 24)
               None None "novel" h in
  offlineDb (hubOf run) = Scenario.store
  /\ outcomeOf run = Returned None
  /\ hubOf run
     = set_currentSnapshot (Some (mkSnapshot 1 [Scenario.row100; Scenario.row200])) h.
Proof.
  intros h run.
  assert (Ha : "novel" <> "anime") by discriminate.
  assert (Hm : "novel" <> "manga") by discriminate.
  destruct (@UpdateEntryListData_unknown_type _ _ "novel" 100 (Some "COMPLETED")
              (Some 10) (Some 24) None None h Ha Hm) as (Hdb & _ & _ & _ & Hok).
  split; [exact Hdb|].
  apply (Hok (mkSnapshot 1 [Scenario.row100; Scenario.row200]) Scenario.row100);
    reflexivity.
Defined.

(** ** The status updates *)

(** Walks through the body of a status update that returned nil: every
    branch that returns an error or panics is discarded. *)
Ltac update_step :=
  cbv beta iota zeta delta [panic];
  cbn [offlineDb set_currentSnapshot set_offlineDb].

Ltac update_success decode marshal h mediaId progress status s :=
  destruct (db_GetSnapshotMediaEntry mediaId (DbId s) (offlineDb h)) as [se|?] eqn:Eg;
  update_step; [|discriminate];
  destruct (decode se) as [entry|] eqn:Ed; update_step; [|discriminate];
  destruct (EntryListData entry) as [l|] eqn:El; update_step; [|discriminate];
  destruct (db_UpdateSnapshotMediaEntryT
              (set_Value
                 (marshal (set_EntryListData (set_Status status (set_Progress progress l))
                             entry))
                 se)
              (offlineDb h)) as [d' [r|?]] eqn:Eu;
  update_step; [|discriminate];
  rewrite refreshCurrentSnapshot_run; update_step;
  destruct (latestSnapshotOf d') as [snap'|?] eqn:El'; update_step; [|discriminate];
  intros [= _ <-];
  exists s, se, entry, l, d', r, snap'; repeat split; auto.

Section StatusUpdates.
Context {codec : EntryCodec} {database : Database}.

(** What a successful [UpdateAnimeListStatus] went through. *)
Lemma UpdateAnimeListStatus_success h mediaId progress status t h' :
  UpdateAnimeListStatus mediaId progress status h = (t, h', Returned None) ->
  exists snap se entry l d' r snap',
    workingSnapshot h = OkR snap
    /\ db_GetSnapshotMediaEntry mediaId (DbId snap) (offlineDb h) = OkR se
    /\ GetAnimeEntry se = Some entry
    /\ EntryListData entry = Some l
    /\ db_UpdateSnapshotMediaEntryT
         (set_Value (MarshalAnime
                       (set_EntryListData (set_Status status (set_Progress progress l)) entry))
            se) (offlineDb h) = (d', OkR r)
    /\ latestSnapshotOf d' = OkR snap'
    /\ h' = mkHub (anilistClientWrapper h) d' (isOffline h) (Some snap').
Proof.
  unfold UpdateAnimeListStatus, locked, workingSnapshot.
  cbv [bind callGetSnapshotMediaEntry callGetAnimeEntry callUpdateSnapshotMediaEntryT
       emit getHub putHub ret return_ orReturnErr deref].
  rewrite loadCurrentSnapshot_run.
  destruct (currentSnapshot h) as [s|] eqn:Ec;
    [|destruct (latestSnapshotOf (offlineDb h)) as [s|e] eqn:Elatest;
      cbv beta iota zeta; [|discriminate]];
    update_step;
    update_success GetAnimeEntry MarshalAnime h mediaId progress status s.
Qed.

(** What a successful [UpdateMangaListStatus] went through. *)
Lemma UpdateMangaListStatus_success h mediaId progress status t h' :
  UpdateMangaListStatus mediaId progress status h = (t, h', Returned None) ->
  exists snap se entry l d' r snap',
    workingSnapshot h = OkR snap
    /\ db_GetSnapshotMediaEntry mediaId (DbId snap) (offlineDb h) = OkR se
    /\ GetMangaEntry se = Some entry
    /\ EntryListData entry = Some l
    /\ db_UpdateSnapshotMediaEntryT
         (set_Value (MarshalManga
                       (set_EntryListData (set_Status status (set_Progress progress l)) entry))
            se) (offlineDb h) = (d', OkR r)
    /\ latestSnapshotOf d' = OkR snap'
    /\ h' = mkHub (anilistClientWrapper h) d' (isOffline h) (Some snap').
Proof.
  unfold UpdateMangaListStatus, locked, workingSnapshot.
  cbv [bind callGetSnapshotMediaEntry callGetMangaEntry callUpdateSnapshotMediaEntryT
       emit getHub putHub ret return_ orReturnErr deref].
  rewrite loadCurrentSnapshot_run.
  destruct (currentSnapshot h) as [s|] eqn:Ec;
    [|destruct (latestSnapshotOf (offlineDb h)) as [s|e] eqn:Elatest;
      cbv beta iota zeta; [|discriminate]];
    update_step;
    update_success GetMangaEntry MarshalManga h mediaId progress status s.
Qed.

Lemma latestSnapshotOf_inv d snap :
  latestSnapshotOf d = OkR snap ->
  exists item,
    db_GetLatestSnapshot d = OkR (Some item)
    /\ DbId snap = ItemID item
    /\ db_GetSnapshotMediaEntries (ItemID item) d = OkR (Entries snap).
Proof.
  unfold latestSnapshotOf.
  destruct (db_GetLatestSnapshot d) as [[item|]|e]; try discriminate.
  destruct (db_GetSnapshotMediaEntries (ItemID item) d) as [rows|e] eqn:Er;
    [|discriminate].
  intros [= <-]. exists item. auto.
Qed.

(** The snapshot an update works on carries the id of the latest snapshot
    row, when the cache is coherent. *)
Lemma workingSnapshot_latest h snap :
  cacheCoherent h -> workingSnapshot h = OkR snap ->
  exists item, db_GetLatestSnapshot (offlineDb h) = OkR (Some item)
               /\ DbId snap = ItemID item.
Proof.
  unfold cacheCoherent, workingSnapshot, latestItem.
  destruct (currentSnapshot h) as [s|].
  - intros (item & Hl & Hid) [= <-]. exists item. split; [|exact Hid].
    destruct (db_GetLatestSnapshot (offlineDb h)) as [[i|]|e]; congruence.
  - intros _ Hl. destruct (latestSnapshotOf_inv _ Hl) as (item & ? & ? & _).
    exists item. auto.
Qed.

Context {laws : DatabaseLaws database}.

Lemma Forall2_In_l {A B} (R : A -> B -> Prop) l l' x :
  Forall2 R l l' -> In x l -> exists y, In y l' /\ R x y.
Proof.
  induction 1 as [|a b l l' Hab _ IH]; intros Hin; [contradiction|].
  destruct Hin as [->|Hin].
  - exists b. split; [now left|exact Hab].
  - destruct (IH Hin) as (y & Hy & Hxy). exists y. split; [now right|exact Hxy].
Qed.

(** From the steps of a successful update to its frame. *)
Lemma statusFrame_intro {Rest} (decode : SnapshotMediaEntry -> option (Entry Rest))
    (marshal : Entry Rest -> Bytes) h mediaId progress status h' :
  (forall row e, Value row = marshal e -> decode row = Some e) ->
  cacheCoherent h ->
  (exists snap se entry l d' r snap',
     workingSnapshot h = OkR snap
     /\ db_GetSnapshotMediaEntry mediaId (DbId snap) (offlineDb h) = OkR se
     /\ decode se = Some entry
     /\ EntryListData entry = Some l
     /\ db_UpdateSnapshotMediaEntryT
          (set_Value (marshal
                        (set_EntryListData (set_Status status (set_Progress progress l)) entry))
             se) (offlineDb h) = (d', OkR r)
     /\ latestSnapshotOf d' = OkR snap'
     /\ h' = mkHub (anilistClientWrapper h) d' (isOffline h) (Some snap')) ->
  statusFrame decode h mediaId progress status h'.
Proof.
  intros Hdec Hcoh (snap & se & entry & l & d' & r & snap' & Hw & Hg & Hd & Hl & Hu & Hlatest & ->).
  destruct (workingSnapshot_latest _ Hcoh Hw) as (item & Hitem & Hid).
  destruct (latestSnapshotOf_inv _ Hlatest) as (item' & Hitem' & Hid' & Hrows').
  rewrite (update_keeps_latest _ _ Hu), Hitem in Hitem'. injection Hitem' as <-.
  assert (Hsame : DbId snap' = DbId snap) by congruence.
  destruct (update_writes_value _ _ _ Hu Hrows') as (rows & Hrows & Hall).
  rewrite <- Hid in Hrows.
  destruct (lookup_in_entries _ _ _ Hg Hrows) as [Hin Hmedia].
  cbn [ID set_Value Value] in Hall.
  assert (Hframe :
    Forall2
      (fun old new =>
         if ID old =? ID se
         then (exists v, valueWritten v old new)
              /\ holdsUpdate decode entry l progress status new
         else new = old)
      rows (Entries snap')).
  { eapply Forall2_impl; [|exact Hall].
    intros old new Hon. cbv beta in *.
    destruct (ID old =? ID se); [|exact Hon].
    destruct Hon as (H1 & H2 & H3 & H4 & H5 & H6).
    split.
    - eexists. repeat split; eauto.
    - exists (set_Status status (set_Progress progress l)).
      split; [apply Hdec; exact H6|repeat split]. }
  exists snap', se, entry, l, rows. rewrite Hsame.
  split; [reflexivity|]. split; [exact Hlatest|]. split; [exact Hg|].
  split; [exact Hmedia|]. split; [exact Hd|]. split; [exact Hl|].
  split; [exact Hrows|]. split; [exact Hin|]. split; [exact Hframe|].
  destruct (@Forall2_In_l _ _ _ _ _ _ Hframe Hin) as (new & Hnew & Hrel).
  rewrite Z.eqb_refl in Hrel. destruct Hrel as [(v & Hv) Hup].
  exists new. split; [exact Hnew|].
  destruct Hv as (Hv1 & _ & Hv3 & _). split; [exact Hv1|].
  split; [congruence|exact Hup].
Qed.

(** The cache a successful update leaves is coherent again. *)
Lemma statusFrame_coherent {Rest} (decode : SnapshotMediaEntry -> option (Entry Rest))
    h mediaId progress status h' :
  statusFrame decode h mediaId progress status h' -> cacheCoherent h'.
Proof.
  intros (snap' & se & entry & l & rows & Hget & Hlatest & _).
  unfold GetCurrentSnapshot, locked in Hget. cbv [bind getHub return_] in Hget.
  unfold cacheCoherent, latestItem.
  destruct (currentSnapshot h') as [s|]; [|exact I].
  injection Hget as [= ->].
  destruct (latestSnapshotOf_inv _ Hlatest) as (item & Hitem & Hid & _).
  exists item. rewrite Hitem. auto.
Qed.

(** C7. Take a hub whose cache, if any, is the latest snapshot of the
    database, a codec that reads back what it wrote and a database that
    obeys [DatabaseLaws].  After a call of [UpdateAnimeListStatus] that
    returns nil, [GetCurrentSnapshot] returns a snapshot that is the latest
    one of the database (the cache is coherent again); the row found for
    [mediaId] before the call was one of the rows of that snapshot and
    carried list data [l]; the returned snapshot has a row with its key and
    media id that decodes to the same entry with list data of the given
    progress and status and the score, start date and end date of [l]; and
    its rows are those of before, unchanged, except the rows with that
    key.  Likewise for [UpdateMangaListStatus]. *)
Theorem UpdateListStatus_frame {codecLaws : EntryCodecLaws codec}
    h mediaId progress status t h' :
  cacheCoherent h ->
  (UpdateAnimeListStatus mediaId progress status h = (t, h', Returned None) ->
   statusFrame GetAnimeEntry h mediaId progress status h' /\ cacheCoherent h')
  /\ (UpdateMangaListStatus mediaId progress status h = (t, h', Returned None) ->
      statusFrame GetMangaEntry h mediaId progress status h' /\ cacheCoherent h').
Proof.
  intros Hcoh. split; intros E.
  - assert (Hf : statusFrame GetAnimeEntry h mediaId progress status h').
    { apply (statusFrame_intro GetAnimeEntry MarshalAnime); [|exact Hcoh|].
      + intros row e Hv. unfold GetAnimeEntry. rewrite Hv. apply decodeAnime_Marshal.
      + exact (UpdateAnimeListStatus_success _ _ _ _ E). }
    split; [exact Hf|exact (statusFrame_coherent Hf)].
  - assert (Hf : statusFrame GetMangaEntry h mediaId progress status h').
    { apply (statusFrame_intro GetMangaEntry MarshalManga); [|exact Hcoh|].
      + intros row e Hv. unfold GetMangaEntry. rewrite Hv. apply decodeManga_Marshal.
      + exact (UpdateMangaListStatus_success _ _ _ _ E). }
    split; [exact Hf|exact (statusFrame_coherent Hf)].
Qed.

End StatusUpdates.

(** ** The list database obeys the laws *)

Module ListDbFacts.
Import ListDb.

#[export] Instance codec_laws : EntryCodecLaws codec.
Proof. split; reflexivity. Qed.

Lemma filter_map_writeValue se at_ snapshotId rows :
  filter (fun r => SnapshotItemId r =? snapshotId) (map (writeValue se at_) rows)
  = map (writeValue se at_) (filter (fun r => SnapshotItemId r =? snapshotId) rows).
Proof.
  induction rows as [|row rows IH]; [reflexivity|].
  cbn [map filter].
  assert (Hsid : SnapshotItemId (writeValue se at_ row) = SnapshotItemId row).
  { unfold writeValue. destruct (ID row =? ID se); reflexivity. }
  rewrite Hsid. destruct (SnapshotItemId row =? snapshotId); cbn [map]; now rewrite IH.
Qed.

#[export] Instance database_laws : DatabaseLaws database.
Proof.
  split.
  - intros d mediaId snapshotId se rows Hg Hr. cbn in Hg, Hr.
    unfold GetSnapshotMediaEntry in Hg. unfold GetSnapshotMediaEntries in Hr.
    destruct (find _ (entries d)) as [se'|] eqn:Ef; [|discriminate].
    injection Hg as ->. injection Hr as <-.
    apply find_some in Ef as [Hin Hp].
    apply andb_true_iff in Hp as [Hm Hs].
    split; [|now apply Z.eqb_eq].
    apply filter_In. split; assumption.
  - intros d se d' r Hu. cbn in *. unfold UpdateSnapshotMediaEntryT in Hu.
    injection Hu as <- _. reflexivity.
  - intros d se d' r snapshotId rows' Hu Hr'. cbn in *.
    unfold UpdateSnapshotMediaEntryT in Hu. unfold GetSnapshotMediaEntries in *.
    injection Hu as <- _. injection Hr' as <-.
    eexists. split; [reflexivity|].
    cbn [entries]. rewrite filter_map_writeValue.
    induction (filter _ (entries d)) as [|row rows IH]; constructor; [|exact IH].
    unfold writeValue. destruct (ID row =? ID se); repeat split.
Qed.

End ListDbFacts.

Lemma UpdateListStatus_frame_witness :
  let h := Scenario.onlineHub Scenario.clientOk Scenario.store in
  statusFrame GetAnimeEntry h 100 5 "COMPLETED"
    (hubOf (UpdateAnimeListStatus 100 5 "COMPLETED" h))
  /\ statusFrame GetMangaEntry h 200 13 "CURRENT"
       (hubOf (UpdateMangaListStatus 200 13 "CURRENT" h)).
Proof.
  intros h. split.
  - exact (proj1 (proj1 (@UpdateListStatus_frame _ _ ListDbFacts.database_laws
                           ListDbFacts.codec_laws h 100 5 "COMPLETED"
                           (traceOf (UpdateAnimeListStatus 100 5 "COMPLETED" h))
                           (hubOf (UpdateAnimeListStatus 100 5 "COMPLETED" h)) I)
                    eq_refl)).
  - exact (proj1 (proj2 (@UpdateListStatus_frame _ _ ListDbFacts.database_laws
                           ListDbFacts.codec_laws h 200 13 "CURRENT"
                           (traceOf (UpdateMangaListStatus 200 13 "CURRENT" h))
                           (hubOf (UpdateMangaListStatus 200 13 "CURRENT" h)) I)
                    eq_refl)).
Defined.

(** ** Scenarios *)

(** An edit made offline is what the next pass sends: after the score of
    media 200 is set to 8, the stored score is 8 and the pass pushes media
    100 with score 70 and media 200 with score 80. *)
Example edit_then_sync :
  let h := Scenario.onlineHub Scenario.clientOk Scenario.store in
  let edited := hubOf (UpdateEntryListData (Some 200) None (Some 8) None None None "manga" h) in
  option_map Score (rowListData (nth 1 (ListDb.entries (offlineDb edited)) Scenario.row100))
  = Some 8
  /\ map (fun a => (argMediaId a, argScore a)) (remoteArgs (traceOf (SyncListData edited)))
     = [(100, 70); (200, 80)].
Proof. split; reflexivity. Qed.

(** A second pass after a successful one finds no snapshot and calls
    nobody. *)
Example sync_twice :
  let h := Scenario.onlineHub Scenario.clientOk Scenario.store in
  let run := SyncListData (hubOf (SyncListData h)) in
  outcomeOf run = Returned (Some (ErrNew "no snapshot found"))
  /\ remoteArgs (traceOf run) = [].
Proof. split; reflexivity. Qed.

(** * More of the hub *)

Section UpdateRunFacts.
Context {codec : EntryCodec} {database : Database}.

Lemma assignField_run {A Rest} (p : option A) set (entry : Entry Rest) h :
  assignField p set entry h
  = ([], h, match assignFieldPure p set entry with
            | Some e => Next e
            | None => Panic
            end).
Proof.
  unfold assignField, assignFieldPure. destruct p as [v|]; [|reflexivity].
  cbv [bind deref ret panic]. destruct (EntryListData entry); reflexivity.
Qed.

Lemma assignFields_run {Rest} status score progress startDate endDate (entry : Entry Rest) h :
  assignFields status score progress startDate endDate entry h
  = ([], h, match assignFieldsPure status score progress startDate endDate entry with
            | Some e => Next e
            | None => Panic
            end).
Proof.
  unfold assignFields, assignFieldsPure.
  unfold bind at 1. rewrite assignField_run.
  destruct (assignFieldPure progress set_Progress entry) as [e1|]; [|reflexivity].
  unfold bind at 1. rewrite assignField_run.
  destruct (assignFieldPure status set_Status e1) as [e2|]; [|reflexivity].
  unfold bind at 1. rewrite assignField_run.
  destruct (assignFieldPure score set_Score e2) as [e3|]; [|reflexivity].
  unfold bind at 1. rewrite assignField_run.
  destruct (assignFieldPure startDate set_StartedAt e3) as [e4|]; [|reflexivity].
  rewrite assignField_run.
  destruct (assignFieldPure endDate set_CompletedAt e4); reflexivity.
Qed.

(** Normal form of the traces met below. *)
Ltac trace_norm :=
  cbn [app]; repeat rewrite app_nil_r; repeat rewrite <- app_assoc; cbn [app].

(** Runs the body of an update operation against [updateRun]: the lookup
    and the decoding first, the write and the reload last; [assign_step]
    settles the assignments in between. *)
Ltac update_lookup decode h mediaId s :=
  destruct (db_GetSnapshotMediaEntry mediaId (DbId s) (offlineDb h)) as [se|?];
    update_step; [|trace_norm; reflexivity];
  destruct (decode se) as [entry|]; update_step; [|trace_norm; reflexivity].

Ltac update_write h :=
  match goal with
  | |- context [db_UpdateSnapshotMediaEntryT ?row (offlineDb h)] =>
      destruct (db_UpdateSnapshotMediaEntryT row (offlineDb h)) as [d' [r|?]]
  end;
  update_step; [|trace_norm; reflexivity];
  rewrite refreshCurrentSnapshot_run; update_step;
  match goal with
  | |- context [match latestSnapshotOf ?d with _ => _ end] =>
      destruct (latestSnapshotOf d) as [snap'|?]
  end;
  update_step; trace_norm; reflexivity.

Ltac update_open h :=
  rewrite loadCurrentSnapshot_run;
  destruct (currentSnapshot h) as [s|] eqn:Ec;
    [|destruct (latestSnapshotOf (offlineDb h)) as [s|e] eqn:Elatest;
      cbv beta iota zeta; [|reflexivity]];
    update_step.

Lemma UpdateAnimeListStatus_run mediaId progress status h :
  UpdateAnimeListStatus mediaId progress status h
  = updateRun EvGetAnimeEntry GetAnimeEntry MarshalAnime "anime entry not found"
      (assignStatusPure progress status) mediaId h.
Proof.
  unfold UpdateAnimeListStatus, locked, updateRun, workingSnapshot, loadedHub, loadTrace,
    assignStatusPure.
  cbv [bind callGetSnapshotMediaEntry callGetAnimeEntry callUpdateSnapshotMediaEntryT
       emit getHub putHub ret return_ orReturnErr deref].
  update_open h;
    update_lookup GetAnimeEntry h mediaId s;
    (destruct (EntryListData entry) as [l|]; update_step; [|trace_norm; reflexivity]);
    update_write h.
Qed.

Lemma UpdateMangaListStatus_run mediaId progress status h :
  UpdateMangaListStatus mediaId progress status h
  = updateRun EvGetMangaEntry GetMangaEntry MarshalManga "manga entry not found"
      (assignStatusPure progress status) mediaId h.
Proof.
  unfold UpdateMangaListStatus, locked, updateRun, workingSnapshot, loadedHub, loadTrace,
    assignStatusPure.
  cbv [bind callGetSnapshotMediaEntry callGetMangaEntry callUpdateSnapshotMediaEntryT
       emit getHub putHub ret return_ orReturnErr deref].
  update_open h;
    update_lookup GetMangaEntry h mediaId s;
    (destruct (EntryListData entry) as [l|]; update_step; [|trace_norm; reflexivity]);
    update_write h.
Qed.

Lemma UpdateEntryListData_anime_run mediaId status score progress startDate endDate h :
  UpdateEntryListData (Some mediaId) status score progress startDate endDate "anime" h
  = updateRun EvGetAnimeEntry GetAnimeEntry MarshalAnime "entry not found"
      (assignFieldsPure status score progress startDate endDate) mediaId h.
Proof.
  unfold UpdateEntryListData, locked, updateRun, workingSnapshot, loadedHub, loadTrace.
  cbn [String.eqb Ascii.eqb Bool.eqb].
  cbv [bind callGetSnapshotMediaEntry callGetAnimeEntry callUpdateSnapshotMediaEntryT
       emit getHub putHub ret return_ orReturnErr deref].
  update_open h;
    update_lookup GetAnimeEntry h mediaId s;
    rewrite assignFields_run;
    (destruct (assignFieldsPure status score progress startDate endDate entry)
       as [entry'|]; update_step; [|trace_norm; reflexivity]);
    update_write h.
Qed.

Lemma UpdateEntryListData_manga_run mediaId status score progress startDate endDate h :
  UpdateEntryListData (Some mediaId) status score progress startDate endDate "manga" h
  = updateRun EvGetMangaEntry GetMangaEntry MarshalManga "entry not found"
      (assignFieldsPure status score progress startDate endDate) mediaId h.
Proof.
  unfold UpdateEntryListData, locked, updateRun, workingSnapshot, loadedHub, loadTrace.
  cbn [String.eqb Ascii.eqb Bool.eqb].
  cbv [bind callGetSnapshotMediaEntry callGetMangaEntry callUpdateSnapshotMediaEntryT
       emit getHub putHub ret return_ orReturnErr deref].
  update_open h;
    update_lookup GetMangaEntry h mediaId s;
    rewrite assignFields_run;
    (destruct (assignFieldsPure status score progress startDate endDate entry)
       as [entry'|]; update_step; [|trace_norm; reflexivity]);
    update_write h.
Qed.

(** *** What every run of [updateRun] satisfies *)

Ltac run_parts :=
  unfold traceOf, hubOf, outcomeOf; cbn [fst snd filter isEntryWrite app].

Section Generic.
Context {Rest : Type}
  (decodeEvent : SnapshotMediaEntry -> event)
  (decode : SnapshotMediaEntry -> option (Entry Rest))
  (marshal : Entry Rest -> Bytes) (notFound : string)
  (assign : Entry Rest -> option (Entry Rest)).
Hypothesis decodeEvent_decode : forall se, isDecode (decodeEvent se) = true.

Lemma decodeEvent_write se : isEntryWrite (decodeEvent se) = false.
Proof. specialize (decodeEvent_decode se). now destruct (decodeEvent se). Qed.

Lemma filter_write_reads tl :
  Forall (fun e => isDbRead e = true) tl -> filter isEntryWrite tl = [].
Proof.
  induction 1 as [|e tl He _ IH]; [reflexivity|].
  cbn. destruct e; try discriminate; exact IH.
Qed.

Lemma loadTrace_reads h : Forall (fun e => isDbRead e = true) (loadTrace h).
Proof.
  unfold loadTrace. destruct (currentSnapshot h); [constructor|apply latestTrace_reads].
Qed.

Lemma loadedHub_db h snap : offlineDb (loadedHub h snap) = offlineDb h.
Proof. unfold loadedHub. destruct (currentSnapshot h); reflexivity. Qed.

Lemma updateRun_localWrite mediaId h :
  localWrite h mediaId (updateRun decodeEvent decode marshal notFound assign mediaId h).
Proof.
  unfold localWrite, updateRun.
  pose proof (filter_write_reads (loadTrace_reads h)) as Hload.
  pose proof (filter_write_reads (latestTrace_reads (offlineDb h))) as Hlatest.
  destruct (workingSnapshot h) as [snap|e] eqn:Ew.
  2:{ left. run_parts. rewrite filter_app, Hlatest. split; reflexivity. }
  cbv zeta.
  destruct (db_GetSnapshotMediaEntry mediaId (DbId snap) (offlineDb h)) as [se|e] eqn:Eg.
  2:{ left. run_parts. rewrite !filter_app, Hload. split; [reflexivity|apply loadedHub_db]. }
  destruct (decode se) as [entry|].
  2:{ left. run_parts. rewrite !filter_app, Hload. run_parts. rewrite decodeEvent_write.
      split; [reflexivity|apply loadedHub_db]. }
  destruct (assign entry) as [entry'|].
  2:{ left. run_parts. rewrite !filter_app, Hload. run_parts. rewrite decodeEvent_write.
      split; [reflexivity|apply loadedHub_db]. }
  right. exists snap, se, (marshal entry').
  split; [reflexivity|]. split; [exact Eg|].
  destruct (db_UpdateSnapshotMediaEntryT _ (offlineDb h)) as [d' [r|e]] eqn:Eu.
  - pose proof (filter_write_reads (latestTrace_reads d')) as Hd'.
    destruct (latestSnapshotOf d'); run_parts; rewrite !filter_app, Hload, Hd'; run_parts;
      rewrite decodeEvent_write; split; reflexivity.
  - run_parts. rewrite !filter_app, Hload. run_parts. rewrite decodeEvent_write. split; reflexivity.
Qed.

Lemma updateRun_failsBeforeWrite mediaId h :
  failsBeforeWrite decode notFound h mediaId
    (updateRun decodeEvent decode marshal notFound assign mediaId h).
Proof.
  unfold failsBeforeWrite, updateRun.
  pose proof (filter_write_reads (loadTrace_reads h)) as Hload.
  pose proof (filter_write_reads (latestTrace_reads (offlineDb h))) as Hlatest.
  split; [|split].
  - intros e ->. run_parts. rewrite filter_app, Hlatest. repeat split.
  - intros snap e -> Hg. cbv zeta. rewrite Hg. cbn.
    rewrite !filter_app, Hload. repeat split.
  - intros snap se -> Hg Hd. cbv zeta. rewrite Hg, Hd. cbn.
    rewrite !filter_app, Hload. run_parts. rewrite decodeEvent_write. repeat split.
Qed.

(** The steps of a run that returned nil. *)
Lemma updateRun_success mediaId h t h' :
  updateRun decodeEvent decode marshal notFound assign mediaId h = (t, h', Returned None) ->
  exists snap se entry entry' d' r snap',
    workingSnapshot h = OkR snap
    /\ db_GetSnapshotMediaEntry mediaId (DbId snap) (offlineDb h) = OkR se
    /\ decode se = Some entry
    /\ assign entry = Some entry'
    /\ db_UpdateSnapshotMediaEntryT (set_Value (marshal entry') se) (offlineDb h)
       = (d', OkR r)
    /\ latestSnapshotOf d' = OkR snap'
    /\ h' = mkHub (anilistClientWrapper h) d' (isOffline h) (Some snap').
Proof.
  unfold updateRun.
  destruct (workingSnapshot h) as [snap|e] eqn:Ew; [|discriminate].
  cbv zeta.
  destruct (db_GetSnapshotMediaEntry mediaId (DbId snap) (offlineDb h)) as [se|e] eqn:Eg;
    [|discriminate].
  destruct (decode se) as [entry|] eqn:Ed; [|discriminate].
  destruct (assign entry) as [entry'|] eqn:Ea; [|discriminate].
  destruct (db_UpdateSnapshotMediaEntryT _ (offlineDb h)) as [d' [r|e]] eqn:Eu;
    [|discriminate].
  destruct (latestSnapshotOf d') as [snap'|e] eqn:El; [|discriminate].
  intros [= _ <-].
  exists snap, se, entry, entry', d', r, snap'. repeat split; auto.
  unfold loadedHub. destruct (currentSnapshot h); reflexivity.
Qed.

End Generic.

End UpdateRunFacts.

(** ** Properties of the update operations *)

Section UpdateFacts.
Context {codec : EntryCodec} {database : Database}.

Lemma anime_event_decode se : isDecode (EvGetAnimeEntry se) = true.
Proof. reflexivity. Qed.

Lemma manga_event_decode se : isDecode (EvGetMangaEntry se) = true.
Proof. reflexivity. Qed.

(** The status operations are [UpdateEntryListData] with the progress and
    the status given and the other fields nil, up to the text of the error
    for a row that does not decode. *)
Lemma assignStatus_assignFields {Rest} progress status (entry : Entry Rest) :
  assignFieldsPure (Some status) None (Some progress) None None entry
  = assignStatusPure progress status entry.
Proof.
  unfold assignFieldsPure, assignStatusPure, assignFieldPure.
  destruct (EntryListData entry) as [l|] eqn:El; [|reflexivity].
  cbn. reflexivity.
Qed.

Lemma updateRun_notFound_text {Rest} decodeEvent (decode : SnapshotMediaEntry -> option (Entry Rest))
    marshal msg1 msg2 assign mediaId h :
  let run1 := updateRun decodeEvent decode marshal msg1 assign mediaId h in
  let run2 := updateRun decodeEvent decode marshal msg2 assign mediaId h in
  traceOf run1 = traceOf run2
  /\ hubOf run1 = hubOf run2
  /\ (outcomeOf run1 = outcomeOf run2
      \/ (exists snap se,
            workingSnapshot h = OkR snap
            /\ db_GetSnapshotMediaEntry mediaId (DbId snap) (offlineDb h) = OkR se
            /\ decode se = None
            /\ outcomeOf run1 = Returned (Some (ErrNew msg1))
            /\ outcomeOf run2 = Returned (Some (ErrNew msg2)))).
Proof.
  cbv zeta. unfold updateRun.
  destruct (workingSnapshot h) as [snap|e]; [|auto].
  cbv zeta.
  destruct (db_GetSnapshotMediaEntry mediaId (DbId snap) (offlineDb h)) as [se|e] eqn:Eg;
    [|auto].
  destruct (decode se) as [entry|] eqn:Ed.
  - destruct (assign entry) as [entry'|]; [|auto].
    destruct (db_UpdateSnapshotMediaEntryT _ (offlineDb h)) as [d' [r|e]]; [|auto].
    destruct (latestSnapshotOf d'); auto.
  - split; [reflexivity|]. split; [reflexivity|].
    right. exists snap, se. auto.
Qed.

(** X1. The status update of an anime is the general update with the progress
    and the status given, every other field nil and type "anime": same
    trace, same hub, same outcome, except that a row whose anime entry is
    nil gives "anime entry not found" in one and "entry not found" in the
    other.  Likewise for manga. *)
Theorem status_update_is_entry_update mediaId progress status h :
  (let run1 := UpdateAnimeListStatus mediaId progress status h in
   let run2 := UpdateEntryListData (Some mediaId) (Some status) None (Some progress)
                 None None "anime" h in
   traceOf run1 = traceOf run2
   /\ hubOf run1 = hubOf run2
   /\ (outcomeOf run1 = outcomeOf run2
       \/ (exists snap se,
             workingSnapshot h = OkR snap
             /\ db_GetSnapshotMediaEntry mediaId (DbId snap) (offlineDb h) = OkR se
             /\ GetAnimeEntry se = None
             /\ outcomeOf run1 = Returned (Some (ErrNew "anime entry not found"))
             /\ outcomeOf run2 = Returned (Some (ErrNew "entry not found")))))
  /\ (let run1 := UpdateMangaListStatus mediaId progress status h in
      let run2 := UpdateEntryListData (Some mediaId) (Some status) None (Some progress)
                    None None "manga" h in
      traceOf run1 = traceOf run2
      /\ hubOf run1 = hubOf run2
      /\ (outcomeOf run1 = outcomeOf run2
          \/ (exists snap se,
                workingSnapshot h = OkR snap
                /\ db_GetSnapshotMediaEntry mediaId (DbId snap) (offlineDb h) = OkR se
                /\ GetMangaEntry se = None
                /\ outcomeOf run1 = Returned (Some (ErrNew "manga entry not found"))
                /\ outcomeOf run2 = Returned (Some (ErrNew "entry not found"))))).
Proof.
  assert (Hext : forall {Rest} decodeEvent (decode : SnapshotMediaEntry -> option (Entry Rest))
                   marshal msg mediaId h,
            updateRun decodeEvent decode marshal msg
              (assignFieldsPure (Some status) None (Some progress) None None) mediaId h
            = updateRun decodeEvent decode marshal msg
                (assignStatusPure progress status) mediaId h).
  { intros Rest decodeEvent decode marshal msg m h0. unfold updateRun.
    destruct (workingSnapshot h0); [|reflexivity]. cbv zeta.
    destruct (db_GetSnapshotMediaEntry m (DbId a) (offlineDb h0)); [|reflexivity].
    destruct (decode a0); [|reflexivity].
    rewrite assignStatus_assignFields. reflexivity. }
  split; cbv zeta.
  - rewrite UpdateAnimeListStatus_run, UpdateEntryListData_anime_run, Hext.
    apply updateRun_notFound_text.
  - rewrite UpdateMangaListStatus_run, UpdateEntryListData_manga_run, Hext.
    apply updateRun_notFound_text.
Qed.

Lemma UpdateEntryListData_other_localWrite t mediaId status score progress startDate endDate h :
  t <> "anime" -> t <> "manga" ->
  localWrite h mediaId
    (UpdateEntryListData (Some mediaId) status score progress startDate endDate t h).
Proof.
  intros Ha Hm. left. rewrite UpdateEntryListData_other_run by assumption.
  pose proof (filter_write_reads (latestTrace_reads (offlineDb h))) as Hl.
  unfold workingSnapshot.
  destruct (currentSnapshot h) as [s|];
    [|destruct (latestSnapshotOf (offlineDb h)) as [s|e] eqn:El];
    cbv zeta;
    try (destruct (db_GetSnapshotMediaEntry mediaId (DbId s) (offlineDb h));
         [rewrite ?El; destruct (latestSnapshotOf (offlineDb h))|]);
    unfold traceOf, hubOf; cbn [fst snd filter isEntryWrite app];
    rewrite ?filter_app, ?Hl; cbn [filter isEntryWrite app];
    rewrite ?filter_app, ?Hl; split; reflexivity.
Qed.

(** X2. An update operation writes at most one row, and only the row it found
    for [mediaId] in the working snapshot, with a new value: either its
    trace has no entry write and the database is unchanged, or it has
    exactly one, of that row, and the database is what that write left.
    This holds however the operation ends. *)
Theorem update_writes_only_found_row mediaId h :
  (forall progress status,
     localWrite h mediaId (UpdateAnimeListStatus mediaId progress status h))
  /\ (forall progress status,
      localWrite h mediaId (UpdateMangaListStatus mediaId progress status h))
  /\ (forall status score progress startDate endDate t,
      localWrite h mediaId
        (UpdateEntryListData (Some mediaId) status score progress startDate endDate t h)).
Proof.
  split; [|split].
  - intros. rewrite UpdateAnimeListStatus_run.
    apply updateRun_localWrite. exact anime_event_decode.
  - intros. rewrite UpdateMangaListStatus_run.
    apply updateRun_localWrite. exact manga_event_decode.
  - intros status score progress startDate endDate t.
    destruct (String.eqb_spec t "anime") as [->|Ha].
    { rewrite UpdateEntryListData_anime_run.
      apply updateRun_localWrite. exact anime_event_decode. }
    destruct (String.eqb_spec t "manga") as [->|Hm].
    { rewrite UpdateEntryListData_manga_run.
      apply updateRun_localWrite. exact manga_event_decode. }
    now apply UpdateEntryListData_other_localWrite.
Qed.

(** X3. An update operation that cannot reach its write returns the error of
    the step that stopped it and writes nothing: "snapshot not found" when
    the cache is empty and the snapshot does not load (the hub is then
    unchanged); the database's own error when the row lookup fails; the
    operation's not-found error when the row does not decode to its type.
    In the last two cases the hub differs at most by the cache that was
    loaded. *)
Theorem update_failures_before_write mediaId h :
  (forall progress status,
     failsBeforeWrite GetAnimeEntry "anime entry not found" h mediaId
       (UpdateAnimeListStatus mediaId progress status h))
  /\ (forall progress status,
      failsBeforeWrite GetMangaEntry "manga entry not found" h mediaId
        (UpdateMangaListStatus mediaId progress status h))
  /\ (forall status score progress startDate endDate,
      failsBeforeWrite GetAnimeEntry "entry not found" h mediaId
        (UpdateEntryListData (Some mediaId) status score progress startDate endDate
           "anime" h)
      /\ failsBeforeWrite GetMangaEntry "entry not found" h mediaId
           (UpdateEntryListData (Some mediaId) status score progress startDate endDate
              "manga" h)).
Proof.
  split; [|split; [|split]]; intros.
  - rewrite UpdateAnimeListStatus_run.
    apply updateRun_failsBeforeWrite. exact anime_event_decode.
  - rewrite UpdateMangaListStatus_run.
    apply updateRun_failsBeforeWrite. exact manga_event_decode.
  - rewrite UpdateEntryListData_anime_run.
    apply updateRun_failsBeforeWrite. exact anime_event_decode.
  - rewrite UpdateEntryListData_manga_run.
    apply updateRun_failsBeforeWrite. exact manga_event_decode.
Qed.

(** X4. The read and update operations stay inside the hub: every event of
    their traces is a lock operation, a database read, a decoding or an
    entry write.  None of them calls the AniList client, deletes a
    snapshot, runs the refresh callback or sends an event. *)
Theorem hub_operations_stay_local :
  (forall h, Forall (fun e => isUpdateEvent e = true) (traceOf (GetCurrentSnapshot h)))
  /\ (forall h, Forall (fun e => isUpdateEvent e = true) (traceOf (RetrieveCurrentSnapshot h)))
  /\ (forall mediaId progress status h,
      Forall (fun e => isUpdateEvent e = true)
        (traceOf (UpdateAnimeListStatus mediaId progress status h)))
  /\ (forall mediaId progress status h,
      Forall (fun e => isUpdateEvent e = true)
        (traceOf (UpdateMangaListStatus mediaId progress status h)))
  /\ (forall mediaId status score progress startDate endDate t h,
      Forall (fun e => isUpdateEvent e = true)
        (traceOf (UpdateEntryListData mediaId status score progress startDate endDate t h))).
Proof.
  assert (Hlocked : forall {R} (body : M R R) h,
            traceAll (fun e => isUpdateEvent e = true) body ->
            Forall (fun e => isUpdateEvent e = true) (traceOf (locked body h))).
  { intros R body h Hb. specialize (Hb h). unfold locked, traceOf.
    destruct (body h) as [[t h'] s]. cbn in *.
    constructor; [reflexivity|]. apply Forall_app. split; [exact Hb|].
    repeat constructor. }
  repeat split; intros; apply Hlocked; trace_all; reflexivity.
Qed.

(** *** A nil [ListData] *)

Lemma assignFieldsPure_nil {Rest} status score progress startDate endDate (entry : Entry Rest) :
  EntryListData entry = None ->
  (noField status score progress startDate endDate ->
   assignFieldsPure status score progress startDate endDate entry = Some entry)
  /\ (~ noField status score progress startDate endDate ->
      assignFieldsPure status score progress startDate endDate entry = None).
Proof.
  intros Hn. unfold noField, assignFieldsPure, assignFieldPure. split.
  - intros (-> & -> & -> & -> & ->). reflexivity.
  - intros Hsome.
    destruct progress; [now rewrite Hn|].
    destruct status; [now rewrite Hn|].
    destruct score; [now rewrite Hn|].
    destruct startDate; [now rewrite Hn|].
    destruct endDate; [now rewrite Hn|].
    exfalso. apply Hsome. repeat split.
Qed.

Lemma updateRun_panics {Rest} decodeEvent (decode : SnapshotMediaEntry -> option (Entry Rest))
    marshal msg assign mediaId h snap se entry :
  workingSnapshot h = OkR snap ->
  db_GetSnapshotMediaEntry mediaId (DbId snap) (offlineDb h) = OkR se ->
  decode se = Some entry ->
  let run := updateRun decodeEvent decode marshal msg assign mediaId h in
  (assign entry = None ->
   outcomeOf run = Panicked /\ hubOf run = loadedHub h snap)
  /\ (assign entry <> None -> outcomeOf run <> Panicked).
Proof.
  intros Hw Hg Hd. cbv zeta. unfold updateRun. rewrite Hw. cbv zeta. rewrite Hg, Hd.
  split.
  - intros ->. split; reflexivity.
  - intros Ha. destruct (assign entry) as [entry'|]; [|contradiction].
    destruct (db_UpdateSnapshotMediaEntryT _ (offlineDb h)) as [d' [r|e]]; [|discriminate].
    destruct (latestSnapshotOf d'); discriminate.
Qed.

(** X5. A row whose typed entry has a nil [ListData] makes the status update
    panic, with nothing written; [UpdateEntryListData] panics on it exactly
    when some field is given, and with no field it does not panic. *)
Theorem nil_ListData_panics h mediaId snap se :
  workingSnapshot h = OkR snap ->
  db_GetSnapshotMediaEntry mediaId (DbId snap) (offlineDb h) = OkR se ->
  (forall entry, GetAnimeEntry se = Some entry -> EntryListData entry = None ->
     (forall progress status,
        outcomeOf (UpdateAnimeListStatus mediaId progress status h) = Panicked
        /\ offlineDb (hubOf (UpdateAnimeListStatus mediaId progress status h)) = offlineDb h)
     /\ (forall status score progress startDate endDate,
         outcomeOf (UpdateEntryListData (Some mediaId) status score progress
                      startDate endDate "anime" h) = Panicked
         <-> ~ noField status score progress startDate endDate))
  /\ (forall entry, GetMangaEntry se = Some entry -> EntryListData entry = None ->
      (forall progress status,
         outcomeOf (UpdateMangaListStatus mediaId progress status h) = Panicked
         /\ offlineDb (hubOf (UpdateMangaListStatus mediaId progress status h)) = offlineDb h)
      /\ (forall status score progress startDate endDate,
          outcomeOf (UpdateEntryListData (Some mediaId) status score progress
                       startDate endDate "manga" h) = Panicked
          <-> ~ noField status score progress startDate endDate)).
Proof.
  intros Hw Hg.
  assert (Hdec : forall status score progress startDate endDate,
            noField status score progress startDate endDate
            \/ ~ noField status score progress startDate endDate).
  { intros [s|] [sc|] [p|] [sd|] [ed|];
      try (right; intros (? & ? & ? & ? & ?); discriminate).
    left. repeat split. }
  split; intros entry Hd Hn; split.
  - intros progress status. rewrite UpdateAnimeListStatus_run.
    destruct (updateRun_panics EvGetAnimeEntry GetAnimeEntry MarshalAnime
                "anime entry not found" (assignStatusPure progress status) mediaId h
                Hw Hg Hd) as [Hp _].
    destruct Hp as [Ho Hh]; [unfold assignStatusPure; now rewrite Hn|].
    split; [exact Ho|]. rewrite Hh. apply loadedHub_db.
  - intros status score progress startDate endDate.
    rewrite UpdateEntryListData_anime_run.
    destruct (updateRun_panics EvGetAnimeEntry GetAnimeEntry MarshalAnime
                "entry not found"
                (assignFieldsPure status score progress startDate endDate) mediaId h
                Hw Hg Hd) as [Hp Hnp].
    destruct (assignFieldsPure_nil status score progress startDate endDate entry Hn)
      as [Hnone Hsome].
    split.
    + intros Ho Hno. apply Hnp; [|exact Ho]. rewrite (Hnone Hno). discriminate.
    + intros Hno. apply Hp. now apply Hsome.
  - intros progress status. rewrite UpdateMangaListStatus_run.
    destruct (updateRun_panics EvGetMangaEntry GetMangaEntry MarshalManga
                "manga entry not found" (assignStatusPure progress status) mediaId h
                Hw Hg Hd) as [Hp _].
    destruct Hp as [Ho Hh]; [unfold assignStatusPure; now rewrite Hn|].
    split; [exact Ho|]. rewrite Hh. apply loadedHub_db.
  - intros status score progress startDate endDate.
    rewrite UpdateEntryListData_manga_run.
    destruct (updateRun_panics EvGetMangaEntry GetMangaEntry MarshalManga
                "entry not found"
                (assignFieldsPure status score progress startDate endDate) mediaId h
                Hw Hg Hd) as [Hp Hnp].
    destruct (assignFieldsPure_nil status score progress startDate endDate entry Hn)
      as [Hnone Hsome].
    split.
    + intros Ho Hno. apply Hnp; [|exact Ho]. rewrite (Hnone Hno). discriminate.
    + intros Hno. apply Hp. now apply Hsome.
Qed.

(** *** Errors at the write and after it *)

Lemma loadedHub_cache h snap :
  workingSnapshot h = OkR snap -> currentSnapshot (loadedHub h snap) = Some snap.
Proof.
  unfold workingSnapshot, loadedHub.
  destruct (currentSnapshot h) as [s|] eqn:Ec; [|reflexivity].
  intros [= <-]. exact Ec.
Qed.

Lemma updateRun_failsAtWrite {Rest} decodeEvent
    (decode : SnapshotMediaEntry -> option (Entry Rest)) marshal msg assign mediaId h :
  failsAtWrite decode marshal assign h mediaId
    (updateRun decodeEvent decode marshal msg assign mediaId h).
Proof.
  intros snap se entry entry' d' r Hw Hg Hd Ha Hu.
  pose proof (loadedHub_cache _ Hw) as Hc.
  unfold updateRun. rewrite Hw. cbv zeta. rewrite Hg, Hd, Ha, Hu.
  split; [|split].
  - intros e [->|Hl].
    + split; [reflexivity|exact Hc].
    + destruct r as [row|e']; [rewrite Hl|]; (split; [reflexivity|exact Hc]).
  - intros e ->. reflexivity.
  - intros row e -> ->. reflexivity.
Qed.

(** X6. When the write of an update fails, the database's error is returned;
    when the write succeeds and the reload of the cache fails, the error of
    the reload is returned although the row has been written.  In both
    cases the hub keeps the database the write left and the cache is not
    refreshed: it is still the snapshot the operation worked on. *)
Theorem update_failures_at_write mediaId h :
  (forall progress status,
     failsAtWrite GetAnimeEntry MarshalAnime (assignStatusPure progress status) h mediaId
       (UpdateAnimeListStatus mediaId progress status h))
  /\ (forall progress status,
      failsAtWrite GetMangaEntry MarshalManga (assignStatusPure progress status) h mediaId
        (UpdateMangaListStatus mediaId progress status h))
  /\ (forall status score progress startDate endDate,
      failsAtWrite GetAnimeEntry MarshalAnime
        (assignFieldsPure status score progress startDate endDate) h mediaId
        (UpdateEntryListData (Some mediaId) status score progress startDate endDate
           "anime" h)
      /\ failsAtWrite GetMangaEntry MarshalManga
           (assignFieldsPure status score progress startDate endDate) h mediaId
           (UpdateEntryListData (Some mediaId) status score progress startDate endDate
              "manga" h)).
Proof.
  split; [|split; [|split]]; intros.
  - rewrite UpdateAnimeListStatus_run. apply updateRun_failsAtWrite.
  - rewrite UpdateMangaListStatus_run. apply updateRun_failsAtWrite.
  - rewrite UpdateEntryListData_anime_run. apply updateRun_failsAtWrite.
  - rewrite UpdateEntryListData_manga_run. apply updateRun_failsAtWrite.
Qed.

(** *** The fields written by [UpdateEntryListData] *)

Lemma assignFieldsPure_change {Rest} status score progress startDate endDate
    (entry entry' : Entry Rest) :
  assignFieldsPure status score progress startDate endDate entry = Some entry' ->
  entry' = changeListData (applyFields status score progress startDate endDate) entry.
Proof.
  unfold assignFieldsPure, assignFieldPure, changeListData, applyFields, applyField.
  destruct entry as [[l|] rest];
    destruct progress, status, score, startDate, endDate; cbn;
    intros [= <-]; reflexivity.
Qed.

Context {laws : DatabaseLaws database}.

Lemma rowFrame_intro {Rest} (decode : SnapshotMediaEntry -> option (Entry Rest))
    (marshal : Entry Rest -> Bytes) (change : Entry Rest -> Entry Rest) h mediaId h' :
  (forall row e, Value row = marshal e -> decode row = Some e) ->
  cacheCoherent h ->
  (exists snap se entry d' r snap',
     workingSnapshot h = OkR snap
     /\ db_GetSnapshotMediaEntry mediaId (DbId snap) (offlineDb h) = OkR se
     /\ decode se = Some entry
     /\ db_UpdateSnapshotMediaEntryT (set_Value (marshal (change entry)) se) (offlineDb h)
        = (d', OkR r)
     /\ latestSnapshotOf d' = OkR snap'
     /\ h' = mkHub (anilistClientWrapper h) d' (isOffline h) (Some snap')) ->
  rowFrame decode h mediaId change h'.
Proof.
  intros Hdec Hcoh (snap & se & entry & d' & r & snap' & Hw & Hg & Hd & Hu & Hlatest & ->).
  destruct (workingSnapshot_latest _ Hcoh Hw) as (item & Hitem & Hid).
  destruct (latestSnapshotOf_inv _ Hlatest) as (item' & Hitem' & Hid' & Hrows').
  rewrite (update_keeps_latest _ _ Hu), Hitem in Hitem'. injection Hitem' as <-.
  assert (Hsame : DbId snap' = DbId snap) by congruence.
  destruct (update_writes_value _ _ _ Hu Hrows') as (rows & Hrows & Hall).
  rewrite <- Hid in Hrows.
  destruct (lookup_in_entries _ _ _ Hg Hrows) as [Hin Hmedia].
  cbn [ID set_Value Value] in Hall.
  assert (Hframe :
    Forall2
      (fun old new =>
         if ID old =? ID se
         then (exists v, valueWritten v old new) /\ decode new = Some (change entry)
         else new = old)
      rows (Entries snap')).
  { eapply Forall2_impl; [|exact Hall].
    intros old new Hon. cbv beta in *.
    destruct (ID old =? ID se); [|exact Hon].
    destruct Hon as (H1 & H2 & H3 & H4 & H5 & H6).
    split; [eexists; repeat split; eauto|apply Hdec; exact H6]. }
  exists snap', se, entry, rows. rewrite Hsame.
  split; [reflexivity|]. split; [exact Hlatest|]. split; [exact Hg|].
  split; [exact Hmedia|]. split; [exact Hd|].
  split; [exact Hrows|]. split; [exact Hin|]. split; [exact Hframe|].
  destruct (@Forall2_In_l _ _ _ _ _ _ Hframe Hin) as (new & Hnew & Hrel).
  rewrite Z.eqb_refl in Hrel. destruct Hrel as [(v & Hv) Hup].
  exists new. split; [exact Hnew|].
  destruct Hv as (Hv1 & _ & Hv3 & _). split; [exact Hv1|].
  split; [congruence|exact Hup].
Qed.

(** X7. Take a hub whose cache, if any, is the latest snapshot of the
    database, a codec that reads back what it wrote and a database that
    obeys [DatabaseLaws].  After a call of [UpdateEntryListData] of type
    "anime" that returns nil, the cache is the latest snapshot of the
    database, and its rows are those of before except the rows with the key
    of the row found for [mediaId], whose value decodes to the stored entry
    with each given field set in its list data and each field whose
    argument is nil left as it was.  Likewise for type "manga". *)
Theorem UpdateEntryListData_fields {codecLaws : EntryCodecLaws codec}
    h mediaId status score progress startDate endDate t h' :
  cacheCoherent h ->
  (UpdateEntryListData (Some mediaId) status score progress startDate endDate "anime" h
   = (t, h', Returned None) ->
   rowFrame GetAnimeEntry h mediaId
     (changeListData (applyFields status score progress startDate endDate)) h')
  /\ (UpdateEntryListData (Some mediaId) status score progress startDate endDate "manga" h
      = (t, h', Returned None) ->
      rowFrame GetMangaEntry h mediaId
        (changeListData (applyFields status score progress startDate endDate)) h').
Proof.
  intros Hcoh. split; intros E.
  - rewrite UpdateEntryListData_anime_run in E.
    apply updateRun_success in E
      as (snap & se & entry & entry' & d' & r & snap' & Hw & Hg & Hd & Ha & Hu & Hl & Hh).
    apply assignFieldsPure_change in Ha. subst entry'.
    apply (rowFrame_intro GetAnimeEntry MarshalAnime); [|exact Hcoh|].
    + intros row e Hv. unfold GetAnimeEntry. rewrite Hv. apply decodeAnime_Marshal.
    + exists snap, se, entry, d', r, snap'. auto 10.
  - rewrite UpdateEntryListData_manga_run in E.
    apply updateRun_success in E
      as (snap & se & entry & entry' & d' & r & snap' & Hw & Hg & Hd & Ha & Hu & Hl & Hh).
    apply assignFieldsPure_change in Ha. subst entry'.
    apply (rowFrame_intro GetMangaEntry MarshalManga); [|exact Hcoh|].
    + intros row e Hv. unfold GetMangaEntry. rewrite Hv. apply decodeManga_Marshal.
    + exists snap, se, entry, d', r, snap'. auto 10.
Qed.

End UpdateFacts.

Lemma nil_ListData_panics_witness :
  let h := Scenario.onlineHub Scenario.clientOk Scenario.storeNoListData in
  (outcomeOf (UpdateAnimeListStatus 400 5 "COMPLETED" h) = Panicked
   /\ offlineDb (hubOf (UpdateAnimeListStatus 400 5 "COMPLETED" h)) = offlineDb h)
  /\ (outcomeOf (UpdateEntryListData (Some 400) None (Some 8) None None None "anime" h)
      = Panicked
      <-> ~ noField None (Some 8) None None None).
Proof.
  intros h.
  pose proof (proj1 (@nil_ListData_panics _ _ h 400 (mkSnapshot 1 [Scenario.row400])
                       Scenario.row400 eq_refl eq_refl)
                _ eq_refl eq_refl) as [H1 H2].
  split; [exact (H1 5 "COMPLETED")|exact (H2 None (Some 8) None None None)].
Defined.

Lemma update_failures_before_write_witness :
  let down := FaultyDb.hubRowsUnreadable in
  let h := Scenario.onlineHub Scenario.clientOk Damaged.store in
  (outcomeOf (UpdateAnimeListStatus 100 5 "COMPLETED" down)
   = Returned (Some (ErrNew "snapshot not found"))
   /\ hubOf (UpdateAnimeListStatus 100 5 "COMPLETED" down) = down)
  /\ outcomeOf (UpdateMangaListStatus 999 5 "COMPLETED" h)
     = Returned (Some (ErrDb "record not found"))
  /\ outcomeOf (UpdateEntryListData (Some 500) None (Some 8) None None None "anime" h)
     = Returned (Some (ErrNew "entry not found")).
Proof.
  intros down h. split; [|split].
  - destruct (proj1 (proj1 (@update_failures_before_write _ FaultyDb.database 100 down)
                       5 "COMPLETED") _ eq_refl) as (Ho & Hh & _).
    split; [exact Ho|exact Hh].
  - exact (proj1 (proj1 (proj2 (proj1 (proj2 (@update_failures_before_write _ _ 999 h))
                                  5 "COMPLETED")) _ _ eq_refl eq_refl)).
  - exact (proj1 (proj2 (proj2 (proj1 (proj2 (proj2 (@update_failures_before_write _ _ 500 h))
                                         None (Some 8) None None None))) _ _
                    eq_refl eq_refl eq_refl)).
Defined.

Lemma update_failures_at_write_witness :
  let lost := FaultyDb.hubLosingConnection in
  let refused := FaultyDb.hubRefusingWrites in
  let run1 := UpdateEntryListData (Some 100) None (Some 8) None None None "anime" lost in
  let run2 := UpdateAnimeListStatus 100 5 "COMPLETED" refused in
  (outcomeOf run1 = Returned (Some (ErrDb "connection lost"))
   /\ option_map DbId (currentSnapshot (hubOf run1)) = Some 1
   /\ option_map Score
        (rowListData (nth 0 (ListDb.entries (FaultyDb.inner (offlineDb (hubOf run1))))
                        Scenario.row200)) = Some 8)
  /\ (outcomeOf run2 = Returned (Some (ErrDb "disk full"))
      /\ offlineDb (hubOf run2) = offlineDb refused).
Proof.
  intros lost refused run1 run2. split.
  - destruct (proj1 (proj2 (proj2 (@update_failures_at_write _ FaultyDb.database 100 lost))
                      None (Some 8) None None None)
                _ _ _ _ _ _ eq_refl eq_refl eq_refl eq_refl eq_refl)
      as (Hhub & _ & Hout).
    split; [exact (Hout _ _ eq_refl eq_refl)|].
    destruct (Hhub _ (or_intror eq_refl)) as [Hh Hc].
    split; [fold run1 in Hc; rewrite Hc; reflexivity|].
    fold run1 in Hh. rewrite Hh. reflexivity.
  - destruct (proj1 (@update_failures_at_write _ FaultyDb.database 100 refused)
                5 "COMPLETED" _ _ _ _ _ _ eq_refl eq_refl eq_refl eq_refl eq_refl)
      as (Hhub & Hout & _).
    split; [exact (Hout _ eq_refl)|].
    destruct (Hhub _ (or_introl eq_refl)) as [Hh _].
    fold run2 in Hh. rewrite Hh. reflexivity.
Defined.

Lemma UpdateEntryListData_fields_witness :
  let h := Scenario.onlineHub Scenario.clientOk Scenario.store in
  rowFrame GetAnimeEntry h 100
    (changeListData (applyFields None (Some 8) None (Some "2024-01-05T00:00:00Z") None))
    (hubOf (UpdateEntryListData (Some 100) None (Some 8) None
              (Some "2024-01-05T00:00:00Z") None "anime" h))
  /\ rowFrame GetMangaEntry h 200
       (changeListData (applyFields (Some "PAUSED") None (Some 3) None None))
       (hubOf (UpdateEntryListData (Some 200) (Some "PAUSED") None (Some 3) None None
                 "manga" h)).
Proof.
  intros h. split.
  - exact (proj1 (@UpdateEntryListData_fields _ _ ListDbFacts.database_laws
                    ListDbFacts.codec_laws h 100 None (Some 8) None
                    (Some "2024-01-05T00:00:00Z") None
                    (traceOf (UpdateEntryListData (Some 100) None (Some 8) None
                                (Some "2024-01-05T00:00:00Z") None "anime" h))
                    (hubOf (UpdateEntryListData (Some 100) None (Some 8) None
                              (Some "2024-01-05T00:00:00Z") None "anime" h)) I)
             eq_refl).
  - exact (proj2 (@UpdateEntryListData_fields _ _ ListDbFacts.database_laws
                    ListDbFacts.codec_laws h 200 (Some "PAUSED") None (Some 3) None None
                    (traceOf (UpdateEntryListData (Some 200) (Some "PAUSED") None (Some 3)
                                None None "manga" h))
                    (hubOf (UpdateEntryListData (Some 200) (Some "PAUSED") None (Some 3)
                              None None "manga" h)) I)
             eq_refl).
Defined.

(** ** The cache and the pass *)

Section CacheFacts.
Context {codec : EntryCodec} {database : Database}.

Lemma RetrieveCurrentSnapshot_run h :
  RetrieveCurrentSnapshot h
  = match workingSnapshot h with
    | OkR s => (EvLock :: loadTrace h ++ [EvUnlock], loadedHub h s, Returned (Some s, true))
    | ErrR _ => (EvLock :: loadTrace h ++ [EvUnlock], h, Returned (None, false))
    end.
Proof.
  unfold RetrieveCurrentSnapshot, locked, workingSnapshot, loadTrace, loadedHub.
  unfold bind at 1. unfold getHub at 1. cbv iota. unfold bind at 1.
  destruct (currentSnapshot h) as [s|] eqn:Ec.
  - cbv [bind ret getHub return_ finish app]. rewrite Ec. reflexivity.
  - unfold bind at 1. rewrite GetLatestSnapshot_run.
    destruct (latestSnapshotOf (offlineDb h)) as [s|e].
    + cbv [storeCurrentSnapshot bind getHub putHub ret return_ finish
             set_currentSnapshot currentSnapshot].
      rewrite !app_nil_r. reflexivity.
    + cbv [return_ finish]. rewrite !app_nil_r. reflexivity.
Qed.

Lemma GetCurrentSnapshot_run h :
  GetCurrentSnapshot h
  = ([EvLock; EvUnlock], h,
     Returned match currentSnapshot h with
              | Some s => (Some s, true)
              | None => (None, false)
              end).
Proof.
  unfold GetCurrentSnapshot, locked. cbv [bind getHub].
  destruct (currentSnapshot h); reflexivity.
Qed.

(** X8. [RetrieveCurrentSnapshot] loads the cache at most once.  When the
    cache is empty and the latest snapshot can be read, it is returned and
    cached; a call to [GetCurrentSnapshot] or a second call to
    [RetrieveCurrentSnapshot] then returns the same snapshot without
    reading the database.  A cached snapshot is returned as it is, without
    any read.  When the load fails, the result is (nil, false), the error
    is dropped and the hub is unchanged, so [GetCurrentSnapshot] still
    returns (nil, false).  In no case is anything written. *)
Theorem RetrieveCurrentSnapshot_caches h :
  let run := RetrieveCurrentSnapshot h in
  match workingSnapshot h with
  | OkR s =>
      outcomeOf run = Returned (Some s, true)
      /\ hubOf run = loadedHub h s
      /\ GetCurrentSnapshot (hubOf run)
         = ([EvLock; EvUnlock], hubOf run, Returned (Some s, true))
      /\ RetrieveCurrentSnapshot (hubOf run)
         = ([EvLock; EvUnlock], hubOf run, Returned (Some s, true))
  | ErrR _ =>
      outcomeOf run = Returned (None, false)
      /\ hubOf run = h
      /\ GetCurrentSnapshot (hubOf run) = ([EvLock; EvUnlock], h, Returned (None, false))
  end
  /\ filter isDbRead (traceOf run) = loadTrace h
  /\ filter isDbWrite (traceOf run) = []
  /\ offlineDb (hubOf run) = offlineDb h.
Proof.
  intros run. subst run. rewrite RetrieveCurrentSnapshot_run.
  assert (Hreads : filter isDbRead (loadTrace h) = loadTrace h
                   /\ filter isDbWrite (loadTrace h) = []).
  { unfold loadTrace, latestTrace.
    destruct (currentSnapshot h); [split; reflexivity|].
    destruct (db_GetLatestSnapshot (offlineDb h)) as [[item|]|e]; split; reflexivity. }
  destruct Hreads as [Hr Hw].
  assert (Htrace : forall (hh : Hub) (o : outcome (option Snapshot * bool)),
            filter isDbRead (traceOf (EvLock :: loadTrace h ++ [EvUnlock], hh, o))
            = loadTrace h
            /\ filter isDbWrite (traceOf (EvLock :: loadTrace h ++ [EvUnlock], hh, o)) = []).
  { intros hh o. unfold traceOf. cbn [fst filter isDbRead isDbWrite].
    rewrite !filter_app, Hr, Hw. cbn. rewrite app_nil_r. split; reflexivity. }
  destruct (workingSnapshot h) as [s|e] eqn:Hw'.
  - pose proof (loadedHub_cache _ Hw') as Hc.
    assert (Hws : workingSnapshot (loadedHub h s) = OkR s).
    { unfold workingSnapshot. rewrite Hc. reflexivity. }
    unfold hubOf, outcomeOf. cbn [fst snd].
    split; [|split; [apply Htrace|split; [apply Htrace|]]].
    + split; [reflexivity|]. split; [reflexivity|]. split.
      * rewrite GetCurrentSnapshot_run, Hc. reflexivity.
      * assert (Hl : loadedHub (loadedHub h s) s = loadedHub h s).
        { unfold loadedHub at 1. rewrite Hc. reflexivity. }
        rewrite RetrieveCurrentSnapshot_run, Hws, Hl.
        unfold loadTrace. rewrite Hc. reflexivity.
    + unfold loadedHub. destruct (currentSnapshot h); reflexivity.
  - unfold hubOf, outcomeOf. cbn [fst snd].
    split; [|split; [apply Htrace|split; [apply Htrace|reflexivity]]].
    split; [reflexivity|]. split; [reflexivity|].
    rewrite GetCurrentSnapshot_run.
    unfold workingSnapshot in Hw'.
    destruct (currentSnapshot h); [discriminate|reflexivity].
Qed.

(** *** The pass *)

Lemma syncEntries_results ses : forall n errI h,
  Forall hasTypedEntry ses ->
  exists t,
    syncEntries ses n errI h = (t, h, Next (last (remoteResults t) errI))
    /\ remoteArgs t = pushesOf ses
    /\ remoteResults t = clientResults (anilistClientWrapper h) n (pushesOf ses).
Proof.
  induction ses as [|se rest IH]; intros n errI h Hall.
  - exists []. repeat split; reflexivity.
  - inversion Hall as [|? ? Hse Hrest]; subst.
    rewrite syncEntries_cons.
    pose proof (decodeTrace_remote se) as [Ha Hr].
    unfold pushesOf. cbn [flat_map]. fold (pushesOf rest).
    unfold rowListData, hasTypedEntry in *.
    destruct (typedListData se) as [[l|]|]; [| |contradiction].
    + cbv zeta.
      destruct (IH (S n) (anilistClientWrapper h n (pushArgs se l)) h Hrest)
        as (t & Et & Hargs & Hres).
      rewrite Et.
      exists (decodeTrace se
              ++ EvUpdateMediaListEntry (pushArgs se l)
                   (anilistClientWrapper h n (pushArgs se l)) :: t).
      split; [|split].
      * rewrite remoteResults_app, Hr. cbn [app remoteResults flat_map].
        change (flat_map _ t) with (remoteResults t).
        rewrite last_cons_default. reflexivity.
      * rewrite remoteArgs_app, Ha. cbn [app remoteArgs flat_map].
        change (flat_map _ t) with (remoteArgs t).
        now rewrite Hargs.
      * rewrite remoteResults_app, Hr. cbn [app remoteResults flat_map clientResults].
        change (flat_map _ t) with (remoteResults t).
        now rewrite Hres.
    + destruct (IH n errI h Hrest) as (t & Et & Hargs & Hres).
      rewrite Et. exists (decodeTrace se ++ t). split; [|split].
      * rewrite remoteResults_app, Hr. reflexivity.
      * rewrite remoteArgs_app, Ha. exact Hargs.
      * rewrite remoteResults_app, Hr. exact Hres.
Qed.

Lemma loop_events_quiet tl :
  Forall (fun e => isLoopEvent e = true) tl ->
  filter isDbWrite tl = [] /\ sentEvents tl = [].
Proof.
  induction 1 as [|e tl He _ [IH1 IH2]]; [split; reflexivity|].
  destruct e; try discriminate; split; assumption.
Qed.

(** X9. Only the last call of a pass decides how it ends.  In a pass past its
    checks, with an edited row and no nil typed entry, the results of the
    calls are those the client gives to the pushes of the edited rows, in
    order, and the pass returns nil.  If the last result is nil -- or no
    call is made because no edited row has list data -- the snapshot is
    deleted and the two refresh events are sent, whatever the earlier
    calls returned.  If the last result is an error, nothing is deleted or
    sent and the hub is unchanged. *)
Theorem SyncListData_last_call_decides h item rows :
  syncReady h item rows ->
  filter isUpdated rows <> [] ->
  Forall hasTypedEntry (filter isUpdated rows) ->
  let results :=
    clientResults (anilistClientWrapper h) 0 (pushesOf (filter isUpdated rows)) in
  let run := SyncListData h in
  outcomeOf run = Returned None
  /\ remoteResults (traceOf run) = results
  /\ match last results None with
     | None =>
         hubOf run = set_offlineDb (fst (db_DeleteSnapshot (ItemID item) (offlineDb h))) h
         /\ filter isDbWrite (traceOf run) = [EvDbDeleteSnapshot (ItemID item)]
         /\ sentEvents (traceOf run)
            = [RefreshedAnilistCollection; RefreshedAnilistMangaCollection]
     | Some _ =>
         hubOf run = h
         /\ filter isDbWrite (traceOf run) = []
         /\ sentEvents (traceOf run) = []
     end.
Proof.
  intros Hready Hne Hall results run. subst results run.
  rewrite (SyncListData_ready Hready).
  destruct (filter isUpdated rows) as [|se rest] eqn:Ef; [contradiction|].
  destruct (syncEntries_results 0 None h Hall) as (tl & El & _ & Hres).
  rewrite El.
  destruct (syncEntries_any _ _ _ _ El) as (_ & Hloop & _).
  destruct (loop_events_quiet Hloop) as [Hw Hsent].
  rewrite <- Hres.
  assert (Hreads : remoteResults (syncReads item ++ tl) = remoteResults tl) by reflexivity.
  destruct (last (remoteResults tl) None) as [e|] eqn:Elast;
    unfold outcomeOf, traceOf, hubOf; cbn [fst snd].
  - split; [reflexivity|]. split; [exact Hreads|]. split; [reflexivity|].
    split.
    + rewrite filter_app, Hw. reflexivity.
    + unfold sentEvents in *. rewrite flat_map_app, Hsent. reflexivity.
  - split; [reflexivity|]. split.
    { rewrite !remoteResults_app. cbn. rewrite app_nil_r. reflexivity. }
    split; [reflexivity|]. split.
    + rewrite !filter_app, Hw. reflexivity.
    + unfold sentEvents in *. rewrite !flat_map_app, Hsent. reflexivity.
Qed.

Lemma syncEntries_panic pre se post : forall n errI h,
  Forall hasTypedEntry pre ->
  typedListData se = None ->
  exists t,
    syncEntries (pre ++ se :: post) n errI h = (t, h, Panic)
    /\ remoteArgs t = pushesOf pre.
Proof.
  induction pre as [|p pre IH]; intros n errI h Hall Hse.
  - cbn [app]. rewrite syncEntries_cons, Hse.
    exists (decodeTrace se). split; [reflexivity|].
    apply (proj1 (decodeTrace_remote se)).
  - inversion Hall as [|? ? Hp Hpre]; subst.
    cbn [app]. rewrite syncEntries_cons.
    pose proof (decodeTrace_remote p) as [Ha _].
    unfold pushesOf. cbn [flat_map]. fold (pushesOf pre).
    unfold rowListData, hasTypedEntry in *.
    destruct (typedListData p) as [[l|]|]; [| |contradiction].
    + cbv zeta.
      destruct (IH (S n) (anilistClientWrapper h n (pushArgs p l)) h Hpre Hse)
        as (t & Et & Hargs).
      rewrite Et.
      exists (decodeTrace p
              ++ EvUpdateMediaListEntry (pushArgs p l)
                   (anilistClientWrapper h n (pushArgs p l)) :: t).
      split; [reflexivity|].
      rewrite remoteArgs_app, Ha. cbn [app remoteArgs flat_map].
      change (flat_map _ t) with (remoteArgs t).
      now rewrite Hargs.
    + destruct (IH n errI h Hpre Hse) as (t & Et & Hargs).
      rewrite Et. exists (decodeTrace p ++ t). split; [reflexivity|].
      rewrite remoteArgs_app, Ha. exact Hargs.
Qed.

(** X10. A pass stops at the first edited row whose typed entry is nil: it
    panics there.  The calls for the edited rows before it have been made
    and are not undone; no later row is pushed, the snapshot is kept,
    nothing is written and no event is sent, so the next pass makes the
    same calls again. *)
Theorem SyncListData_nil_entry_panics h item rows pre se post :
  syncReady h item rows ->
  filter isUpdated rows = pre ++ se :: post ->
  Forall hasTypedEntry pre ->
  typedListData se = None ->
  let run := SyncListData h in
  outcomeOf run = Panicked
  /\ remoteArgs (traceOf run) = pushesOf pre
  /\ hubOf run = h
  /\ filter isDbWrite (traceOf run) = []
  /\ sentEvents (traceOf run) = [].
Proof.
  intros Hready Ef Hall Hse run. subst run.
  rewrite (SyncListData_ready Hready), Ef.
  destruct (@syncEntries_panic pre se post 0 None h Hall Hse) as (tl & El & Hargs).
  destruct (syncEntries_any _ _ _ _ El) as (_ & Hloop & _).
  destruct (loop_events_quiet Hloop) as [Hw Hsent].
  destruct (pre ++ se :: post) as [|x xs] eqn:Ex.
  { destruct pre; discriminate. }
  rewrite El. unfold outcomeOf, traceOf, hubOf; cbn [fst snd].
  split; [reflexivity|]. split.
  { rewrite remoteArgs_app. exact Hargs. }
  split; [reflexivity|]. split.
  - rewrite filter_app, Hw. reflexivity.
  - unfold sentEvents in *. rewrite flat_map_app, Hsent. reflexivity.
Qed.

(** X11. [SyncListData] never touches the cache.  A snapshot that is cached
    when a pass runs is still what [GetCurrentSnapshot] and
    [RetrieveCurrentSnapshot] return after it, without a read of the
    database -- also when the pass has deleted that snapshot. *)
Theorem SyncListData_keeps_cache h :
  let h' := hubOf (SyncListData h) in
  currentSnapshot h' = currentSnapshot h
  /\ (forall s, currentSnapshot h = Some s ->
        GetCurrentSnapshot h' = ([EvLock; EvUnlock], h', Returned (Some s, true))
        /\ RetrieveCurrentSnapshot h' = ([EvLock; EvUnlock], h', Returned (Some s, true))).
Proof.
  intros h'. subst h'.
  destruct (SyncListData h) as [[t h'] o] eqn:E. unfold hubOf. cbn [fst snd].
  assert (Hc : currentSnapshot h' = currentSnapshot h).
  { destruct (SyncListData_hub _ E) as [->|(item & _ & ->)]; reflexivity. }
  split; [exact Hc|].
  intros s Hs. rewrite <- Hc in Hs. split.
  - rewrite GetCurrentSnapshot_run, Hs. reflexivity.
  - rewrite RetrieveCurrentSnapshot_run.
    unfold workingSnapshot, loadTrace, loadedHub. rewrite Hs. reflexivity.
Qed.

End CacheFacts.

Lemma SyncListData_last_call_decides_witness :
  let rows := [Scenario.row100; Scenario.row200; Scenario.row300] in
  let h1 := Scenario.onlineHub Scenario.clientFirstFails Scenario.storeTwoEdits in
  let h2 := Scenario.onlineHub Damaged.clientSecondFails Scenario.storeTwoEdits in
  (remoteResults (traceOf (SyncListData h1)) = [Some (ErrClient "rate limited"); None]
   /\ filter isDbWrite (traceOf (SyncListData h1)) = [EvDbDeleteSnapshot 1]
   /\ sentEvents (traceOf (SyncListData h1))
      = [RefreshedAnilistCollection; RefreshedAnilistMangaCollection])
  /\ (remoteResults (traceOf (SyncListData h2)) = [None; Some (ErrClient "rate limited")]
      /\ outcomeOf (SyncListData h2) = Returned None
      /\ hubOf (SyncListData h2) = h2
      /\ sentEvents (traceOf (SyncListData h2)) = []).
Proof.
  intros rows h1 h2.
  assert (Hne : filter isUpdated rows <> []) by discriminate.
  assert (Hall : Forall hasTypedEntry (filter isUpdated rows)).
  { repeat constructor; discriminate. }
  split.
  - assert (Hready : syncReady h1 Scenario.item1 rows) by (repeat split).
    destruct (@SyncListData_last_call_decides _ _ h1 Scenario.item1 rows Hready Hne Hall)
      as (_ & Hres & Hlast).
    split; [exact Hres|]. destruct Hlast as (_ & Hw & Hs). split; [exact Hw|exact Hs].
  - assert (Hready : syncReady h2 Scenario.item1 rows) by (repeat split).
    destruct (@SyncListData_last_call_decides _ _ h2 Scenario.item1 rows Hready Hne Hall)
      as (Ho & Hres & Hlast).
    split; [exact Hres|]. split; [exact Ho|].
    destruct Hlast as (Hh & _ & Hs). split; [exact Hh|exact Hs].
Defined.

Lemma SyncListData_nil_entry_panics_witness :
  let h := Scenario.onlineHub Scenario.clientOk Damaged.store in
  outcomeOf (SyncListData h) = Panicked
  /\ map argMediaId (remoteArgs (traceOf (SyncListData h))) = [100]
  /\ hubOf (SyncListData h) = h.
Proof.
  intros h.
  assert (Hready : syncReady h Scenario.item1
                     [Scenario.row100; Damaged.row500; Scenario.row300]) by (repeat split).
  destruct (@SyncListData_nil_entry_panics _ _ h Scenario.item1 _ [Scenario.row100]
              Damaged.row500 [Scenario.row300] Hready eq_refl)
    as (Ho & Hargs & Hh & _).
  - repeat constructor; discriminate.
  - reflexivity.
  - split; [exact Ho|]. split; [|exact Hh]. rewrite Hargs. reflexivity.
Defined.

(** A snapshot that was cached before a successful pass is still served
    after it, although the database has no snapshot left; an update made
    then finds no row. *)
Example stale_cache_after_sync :
  let h0 := Scenario.onlineHub Scenario.clientOk Scenario.store in
  let h1 := hubOf (RetrieveCurrentSnapshot h0) in
  let h2 := hubOf (SyncListData h1) in
  outcomeOf (SyncListData h1) = Returned None
  /\ latestSnapshotOf (offlineDb h2) = ErrR (ErrDb "record not found")
  /\ outcomeOf (GetCurrentSnapshot h2)
     = Returned (Some (mkSnapshot 1 [Scenario.row100; Scenario.row200]), true)
  /\ outcomeOf (UpdateAnimeListStatus 100 5 "COMPLETED" h2)
     = Returned (Some (ErrDb "record not found")).
Proof. repeat split. Qed.

(** ** The mode of the hub *)

Section ModeFacts.
Context {codec : EntryCodec} {database : Database}.

Lemma updateRun_mode {Rest} decodeEvent (decode : SnapshotMediaEntry -> option (Entry Rest))
    marshal msg assign mediaId client offline h :
  sameLocalRun client offline
    (updateRun decodeEvent decode marshal msg assign mediaId h)
    (updateRun decodeEvent decode marshal msg assign mediaId (withMode client offline h)).
Proof.
  unfold sameLocalRun, updateRun, workingSnapshot, loadedHub, loadTrace, withMode.
  cbn [currentSnapshot offlineDb].
  destruct (currentSnapshot h) as [s|] eqn:Ec;
    [|destruct (latestSnapshotOf (offlineDb h)) as [s|e0]];
    try (destruct (db_GetSnapshotMediaEntry mediaId (DbId s) (offlineDb h)) as [se|e];
         [destruct (decode se) as [entry|];
          [destruct (assign entry) as [entry'|];
           [cbv zeta;
            destruct (db_UpdateSnapshotMediaEntryT _ (offlineDb h)) as [d' [r|e]];
            [destruct (latestSnapshotOf d')|]|]|]|]);
    repeat split;
    unfold hubOf, set_offlineDb, set_currentSnapshot; cbn; rewrite ?Ec; reflexivity.
Qed.

(** X12. The cache and the update operations never look at the mode of the hub
    nor at its client: with another client, online or offline, each of
    them makes the same reads and writes, ends the same way and leaves the
    same database and the same cache.  An edit is stored the same way
    whether the hub is offline or not. *)
Theorem updates_ignore_mode client offline h :
  sameLocalRun client offline (RetrieveCurrentSnapshot h)
    (RetrieveCurrentSnapshot (withMode client offline h))
  /\ (forall mediaId progress status,
      sameLocalRun client offline (UpdateAnimeListStatus mediaId progress status h)
        (UpdateAnimeListStatus mediaId progress status (withMode client offline h))
      /\ sameLocalRun client offline (UpdateMangaListStatus mediaId progress status h)
           (UpdateMangaListStatus mediaId progress status (withMode client offline h)))
  /\ (forall mediaId status score progress startDate endDate,
      sameLocalRun client offline
        (UpdateEntryListData (Some mediaId) status score progress startDate endDate
           "anime" h)
        (UpdateEntryListData (Some mediaId) status score progress startDate endDate
           "anime" (withMode client offline h))
      /\ sameLocalRun client offline
           (UpdateEntryListData (Some mediaId) status score progress startDate endDate
              "manga" h)
           (UpdateEntryListData (Some mediaId) status score progress startDate endDate
              "manga" (withMode client offline h))).
Proof.
  split; [|split].
  - rewrite !RetrieveCurrentSnapshot_run.
    unfold sameLocalRun, workingSnapshot, loadedHub, loadTrace, withMode.
    cbn [currentSnapshot offlineDb].
    destruct (currentSnapshot h) as [s|] eqn:Ec;
      [|destruct (latestSnapshotOf (offlineDb h))];
      repeat split; unfold hubOf; cbn; rewrite ?Ec; reflexivity.
  - intros. rewrite !UpdateAnimeListStatus_run, !UpdateMangaListStatus_run.
    split; apply updateRun_mode.
  - intros. rewrite !UpdateEntryListData_anime_run, !UpdateEntryListData_manga_run.
    split; apply updateRun_mode.
Qed.

End ModeFacts.

(** * Torrent search: properties *)

Module animetoshoFacts.
Import animetosho.

(** ** Byte strings *)

Lemma length_append (a b : string) :
  String.length (a ++ b) = (String.length a + String.length b)%nat.
Proof. induction a as [|x a IH]; cbn; [reflexivity|now rewrite IH]. Qed.

Lemma append_inj_r (a b s : string) : (a ++ s = b ++ s)%string -> a = b.
Proof.
  revert b. induction a as [|x a IH]; intros [|y b] E; cbn in E.
  - reflexivity.
  - apply (f_equal String.length) in E. cbn in E. rewrite length_append in E. lia.
  - apply (f_equal String.length) in E. cbn in E. rewrite length_append in E. lia.
  - injection E as -> E. f_equal. now apply IH.
Qed.

Lemma bytesOf_append (a b : string) : bytesOf (a ++ b) = bytesOf a ++ bytesOf b.
Proof. induction a as [|x a IH]; cbn; [reflexivity|now rewrite IH]. Qed.

Lemma substring_all (s : string) : substring 0 (String.length s) s = s.
Proof. induction s as [|c s IH]; cbn; [reflexivity|now rewrite IH]. Qed.

Lemma substring_prefix (a b : string) : substring 0 (String.length a) (a ++ b) = a.
Proof.
  induction a as [|x a IH]; cbn; [now destruct b|now rewrite IH].
Qed.

Lemma substring_suffix (a b : string) :
  substring (String.length a) (String.length b) (a ++ b) = b.
Proof. induction a as [|x a IH]; cbn; [apply substring_all|exact IH]. Qed.

Lemma substring_split (s : string) : forall n,
  (n <= String.length s)%nat ->
  s = (substring 0 n s ++ substring n (String.length s - n) s)%string.
Proof.
  induction s as [|c s IH]; intros [|n] Hn; cbn in *; try lia.
  - reflexivity.
  - now rewrite substring_all.
  - rewrite <- IH by lia. reflexivity.
Qed.

(** ** [strings.TrimSuffix] *)

Lemma HasSuffix_append (a suffix : string) : HasSuffix (a ++ suffix) suffix = true.
Proof.
  unfold HasSuffix. rewrite length_append.
  replace (String.length a + String.length suffix - String.length suffix)%nat
    with (String.length a) by lia.
  rewrite substring_suffix, String.eqb_refl.
  apply andb_true_iff. split; [apply Nat.leb_le; lia|reflexivity].
Qed.

Lemma HasSuffix_split (s suffix : string) :
  HasSuffix s suffix = true ->
  s = (substring 0 (String.length s - String.length suffix) s ++ suffix)%string.
Proof.
  unfold HasSuffix. intros H. apply andb_true_iff in H as [Hlen Heq].
  apply Nat.leb_le in Hlen. apply String.eqb_eq in Heq.
  rewrite (substring_split s (n := String.length s - String.length suffix)) at 1 by lia.
  replace (String.length s - (String.length s - String.length suffix))%nat
    with (String.length suffix) by lia.
  now rewrite Heq.
Qed.

Lemma TrimSuffix_spec (s suffix r : string) :
  TrimSuffix s suffix = r
  <-> s = (r ++ suffix)%string \/ (s = r /\ HasSuffix s suffix = false).
Proof.
  unfold TrimSuffix. split.
  - destruct (HasSuffix s suffix) eqn:H.
    + intros <-. left. now apply HasSuffix_split.
    + intros <-. right. split; reflexivity.
  - intros [->|[-> H]].
    + rewrite HasSuffix_append, length_append.
      replace (String.length r + String.length suffix - String.length suffix)%nat
        with (String.length r) by lia.
      apply substring_prefix.
    + now rewrite H.
Qed.

(** ** [formatCommonQuery] *)

Lemma TrimSuffix_known quality q :
  In q qualities ->
  TrimSuffix quality "p" = q <-> quality = q \/ quality = (q ++ "p")%string.
Proof.
  intros Hq. rewrite TrimSuffix_spec. split.
  - intros [H|[H _]]; auto.
  - intros [->|H]; [|now left].
    right. split; [reflexivity|].
    cbn in Hq. decompose [or] Hq; subst; try reflexivity. contradiction.
Qed.

Lemma formatCommonQuery_cases quality :
  (In (TrimSuffix quality "p") qualities
   /\ formatCommonQuery quality = qualityFilter (TrimSuffix quality "p"))
  \/ (~ In (TrimSuffix quality "p") qualities
      /\ formatCommonQuery quality = "(e*|a*|r*|i*|o*)").
Proof.
  unfold formatCommonQuery. cbv zeta.
  destruct (String.eqb_spec (TrimSuffix quality "p") "1080") as [->|H1];
    [left; split; [cbn; auto|reflexivity]|].
  destruct (String.eqb_spec (TrimSuffix quality "p") "720") as [->|H2];
    [left; split; [cbn; auto|reflexivity]|].
  destruct (String.eqb_spec (TrimSuffix quality "p") "540") as [->|H3];
    [left; split; [cbn; auto|reflexivity]|].
  destruct (String.eqb_spec (TrimSuffix quality "p") "480") as [->|H4];
    [left; split; [cbn; auto|reflexivity]|].
  right. split; [|reflexivity].
  cbn. intros [H|[H|[H|[H|[]]]]]; congruence.
Qed.

Lemma qualityFilter_inj q q' :
  In q qualities -> In q' qualities -> qualityFilter q = qualityFilter q' -> q = q'.
Proof.
  cbn. intros Hq Hq'.
  decompose [or] Hq; decompose [or] Hq'; subst; try contradiction;
    intros E; try reflexivity; vm_compute in E; discriminate.
Qed.

Lemma qualityFilter_not_common q :
  In q qualities -> qualityFilter q <> "(e*|a*|r*|i*|o*)".
Proof.
  cbn. intros Hq. decompose [or] Hq; subst; try contradiction;
    intros E; vm_compute in E; discriminate.
Qed.

(** X13. [formatCommonQuery] knows a quality exactly when it is 1080, 720, 540
    or 480, followed by at most one p; the filter it gives then asks for
    the common terms or that quality and excludes the three other
    qualities.  Every other string -- an upper-case P, two p, a space, the
    empty string -- gives the filter of the common terms alone. *)
Theorem formatCommonQuery_recognises quality :
  (forall q, In q qualities ->
     formatCommonQuery quality = qualityFilter q
     <-> quality = q \/ quality = (q ++ "p")%string)
  /\ (formatCommonQuery quality = "(e*|a*|r*|i*|o*)"
      <-> forall q, In q qualities -> quality <> q /\ quality <> (q ++ "p")%string).
Proof.
  split.
  - intros q Hq. rewrite <- (TrimSuffix_known quality Hq).
    destruct (formatCommonQuery_cases quality) as [[Hin ->]|[Hnot ->]].
    + split; [now apply qualityFilter_inj|now intros ->].
    + split.
      * intros E. symmetry in E. now apply qualityFilter_not_common in E.
      * intros E. rewrite E in Hnot. contradiction.
  - destruct (formatCommonQuery_cases quality) as [[Hin ->]|[Hnot ->]].
    + split.
      * intros E. now apply qualityFilter_not_common in E.
      * intros H. destruct (H _ Hin) as [H1 H2].
        destruct (proj1 (TrimSuffix_known quality Hin) eq_refl); contradiction.
    + split; [|reflexivity].
      intros _ q Hq.
      assert (Hne : TrimSuffix quality "p" <> q) by (intros E; now rewrite E in Hnot).
      rewrite (TrimSuffix_known quality Hq) in Hne. tauto.
Qed.

(** ** [sanitizeTitle] *)

Lemma replaceFrom_single c s :
  replaceFrom (String c EmptyString) EmptyString 0 s
  = filterString (fun x => negb (Ascii.eqb x c)) s.
Proof.
  induction s as [|a s IH]; [reflexivity|].
  assert (Hnil : String.prefix EmptyString s = true) by now destruct s.
  cbn [replaceFrom filterString String.prefix String.length Nat.sub].
  destruct (ascii_dec c a) as [->|Hne].
  - rewrite Ascii.eqb_refl, Hnil. cbn. exact IH.
  - assert (Ascii.eqb a c = false) as -> by (apply Ascii.eqb_neq; congruence).
    cbn. now rewrite IH.
Qed.

Lemma filterString_filterString f g s :
  filterString f (filterString g s) = filterString (fun c => g c && f c) s.
Proof.
  induction s as [|a s IH]; [reflexivity|].
  cbn. destruct (g a); cbn; [destruct (f a)|]; now rewrite ?IH.
Qed.

Lemma filterString_ext f g s :
  (forall c, f c = g c) -> filterString f s = filterString g s.
Proof.
  intros H. induction s as [|a s IH]; [reflexivity|].
  cbn. now rewrite H, IH.
Qed.

Lemma filterString_append f a b :
  filterString f (a ++ b) = (filterString f a ++ filterString f b)%string.
Proof.
  induction a as [|x a IH]; [reflexivity|].
  cbn. destruct (f x); cbn; now rewrite IH.
Qed.

Lemma filterString_bytes f s : Forall (fun c => f c = true) (bytesOf (filterString f s)).
Proof.
  induction s as [|a s IH]; [constructor|].
  cbn. destruct (f a) eqn:E; [constructor; assumption|exact IH].
Qed.

Lemma filterString_id f s :
  Forall (fun c => f c = true) (bytesOf s) -> filterString f s = s.
Proof.
  induction s as [|a s IH]; [reflexivity|].
  cbn. intros H. inversion H as [|? ? Ha Hs]; subst.
  now rewrite Ha, IH.
Qed.

Lemma sanitizeTitle_filter t :
  sanitizeTitle t = filterString (fun c => negb (impactsQuery c)) t.
Proof.
  unfold sanitizeTitle, ReplaceAll.
  rewrite !replaceFrom_single, !filterString_filterString.
  apply filterString_ext. intros c. unfold impactsQuery.
  destruct (Ascii.eqb c "!"), (Ascii.eqb c ":"), (Ascii.eqb c "["), (Ascii.eqb c "]");
    reflexivity.
Qed.

(** X14. [sanitizeTitle] returns the title without its [!], [:] and square
    brackets, every other byte kept in its place.  Hence the result holds
    none of the four characters, a title without them is returned as it
    is, sanitizing twice is sanitizing once, and the result of a title in
    two parts is the two results put together. *)
Theorem sanitizeTitle_removes t :
  sanitizeTitle t = filterString (fun c => negb (impactsQuery c)) t
  /\ Forall (fun c => impactsQuery c = false) (bytesOf (sanitizeTitle t))
  /\ (Forall (fun c => impactsQuery c = false) (bytesOf t) -> sanitizeTitle t = t)
  /\ sanitizeTitle (sanitizeTitle t) = sanitizeTitle t
  /\ (forall u, sanitizeTitle (t ++ u) = (sanitizeTitle t ++ sanitizeTitle u)%string).
Proof.
  assert (Hclean : forall s, Forall (fun c => impactsQuery c = false)
                                    (bytesOf (sanitizeTitle s))).
  { intros s. rewrite sanitizeTitle_filter.
    eapply Forall_impl; [|apply filterString_bytes].
    cbv beta. intros c H. now apply negb_true_iff in H. }
  assert (Hid : forall s, Forall (fun c => impactsQuery c = false) (bytesOf s) ->
                          sanitizeTitle s = s).
  { intros s H. rewrite sanitizeTitle_filter. apply filterString_id.
    eapply Forall_impl; [|exact H]. cbv beta. intros c Hc. now rewrite Hc. }
  split; [apply sanitizeTitle_filter|]. split; [apply Hclean|].
  split; [apply Hid|]. split; [apply Hid, Hclean|].
  intros u. rewrite !sanitizeTitle_filter. apply filterString_append.
Qed.

(** ** [url.QueryEscape] *)

Lemma escapeByte_bytes c : Forall (fun x => isEscaped x = true) (bytesOf (escapeByte c)).
Proof.
  assert (H : forallb isEscaped (bytesOf (escapeByte c)) = true).
  { destruct c as [[] [] [] [] [] [] [] []]; reflexivity. }
  apply Forall_forall. intros x Hx.
  exact (proj1 (forallb_forall _ _) H x Hx).
Qed.

Lemma unescapeByte_escapeByte c s : unescapeByte (escapeByte c ++ s) = Some (c, s).
Proof.
  destruct c as [[] [] [] [] [] [] [] []]; reflexivity.
Qed.

Lemma QueryEscape_bytes s : Forall (fun x => isEscaped x = true) (bytesOf (QueryEscape s)).
Proof.
  induction s as [|c s IH]; [constructor|].
  cbn [QueryEscape]. rewrite bytesOf_append. apply Forall_app.
  split; [apply escapeByte_bytes|exact IH].
Qed.

Lemma QueryEscape_inj a : forall b, QueryEscape a = QueryEscape b -> a = b.
Proof.
  induction a as [|x a IH]; intros [|y b] E; cbn [QueryEscape] in E.
  - reflexivity.
  - apply (f_equal unescapeByte) in E. rewrite unescapeByte_escapeByte in E. discriminate.
  - apply (f_equal unescapeByte) in E. rewrite unescapeByte_escapeByte in E. discriminate.
  - apply (f_equal unescapeByte) in E. rewrite !unescapeByte_escapeByte in E.
    injection E as -> E. f_equal. now apply IH.
Qed.

(** ** The verb [%d] *)

Lemma string_of_uint_digits d :
  Forall (fun c => negb (Ascii.eqb c "&") = true) (bytesOf (NilEmpty.string_of_uint d)).
Proof. induction d; cbn; constructor; auto. Qed.

Lemma formatInt_bytes n :
  Forall (fun c => negb (Ascii.eqb c "&") = true) (bytesOf (formatInt n)).
Proof.
  unfold formatInt, NilZero.string_of_int, NilZero.string_of_uint.
  destruct (Z.to_int n) as [[| | | | | | | | | |]|[| | | | | | | | | |]];
    cbn; repeat constructor; apply string_of_uint_digits.
Qed.

Lemma to_int_not_nil n :
  Z.to_int n <> Decimal.Pos Decimal.Nil /\ Z.to_int n <> Decimal.Neg Decimal.Nil.
Proof.
  split; intros E; pose proof (DecimalZ.of_to n) as H; rewrite E in H;
    cbn in H; subst n; discriminate.
Qed.

Lemma formatInt_inj a b : formatInt a = formatInt b -> a = b.
Proof.
  unfold formatInt. intros E.
  apply (f_equal NilZero.int_of_string) in E.
  destruct (to_int_not_nil a), (to_int_not_nil b).
  rewrite !NilZero.isi in E by assumption.
  injection E as E. now apply DecimalZ.to_int_inj.
Qed.

(** Two strings without the byte [c], each followed by [c], end at the
    same place. *)
Lemma append_split c x : forall y r1 r2,
  Forall (fun a => negb (Ascii.eqb a c) = true) (bytesOf x) ->
  Forall (fun a => negb (Ascii.eqb a c) = true) (bytesOf y) ->
  (x ++ String c r1 = y ++ String c r2)%string ->
  x = y /\ r1 = r2.
Proof.
  induction x as [|a x IH]; intros [|b y] r1 r2 Hx Hy E; cbn in E.
  - injection E as E. split; [reflexivity|exact E].
  - injection E as <- _. inversion Hy as [|? ? Hb _]; subst.
    rewrite Ascii.eqb_refl in Hb. discriminate.
  - injection E as -> _. inversion Hx as [|? ? Ha _]; subst.
    rewrite Ascii.eqb_refl in Ha. discriminate.
  - injection E as -> E.
    inversion Hx; inversion Hy; subst.
    destruct (IH y r1 r2) as [-> ->]; auto.
Qed.

Section SearchFacts.
Context {web : Web}.

(** ** The requests *)

Lemma fetchTorrents_requests query :
  requestsOf (fetchTorrents query) = [(JsonFeedUrl ++ query)%string].
Proof.
  unfold fetchTorrents, requestsOf. cbv zeta.
  destruct (http_Get _) as [resp|e]; [|reflexivity].
  destruct (negb _); [reflexivity|].
  destruct (io_ReadAll _) as [b|e]; [|reflexivity].
  destruct (json_Unmarshal b) as [ret|e]; [|reflexivity].
  destruct (clampAll ret); reflexivity.
Qed.

(** X15. A search by title makes one request, to the JSON feed, whose query
    carries the sanitized title escaped: every byte of it is a letter, a
    digit or one of [-], [_], [.], [~], [+], [%], so that no text of the
    title can end the parameter or add one.  Two titles give the same
    request exactly when they are the same once sanitized; and a title of
    which nothing is left gives the request of [GetLatest]. *)
Theorem Search_requests :
  (forall show,
     requestsOf (Search show)
     = [(JsonFeedUrl ++ "?qx=1&q=" ++ QueryEscape (sanitizeTitle show)
         ++ "&filter[0][t]=nyaa_class&order=")%string]
     /\ Forall (fun c => isEscaped c = true) (bytesOf (QueryEscape (sanitizeTitle show))))
  /\ (forall a b,
      requestsOf (Search a) = requestsOf (Search b) <-> sanitizeTitle a = sanitizeTitle b)
  /\ (forall show,
      requestsOf (Search show) = requestsOf GetLatest <-> sanitizeTitle show = EmptyString).
Proof.
  assert (Hreq : forall show,
            requestsOf (Search show)
            = [(JsonFeedUrl ++ "?qx=1&q=" ++ QueryEscape (sanitizeTitle show)
                ++ "&filter[0][t]=nyaa_class&order=")%string]).
  { intros show. unfold Search. cbv zeta. apply fetchTorrents_requests. }
  assert (Hinj : forall x y,
            [(JsonFeedUrl ++ "?qx=1&q=" ++ QueryEscape x
              ++ "&filter[0][t]=nyaa_class&order=")%string]
            = [(JsonFeedUrl ++ "?qx=1&q=" ++ QueryEscape y
                ++ "&filter[0][t]=nyaa_class&order=")%string]
            -> x = y).
  { intros x y E. injection E as E.
    apply append_inj_r in E.
    now apply QueryEscape_inj. }
  split; [|split].
  - intros show. split; [apply Hreq|apply QueryEscape_bytes].
  - intros a b. rewrite !Hreq. split; [apply Hinj|now intros ->].
  - intros show. unfold GetLatest. cbv zeta.
    rewrite Hreq, fetchTorrents_requests. split.
    + intros E. apply (Hinj _ EmptyString). exact E.
    + intros ->. reflexivity.
Qed.

(** X16. A search by id makes one request, whose query carries the id in
    decimal and the filter of the quality, escaped.  Two searches by anime
    id make the same request exactly when the ids are equal and the
    qualities have the same filter -- 1080 and 1080p do, and so do any two
    qualities that are not known.  [SearchByAIDLikelyBatch] does what
    [SearchByAID] does, and a search by episode id never makes the request
    of a search by anime id. *)
Theorem SearchByAID_requests :
  (forall aid quality,
     requestsOf (SearchByAID aid quality)
     = [(JsonFeedUrl ++ "?qx=1&order=size-d&aid=" ++ formatInt aid ++ "&q="
         ++ QueryEscape (formatCommonQuery quality))%string]
     /\ SearchByAIDLikelyBatch aid quality = SearchByAID aid quality)
  /\ (forall aid1 quality1 aid2 quality2,
      requestsOf (SearchByAID aid1 quality1) = requestsOf (SearchByAID aid2 quality2)
      <-> aid1 = aid2 /\ formatCommonQuery quality1 = formatCommonQuery quality2)
  /\ (forall eid1 quality1 eid2 quality2,
      requestsOf (SearchByEID eid1 quality1) = requestsOf (SearchByEID eid2 quality2)
      <-> eid1 = eid2 /\ formatCommonQuery quality1 = formatCommonQuery quality2)
  /\ (forall aid eid quality1 quality2,
      requestsOf (SearchByAID aid quality1) <> requestsOf (SearchByEID eid quality2)).
Proof.
  assert (Ha : forall aid quality,
            requestsOf (SearchByAID aid quality)
            = [(JsonFeedUrl ++ "?qx=1&order=size-d&aid=" ++ formatInt aid ++ "&q="
                ++ QueryEscape (formatCommonQuery quality))%string]).
  { intros. unfold SearchByAID. cbv zeta. apply fetchTorrents_requests. }
  assert (He : forall eid quality,
            requestsOf (SearchByEID eid quality)
            = [(JsonFeedUrl ++ "?qx=1&eid=" ++ formatInt eid ++ "&q="
                ++ QueryEscape (formatCommonQuery quality))%string]).
  { intros. unfold SearchByEID. cbv zeta. apply fetchTorrents_requests. }
  assert (Hsplit : forall n1 q1 n2 q2,
            (formatInt n1 ++ "&q=" ++ QueryEscape q1
             = formatInt n2 ++ "&q=" ++ QueryEscape q2)%string ->
            n1 = n2 /\ q1 = q2).
  { intros n1 q1 n2 q2 E. cbn [append] in E.
    apply append_split in E as [E1 E2]; try apply formatInt_bytes.
    injection E2 as E2.
    split; [now apply formatInt_inj|now apply QueryEscape_inj]. }
  split; [|split; [|split]].
  - intros aid quality. split; [apply Ha|reflexivity].
  - intros aid1 quality1 aid2 quality2. rewrite !Ha. split.
    + intros E. injection E as E. now apply Hsplit.
    + intros [-> ->]. reflexivity.
  - intros eid1 quality1 eid2 quality2. rewrite !He. split.
    + intros E. injection E as E. now apply Hsplit.
    + intros [-> ->]. reflexivity.
  - intros aid eid quality1 quality2. rewrite Ha, He. intros E. discriminate E.
Qed.

(** ** The answer of the feed *)

Lemma clamp_clamped t : clamped t (clamp t) /\ withinBounds (clamp t).
Proof.
  unfold clamped, withinBounds, clamp, set_Seeders, set_Leechers.
  destruct t as [s l r]. cbn.
  destruct (Z.gtb_spec s 30000); cbn;
    destruct (Z.gtb_spec l 30000); cbn;
    repeat split; try reflexivity; lia.
Qed.

Lemma clampAll_Some ret : forall ret',
  clampAll ret = Some ret' ->
  Forall2 (fun r r' => exists t, r = Some t /\ r' = Some (clamp t)) ret ret'.
Proof.
  induction ret as [|[t|] ret IH]; intros ret' E; cbn in E.
  - injection E as <-. constructor.
  - destruct (clampAll ret) as [rest'|]; [|discriminate].
    injection E as <-. constructor; [now exists t|now apply IH].
  - discriminate.
Qed.

Lemma clampAll_None ret : clampAll ret = None <-> In None ret.
Proof.
  induction ret as [|[t|] ret IH]; cbn.
  - split; [discriminate|contradiction].
  - destruct (clampAll ret) as [rest'|].
    + split; [discriminate|]. intros [H|H]; [discriminate|].
      apply IH in H. discriminate.
    + split; [intros _; right; now apply IH|reflexivity].
  - split; [now left|reflexivity].
Qed.

(** X17. The torrents [fetchTorrents] returns are those decoded from the body
    of a 200 answer, as many and in the same order, each with its seeders
    and its leechers set to zero when above 30000 and everything else as
    decoded: a count of 30000 or less is kept, a negative one too.  So no
    torrent returned has more than 30000 seeders or leechers, and none is
    nil. *)
Theorem fetchTorrents_clamps query t ret' :
  fetchTorrents query = (t, Returned (OkR ret')) ->
  exists resp b ret,
    http_Get (JsonFeedUrl ++ query) = OkR resp
    /\ StatusCode resp = 200
    /\ io_ReadAll (RespBody resp) = OkR b
    /\ json_Unmarshal b = OkR ret
    /\ Forall2 (fun r r' => exists x x', r = Some x /\ r' = Some x'
                                        /\ clamped x x' /\ withinBounds x') ret ret'.
Proof.
  unfold fetchTorrents. cbv zeta. intros E.
  destruct (http_Get _) as [resp|e] eqn:Hget; [|discriminate].
  destruct (Z.eqb_spec (StatusCode resp) StatusOK) as [Hs|Hs]; cbn [negb] in E;
    [|discriminate].
  destruct (io_ReadAll _) as [b|e] eqn:Hread; [|discriminate].
  destruct (json_Unmarshal b) as [ret|e] eqn:Hjson; [|discriminate].
  destruct (clampAll ret) as [ret0|] eqn:Hc; [|discriminate].
  injection E as _ <-.
  exists resp, b, ret.
  split; [reflexivity|]. split; [exact Hs|]. split; [exact Hread|].
  split; [exact Hjson|].
  eapply Forall2_impl; [|apply clampAll_Some; exact Hc].
  cbv beta. intros r r' (x & -> & ->).
  exists x, (clamp x). destruct (clamp_clamped x). auto.
Qed.

(** X18. Whatever the network and the decoder answer, [fetchTorrents] prints
    the URL and makes one request, to the JSON feed with the query at its
    end.  When the request fails its error is returned and there is no
    body to close; otherwise the body is closed once, as the last thing
    done, also when the function panics.  The body is read only from a
    200 answer; any other answer gives the error text [failed to fetch
    torrents,] followed by the status line.  The function panics exactly
    when the decoded list has a nil element. *)
Theorem fetchTorrents_closes_body query :
  let furl := (JsonFeedUrl ++ query)%string in
  let run := fetchTorrents query in
  (exists rest, fst run = EvPrintln furl :: EvHttpGet furl :: rest
                /\ requests rest = [])
  /\ match http_Get furl with
     | ErrR e => fst run = [EvPrintln furl; EvHttpGet furl] /\ snd run = Returned (ErrR e)
     | OkR resp =>
         (exists t0, fst run = t0 ++ [EvBodyClose] /\ ~ In EvBodyClose t0)
         /\ (In EvReadAll (fst run) <-> StatusCode resp = 200)
         /\ (StatusCode resp <> 200 ->
             snd run = Returned (ErrR (ErrNew ("failed to fetch torrents, " ++ Status resp))))
         /\ (snd run = Panicked
             <-> StatusCode resp = 200
                 /\ exists b ret, io_ReadAll (RespBody resp) = OkR b
                                  /\ json_Unmarshal b = OkR ret /\ In None ret)
     end.
Proof.
  intros furl run. subst run. unfold fetchTorrents. cbv zeta. fold furl.
  assert (Hno : forall l : list netevent,
            ~ In EvBodyClose (EvPrintln furl :: EvHttpGet furl :: l) <-> ~ In EvBodyClose l).
  { intros l. cbn. split; [tauto|]. intros H [H1|[H1|H1]]; [discriminate|discriminate|tauto]. }
  destruct (http_Get furl) as [resp|e] eqn:Hget.
  2:{ split; [exists []; split; reflexivity|]. split; reflexivity. }
  destruct (Z.eqb_spec (StatusCode resp) StatusOK) as [Hs|Hs]; cbn [negb].
  2:{ cbn [fst snd]. split; [exists [EvBodyClose]; split; reflexivity|].
      split; [exists [EvPrintln furl; EvHttpGet furl]; split;
                [reflexivity|apply Hno; intros []]|].
      split; [|split].
      - split; [|contradiction].
        intros [H|[H|[H|[]]]]; discriminate.
      - reflexivity.
      - split; [discriminate|]. intros [H _]. contradiction. }
  unfold StatusOK in Hs.
  assert (Hshape : forall o : outcome (result (list (option (Torrent Rest)))),
            (exists rest,
               fst ([EvPrintln furl; EvHttpGet furl; EvReadAll; EvBodyClose], o)
               = EvPrintln furl :: EvHttpGet furl :: rest /\ requests rest = [])
            /\ (exists t0,
                  fst ([EvPrintln furl; EvHttpGet furl; EvReadAll; EvBodyClose], o)
                  = t0 ++ [EvBodyClose] /\ ~ In EvBodyClose t0)
            /\ (In EvReadAll (fst ([EvPrintln furl; EvHttpGet furl; EvReadAll; EvBodyClose], o))
                <-> StatusCode resp = 200)
            /\ (StatusCode resp <> 200 ->
                snd ([EvPrintln furl; EvHttpGet furl; EvReadAll; EvBodyClose], o)
                = Returned (ErrR (ErrNew ("failed to fetch torrents, " ++ Status resp))))).
  { intros o. cbn [fst snd]. split; [exists [EvReadAll; EvBodyClose]; split; reflexivity|].
    split; [exists [EvPrintln furl; EvHttpGet furl; EvReadAll]; split; [reflexivity|]|].
    { apply Hno. intros [H|[]]. discriminate. }
    split; [|contradiction].
    split; [intros _; exact Hs|]. intros _. right. right. now left. }
  destruct (io_ReadAll (RespBody resp)) as [b|e] eqn:Hread.
  2:{ destruct (Hshape (Returned (ErrR e))) as (H1 & H2 & H3 & H4).
      refine (conj H1 (conj H2 (conj H3 (conj H4 _)))).
      cbn [snd]. split; [discriminate|].
      intros (_ & b & ret & Hb & _). discriminate. }
  destruct (json_Unmarshal b) as [ret|e] eqn:Hjson.
  2:{ destruct (Hshape (Returned (ErrR e))) as (H1 & H2 & H3 & H4).
      refine (conj H1 (conj H2 (conj H3 (conj H4 _)))).
      cbn [snd]. split; [discriminate|].
      intros (_ & b' & ret & Hb & Hj & _). congruence. }
  destruct (clampAll ret) as [ret'|] eqn:Hc.
  - destruct (Hshape (Returned (OkR ret'))) as (H1 & H2 & H3 & H4).
    refine (conj H1 (conj H2 (conj H3 (conj H4 _)))).
    cbn [snd]. split; [discriminate|].
    intros (_ & b' & ret0 & Hb & Hj & Hin).
    assert (ret0 = ret) as -> by congruence.
    apply clampAll_None in Hin. congruence.
  - destruct (Hshape (@Panicked (result (list (option (Torrent Rest))))))
      as (H1 & H2 & H3 & H4).
    refine (conj H1 (conj H2 (conj H3 (conj H4 _)))).
    cbn [snd]. split; [|reflexivity].
    intros _. split; [exact Hs|]. exists b, ret.
    split; [reflexivity|]. split; [exact Hjson|]. now apply clampAll_None.
Qed.

End SearchFacts.

Lemma fetchTorrents_clamps_witness :
  let torrents := [Some (mkTorrent 40000 5 "a"); Some (mkTorrent (-3) 30001 "b");
                   Some (mkTorrent 30000 0 "c")] in
  let web := feed 200 "200 OK" torrents in
  snd (@fetchTorrents web "?qx=1&q=")
  = Returned (OkR [Some (mkTorrent 0 5 "a"); Some (mkTorrent (-3) 0 "b");
                   Some (mkTorrent 30000 0 "c")])
  /\ exists resp b ret,
       @http_Get web (JsonFeedUrl ++ "?qx=1&q=") = OkR resp
       /\ StatusCode resp = 200
       /\ @io_ReadAll web (RespBody resp) = OkR b
       /\ @json_Unmarshal web b = OkR ret
       /\ Forall2 (fun r r' => exists x x', r = Some x /\ r' = Some x'
                                           /\ clamped x x' /\ withinBounds x')
            ret [Some (mkTorrent 0 5 "a"); Some (mkTorrent (-3) 0 "b");
                 Some (mkTorrent 30000 0 "c")].
Proof.
  intros torrents web. split; [reflexivity|].
  exact (@fetchTorrents_clamps web "?qx=1&q=" _ _ eq_refl).
Defined.

End animetoshoFacts.
